(** * Investo: metrics engine, price cache and portfolio storage

    A shallow embedding of the calculation modules
    ([lib/calculations/*.ts]), the date helpers, the price-cache service
    and the portfolio service of the Investo ETF tracker, with the
    properties its specification states about them, and further
    properties of the same services, of the metrics hook
    ([hooks/use-metrics.ts]) and of the loop that collects the fetched
    prices ([hooks/use-prices.ts]).

    JavaScript numbers are kept abstract behind the class [Arith]: every
    function of the program is written once, against that interface, and
    is then read under two interpretations.
    - [R_arith]: exact real arithmetic (no rounding, no overflow, no NaN).
      This is the reading under which the formulas of the specification
      are stated.
    - [number_arith]: reals extended with [+Infinity], [-Infinity] and
      [NaN], where a result beyond the binary64 range overflows to an
      infinity.  Rounding inside the range and the sign of zero are not
      modelled.  This is the reading under which non-finite results and
      [NaN] can be observed. *)

From Stdlib Require Import Reals Lra ZArith QArith Qabs Lia Ascii String Sorted Permutation.
From stdpp Require Import base option list gmap strings pretty.


(* ===================================================================== *)
(** ** Numbers *)

Declare Scope num_scope.
Delimit Scope num_scope with num.

Class Arith (num : Type) := {
  of_Z : Z → num;                (* an integer, as a number *)
  add : num → num → num;
  sub : num → num → num;
  mul : num → num → num;
  div : num → num → num;
  Math_pow : num → num → num;
  eqb : num → num → bool;        (* ===  *)
  ltb : num → num → bool;        (* <    *)
  leb : num → num → bool;        (* <=   *)
  truthy : num → bool;           (* ToBoolean *)
}.

Infix "+" := add : num_scope.
Infix "-" := sub : num_scope.
Infix "*" := mul : num_scope.
Infix "/" := div : num_scope.
Infix "=?" := eqb : num_scope.
Infix "<?" := ltb : num_scope.
Infix "<=?" := leb : num_scope.
Notation "x >? y" := (ltb y x) (only parsing) : num_scope.
Notation "x ||| y" := (if truthy x then x else y)
  (at level 50, left associativity, only parsing) : num_scope.

(** *** Exact real arithmetic *)

#[global] Instance Req_decision : EqDecision R := Req_dec_T.
#[global] Instance Rlt_decision : RelDecision Rlt := Rlt_dec.
#[global] Instance Rle_decision : RelDecision Rle := Rle_dec.

(** [Math.pow] on the reals is [Rpower], which is the power function for a
    positive base; the engine only raises a positive ratio. *)
#[global] Instance R_arith : Arith R := {|
  of_Z := IZR;
  add := Rplus;
  sub := Rminus;
  mul := Rmult;
  div := Rdiv;
  Math_pow := Rpower;
  eqb x y := bool_decide (x = y);
  ltb x y := bool_decide (x < y)%R;
  leb x y := bool_decide (x <= y)%R;
  truthy x := bool_decide (x ≠ 0%R);
|}.

(** *** Numbers with infinities and NaN *)

Inductive number : Type :=
  | Fin (r : R)
  | PInf
  | NInf
  | NaN.

Definition isFinite (x : number) : bool :=
  match x with Fin _ => true | _ => false end.

(** Under round-to-nearest a real of magnitude at least
    [2^1024 - 2^970] has no finite binary64 neighbour. *)
Definition overflow_threshold : R := (2 ^ 1024 - 2 ^ 970)%R.

Definition to_number (r : R) : number :=
  if decide (overflow_threshold <= r)%R then PInf
  else if decide (r <= - overflow_threshold)%R then NInf
  else Fin r.

Definition number_neg (x : number) : number :=
  match x with
  | Fin r => Fin (- r)
  | PInf => NInf
  | NInf => PInf
  | NaN => NaN
  end.

Definition number_add (x y : number) : number :=
  match x, y with
  | NaN, _ | _, NaN => NaN
  | PInf, NInf | NInf, PInf => NaN
  | PInf, _ | _, PInf => PInf
  | NInf, _ | _, NInf => NInf
  | Fin a, Fin b => to_number (a + b)
  end.

Definition number_sub (x y : number) : number := number_add x (number_neg y).

(** The sign of an infinite product or quotient; a zero factor gives NaN. *)
Definition signed_inf (positive : bool) : number :=
  if positive then PInf else NInf.

Definition inf_times (positive : bool) (r : R) : number :=
  if decide (r = 0)%R then NaN
  else signed_inf (Bool.eqb (bool_decide (0 < r)%R) positive).

Definition number_mul (x y : number) : number :=
  match x, y with
  | NaN, _ | _, NaN => NaN
  | Fin a, Fin b => to_number (a * b)
  | PInf, Fin r | Fin r, PInf => inf_times true r
  | NInf, Fin r | Fin r, NInf => inf_times false r
  | PInf, PInf | NInf, NInf => PInf
  | PInf, NInf | NInf, PInf => NInf
  end.

Definition number_div (x y : number) : number :=
  match x, y with
  | NaN, _ | _, NaN => NaN
  | Fin a, Fin b =>
      if decide (b = 0)%R then
        if decide (a = 0)%R then NaN else signed_inf (bool_decide (0 < a)%R)
      else to_number (a / b)
  | Fin _, (PInf | NInf) => Fin 0
  | PInf, Fin r => signed_inf (bool_decide (0 <= r)%R)
  | NInf, Fin r => signed_inf (negb (bool_decide (0 <= r)%R))
  | (PInf | NInf), (PInf | NInf) => NaN
  end.

(** An exponent that is a whole number, with its parity. *)
Definition is_integer (e : R) : bool := bool_decide (IZR (Int_part e) = e).
Definition is_odd_integer (e : R) : bool := is_integer e && Z.odd (Int_part e).

(** [Math.pow], following the case analysis of Number::exponentiate. *)
Definition number_pow (base exponent : number) : number :=
  match exponent with
  | NaN => NaN
  | Fin e =>
      if decide (e = 0)%R then Fin 1 else
      match base with
      | NaN => NaN
      | PInf => if decide (0 < e)%R then PInf else Fin 0
      | NInf =>
          if decide (0 < e)%R
          then (if is_odd_integer e then NInf else PInf)
          else Fin 0
      | Fin b =>
          if decide (b = 0)%R then (if decide (0 < e)%R then Fin 0 else PInf)
          else if decide (0 < b)%R then to_number (Rpower b e)
          else if is_integer e then
            to_number (if Z.odd (Int_part e)
                       then - Rpower (- b) e else Rpower (- b) e)
          else NaN
      end
  | PInf =>
      match base with
      | NaN => NaN
      | PInf | NInf => PInf
      | Fin b =>
          if decide (1 < Rabs b)%R then PInf
          else if decide (Rabs b = 1)%R then NaN else Fin 0
      end
  | NInf =>
      match base with
      | NaN => NaN
      | PInf | NInf => Fin 0
      | Fin b =>
          if decide (1 < Rabs b)%R then Fin 0
          else if decide (Rabs b = 1)%R then NaN else PInf
      end
  end.

Definition number_eqb (x y : number) : bool :=
  match x, y with
  | Fin a, Fin b => bool_decide (a = b)
  | PInf, PInf | NInf, NInf => true
  | _, _ => false
  end.

Definition number_ltb (x y : number) : bool :=
  match x, y with
  | NaN, _ | _, NaN => false
  | Fin a, Fin b => bool_decide (a < b)%R
  | NInf, (Fin _ | PInf) => true
  | Fin _, PInf => true
  | _, _ => false
  end.

Definition number_leb (x y : number) : bool :=
  match x, y with
  | NaN, _ | _, NaN => false
  | _, _ => number_ltb x y || number_eqb x y
  end.

Definition number_truthy (x : number) : bool :=
  match x with
  | NaN => false
  | Fin r => bool_decide (r ≠ 0%R)
  | PInf | NInf => true
  end.

#[global] Instance number_arith : Arith number := {|
  of_Z z := Fin (IZR z);
  add := number_add;
  sub := number_sub;
  mul := number_mul;
  div := number_div;
  Math_pow := number_pow;
  eqb := number_eqb;
  ltb := number_ltb;
  leb := number_leb;
  truthy := number_truthy;
|}.

(* ===================================================================== *)
(** ** Data model ([types/portfolio.ts])

    Timestamps ([createdAt], [lastUpdated], ...) are the epoch milliseconds
    of the ISO strings the program stores; [purchaseDate] stays a string
    and is read through [Date_parse]. *)

Module ETF.
Record t := mk {
  symbol : string;
  name : string;
  exchange : option string;
  currency : string;
}.
End ETF.

Module Purchase.
Record t {num : Type} := mk {
  id : string;
  etfSymbol : string;
  purchaseDate : string;
  shares : num;
  pricePerShare : num;
  totalCost : num;
  fees : num;
  notes : option string;
  createdAt : Z;
  updatedAt : Z;
}.
Arguments t : clear implicits.
Arguments mk {num}.
End Purchase.

Module ETFCacheEntry.
Record t {num : Type} := mk {
  etf : ETF.t;
  currentPrice : num;
  previousClose : num;
  lastUpdated : Z;
  ytdStartPrice : num;
}.
Arguments t : clear implicits.
Arguments mk {num}.
End ETFCacheEntry.

Module ETFPriceData.
Record t {num : Type} := mk {
  symbol : string;
  currentPrice : num;
  previousClose : num;
  change : num;
  changePercent : num;
  high52Week : num;
  low52Week : num;
  ytdChange : num;
}.
Arguments t : clear implicits.
Arguments mk {num}.
End ETFPriceData.

Module Portfolio.
Record t {num : Type} := mk {
  id : string;
  name : string;
  purchases : list (Purchase.t num);
  etfCache : gmap string (ETFCacheEntry.t num);
  createdAt : Z;
  updatedAt : Z;
  version : Z;
}.
Arguments t : clear implicits.
Arguments mk {num}.
End Portfolio.

Module PurchaseMetrics.
Record t {num : Type} := mk {
  purchaseId : string;
  etfSymbol : string;
  shares : num;
  costBasis : num;
  currentValue : num;
  gainLoss : num;
  gainLossPercent : num;
  holdingPeriodDays : num;
  annualizedReturn : num;
}.
Arguments t : clear implicits.
Arguments mk {num}.
End PurchaseMetrics.

Module ETFHoldingMetrics.
Record t {num : Type} := mk {
  etfSymbol : string;
  etfName : string;
  totalShares : num;
  averageCostPerShare : num;
  totalCostBasis : num;
  currentPrice : num;
  currentValue : num;
  totalGainLoss : num;
  totalGainLossPercent : num;
  weightInPortfolio : num;
  purchases : list (PurchaseMetrics.t num);
}.
Arguments t : clear implicits.
Arguments mk {num}.
End ETFHoldingMetrics.

Module PortfolioMetrics.
Record t {num : Type} := mk {
  totalInvested : num;
  currentValue : num;
  totalGainLoss : num;
  totalGainLossPercent : num;
  ytdGainLoss : num;
  ytdGainLossPercent : num;
  holdings : list (ETFHoldingMetrics.t num);
  lastUpdated : Z;
}.
Arguments t : clear implicits.
Arguments mk {num}.
End PortfolioMetrics.

Module YTDPerformance.
Record t {num : Type} := mk {
  ytdGainLoss : num;
  ytdGainLossPercent : num;
}.
Arguments t : clear implicits.
Arguments mk {num}.
End YTDPerformance.


(* ===================================================================== *)
(** ** The runtime: clock, time zones, id generator

    An instant is a number of milliseconds since the epoch; a civil time
    is the same count read on a wall clock.  The time-zone rules belong to
    the host, so the conversions are fields of the runtime. *)

Local Open Scope Z_scope.

Record Runtime := {
  Date_now : Z;               (* Date.now() *)
  Date_parse : string → Z;    (* new Date(s).getTime(), for a stored date *)
  localTime : Z → Z;          (* an instant on the local wall clock *)
  localInstant : Z → Z;       (* a local wall-clock time as an instant *)
  easternTime : Z → Z;        (* an instant on the America/New_York clock *)
  Date_toISOString : Z → string;  (* new Date(t).toISOString() *)
  generateId : string;        (* the id the next generateId() call returns *)
}.

Definition msPerMinute : Z := 1000 * 60.
Definition msPerHour : Z := 1000 * 60 * 60.
Definition msPerDay : Z := 1000 * 60 * 60 * 24.

(** Days since 1970-01-01 of a proleptic Gregorian date, and back. *)
Definition days_from_civil (y m d : Z) : Z :=
  let y := if m <=? 2 then y - 1 else y in
  let era := y / 400 in
  let yoe := y - era * 400 in
  let doy := (153 * (if 2 <? m then m - 3 else m + 9) + 2) / 5 + d - 1 in
  let doe := yoe * 365 + yoe / 4 - yoe / 100 + doy in
  era * 146097 + doe - 719468.

Definition year_of_days (z : Z) : Z :=
  let z := z + 719468 in
  let era := z / 146097 in
  let doe := z - era * 146097 in
  let yoe := (doe - doe / 1460 + doe / 36524 - doe / 146096) / 365 in
  let y := yoe + era * 400 in
  let doy := doe - (365 * yoe + yoe / 4 - yoe / 100) in
  let mp := (5 * doy + 2) / 153 in
  let m := if mp <? 10 then mp + 3 else mp - 9 in
  if m <=? 2 then y + 1 else y.

(** Fields of a civil time.  1970-01-01 was a Thursday (day 4). *)
Definition getDay (civil : Z) : Z := (civil / msPerDay + 4) mod 7.
Definition getHours (civil : Z) : Z := (civil mod msPerDay) / msPerHour.
Definition getMinutes (civil : Z) : Z := (civil mod msPerHour) / msPerMinute.
Definition getFullYear (civil : Z) : Z := year_of_days (civil / msPerDay).

(** *** Date helpers ([lib/utils/date.ts]) *)

Definition getYearStart (rt : Runtime) : Z :=
  let now := localTime rt (Date_now rt) in
  localInstant rt (days_from_civil (getFullYear now) 1 1 * msPerDay).

Definition getDaysBetween (startTime endTime : Z) : Z :=
  (endTime - startTime) / msPerDay.

Definition isMarketOpen (rt : Runtime) : bool :=
  let eastern := easternTime rt (Date_now rt) in
  let dayOfWeek := getDay eastern in
  let hours := getHours eastern in
  let minutes := getMinutes eastern in
  let currentTimeInMinutes := hours * 60 + minutes in
  let marketOpen := 9 * 60 + 30 in
  let marketClose := 16 * 60 in
  let isWeekday := (1 <=? dayOfWeek) && (dayOfWeek <=? 5) in
  let isDuringMarketHours :=
    (marketOpen <=? currentTimeInMinutes) && (currentTimeInMinutes <? marketClose) in
  isWeekday && isDuringMarketHours.

(* ===================================================================== *)
(** ** JavaScript [Map] and [Array.prototype.sort]

    A [Map] iterates in insertion order, and [set] on a present key keeps
    the key's place: an association list, updated in place. *)

Fixpoint Map_get {V} (k : string) (m : list (string * V)) : option V :=
  match m with
  | [] => None
  | (k', v) :: m' => if decide (k' = k) then Some v else Map_get k m'
  end.

Fixpoint Map_set {V} (k : string) (v : V) (m : list (string * V))
    : list (string * V) :=
  match m with
  | [] => [(k, v)]
  | (k', v') :: m' =>
      if decide (k' = k) then (k, v) :: m' else (k', v') :: Map_set k v m'
  end.

(** [sort] is a stable sort: an element moves in front of another only
    when the comparator returns a positive number for the pair in their
    current order.  Stable insertion sort has that contract. *)
Fixpoint sort_insert {num} `{!Arith num} {A}
    (compareFn : A → A → num) (x : A) (sorted : list A) : list A :=
  match sorted with
  | [] => [x]
  | y :: ys =>
      if (compareFn x y <=? of_Z 0)%num then x :: y :: ys
      else y :: sort_insert compareFn x ys
  end.

Definition Array_sort {num} `{!Arith num} {A}
    (compareFn : A → A → num) (xs : list A) : list A :=
  foldr (sort_insert compareFn) [] xs.

(* ===================================================================== *)
(** ** Numeric primitives ([lib/calculations/utils.ts]) *)

Section calculations.
Context {num : Type} `{!Arith num}.
Local Open Scope num_scope.

(** [xs.reduce((sum, p) => sum + f(p), 0)] *)
Definition reduce_sum {A} (f : A → num) (xs : list A) : num :=
  fold_left (λ sum p, sum + f p) xs (of_Z 0).

Definition calculateGainLoss (costBasis currentValue : num) : num :=
  currentValue - costBasis.

Definition calculateGainLossPercent (costBasis currentValue : num) : num :=
  if costBasis =? of_Z 0 then of_Z 0
  else ((currentValue - costBasis) / costBasis) * of_Z 100.

Definition calculateWeightedAverageCost
    (purchases : list (Purchase.t num)) : num :=
  if (length purchases =? 0)%nat then of_Z 0 else
  let totalShares := reduce_sum Purchase.shares purchases in
  let totalCost := reduce_sum Purchase.totalCost purchases in
  if totalShares =? of_Z 0 then of_Z 0
  else totalCost / totalShares.

Definition calculateAnnualizedReturn (startValue endValue days : num) : num :=
  if (startValue <=? of_Z 0) || (days <=? of_Z 0) then of_Z 0
  else if endValue <=? of_Z 0 then of_Z (-100)
  else
    let ratio := endValue / startValue in
    let yearsHeld := days / of_Z 365 in
    let cagr := Math_pow ratio (of_Z 1 / yearsHeld) - of_Z 1 in
    cagr * of_Z 100.

Definition calculatePortfolioWeight (holdingValue totalValue : num) : num :=
  if totalValue =? of_Z 0 then of_Z 0
  else (holdingValue / totalValue) * of_Z 100.

(** ** Purchase metrics ([lib/calculations/purchase-metrics.ts]) *)

Definition calculatePurchaseMetrics (rt : Runtime)
    (purchase : Purchase.t num) (currentPrice : num) : PurchaseMetrics.t num :=
  let costBasis := Purchase.totalCost purchase in
  let currentValue := Purchase.shares purchase * currentPrice in
  let gainLoss := calculateGainLoss costBasis currentValue in
  let gainLossPercent := calculateGainLossPercent costBasis currentValue in
  let purchaseDate := Date_parse rt (Purchase.purchaseDate purchase) in
  let today := Date_now rt in
  let holdingPeriodDays := of_Z (getDaysBetween purchaseDate today) in
  let annualizedReturn :=
    calculateAnnualizedReturn costBasis currentValue holdingPeriodDays in
  {| PurchaseMetrics.purchaseId := Purchase.id purchase;
     PurchaseMetrics.etfSymbol := Purchase.etfSymbol purchase;
     PurchaseMetrics.shares := Purchase.shares purchase;
     PurchaseMetrics.costBasis := costBasis;
     PurchaseMetrics.currentValue := currentValue;
     PurchaseMetrics.gainLoss := gainLoss;
     PurchaseMetrics.gainLossPercent := gainLossPercent;
     PurchaseMetrics.holdingPeriodDays := holdingPeriodDays;
     PurchaseMetrics.annualizedReturn := annualizedReturn |}.

(** ** ETF holding metrics ([lib/calculations/etf-holding-metrics.ts]) *)

Definition calculateETFHoldingMetrics (rt : Runtime)
    (purchases : list (Purchase.t num)) (etfName : string)
    (currentPrice totalPortfolioValue : num) : ETFHoldingMetrics.t num :=
  match purchases with
  | [] =>
      {| ETFHoldingMetrics.etfSymbol := "";
         ETFHoldingMetrics.etfName := etfName;
         ETFHoldingMetrics.totalShares := of_Z 0;
         ETFHoldingMetrics.averageCostPerShare := of_Z 0;
         ETFHoldingMetrics.totalCostBasis := of_Z 0;
         ETFHoldingMetrics.currentPrice := currentPrice;
         ETFHoldingMetrics.currentValue := of_Z 0;
         ETFHoldingMetrics.totalGainLoss := of_Z 0;
         ETFHoldingMetrics.totalGainLossPercent := of_Z 0;
         ETFHoldingMetrics.weightInPortfolio := of_Z 0;
         ETFHoldingMetrics.purchases := [] |}
  | first :: _ =>
      let etfSymbol := Purchase.etfSymbol first in
      let totalShares := reduce_sum Purchase.shares purchases in
      let totalCostBasis := reduce_sum Purchase.totalCost purchases in
      let currentValue := totalShares * currentPrice in
      let averageCostPerShare := calculateWeightedAverageCost purchases in
      let totalGainLoss := calculateGainLoss totalCostBasis currentValue in
      let totalGainLossPercent :=
        calculateGainLossPercent totalCostBasis currentValue in
      let weightInPortfolio :=
        calculatePortfolioWeight currentValue totalPortfolioValue in
      let purchaseMetrics :=
        map (λ purchase, calculatePurchaseMetrics rt purchase currentPrice)
            purchases in
      {| ETFHoldingMetrics.etfSymbol := etfSymbol;
         ETFHoldingMetrics.etfName := etfName;
         ETFHoldingMetrics.totalShares := totalShares;
         ETFHoldingMetrics.averageCostPerShare := averageCostPerShare;
         ETFHoldingMetrics.totalCostBasis := totalCostBasis;
         ETFHoldingMetrics.currentPrice := currentPrice;
         ETFHoldingMetrics.currentValue := currentValue;
         ETFHoldingMetrics.totalGainLoss := totalGainLoss;
         ETFHoldingMetrics.totalGainLossPercent := totalGainLossPercent;
         ETFHoldingMetrics.weightInPortfolio := weightInPortfolio;
         ETFHoldingMetrics.purchases := purchaseMetrics |}
  end.

(** ** Grouping purchases by symbol (the loop shared by the YTD calculator
    and the portfolio orchestrator) *)

Definition groupBySymbol (purchases : list (Purchase.t num))
    : list (string * list (Purchase.t num)) :=
  fold_left
    (λ purchasesBySymbol purchase,
       let existing :=
         default [] (Map_get (Purchase.etfSymbol purchase) purchasesBySymbol) in
       Map_set (Purchase.etfSymbol purchase) (existing ++ [purchase])
               purchasesBySymbol)
    purchases [].

(** ** YTD calculator ([lib/calculations/ytd-calculator.ts])

    The three accumulators of the loop, in the order
    [(ytdGainLoss, valueAtYearStart, newInvestmentsThisYear)]. *)

Definition ytd_purchase_step (rt : Runtime) (yearStartTime : Z)
    (currentPrice ytdStartPrice : num)
    (acc : num * num * num) (purchase : Purchase.t num) : num * num * num :=
  let '(ytdGainLoss, valueAtYearStart, newInvestmentsThisYear) := acc in
  let purchaseTime := Date_parse rt (Purchase.purchaseDate purchase) in
  let currentValue := Purchase.shares purchase * currentPrice in
  if (purchaseTime <? yearStartTime)%Z then
    let valueAtStart := Purchase.shares purchase * ytdStartPrice in
    (ytdGainLoss + (currentValue - valueAtStart),
     valueAtYearStart + valueAtStart,
     newInvestmentsThisYear)
  else
    (ytdGainLoss + (currentValue - Purchase.totalCost purchase),
     valueAtYearStart,
     newInvestmentsThisYear + Purchase.totalCost purchase).

Definition ytdStartPrice_of (price : ETFPriceData.t num) : num :=
  let currentPrice := ETFPriceData.currentPrice price in
  if negb (ETFPriceData.ytdChange price =? of_Z 0)
  then currentPrice / (of_Z 1 + ETFPriceData.ytdChange price / of_Z 100)
  else currentPrice.

Definition ytd_symbol_step (rt : Runtime) (yearStartTime : Z)
    (priceData : gmap string (ETFPriceData.t num))
    (acc : num * num * num) (entry : string * list (Purchase.t num))
    : num * num * num :=
  let '(symbol, etfPurchases) := entry in
  match priceData !! symbol with
  | None => acc
  | Some price =>
      let currentPrice := ETFPriceData.currentPrice price in
      let ytdStartPrice := ytdStartPrice_of price in
      fold_left (ytd_purchase_step rt yearStartTime currentPrice ytdStartPrice)
                etfPurchases acc
  end.

Definition calculateYTDPerformance (rt : Runtime)
    (purchases : list (Purchase.t num))
    (priceData : gmap string (ETFPriceData.t num)) : YTDPerformance.t num :=
  let yearStartTime := getYearStart rt in
  let purchasesBySymbol := groupBySymbol purchases in
  let '(ytdGainLoss, valueAtYearStart, newInvestmentsThisYear) :=
    fold_left (ytd_symbol_step rt yearStartTime priceData) purchasesBySymbol
              (of_Z 0, of_Z 0, of_Z 0) in
  let base := valueAtYearStart + newInvestmentsThisYear in
  let ytdGainLossPercent :=
    if base >? of_Z 0 then (ytdGainLoss / base) * of_Z 100 else of_Z 0 in
  {| YTDPerformance.ytdGainLoss := ytdGainLoss;
     YTDPerformance.ytdGainLossPercent := ytdGainLossPercent |}.

(** ** Portfolio metrics ([lib/calculations/portfolio-metrics.ts]) *)

Definition totalCurrentValue_of
    (priceData : gmap string (ETFPriceData.t num))
    (purchasesBySymbol : list (string * list (Purchase.t num))) : num :=
  fold_left
    (λ totalCurrentValue '(symbol, etfPurchases),
       match priceData !! symbol with
       | Some price =>
           let totalShares := reduce_sum Purchase.shares etfPurchases in
           totalCurrentValue + totalShares * ETFPriceData.currentPrice price
       | None => totalCurrentValue
       end)
    purchasesBySymbol (of_Z 0).

(** [cacheEntry?.etf?.name || symbol] *)
Definition etfName_of (etfCache : gmap string (ETFCacheEntry.t num))
    (symbol : string) : string :=
  match etfCache !! symbol with
  | Some cacheEntry =>
      let name := ETF.name (ETFCacheEntry.etf cacheEntry) in
      if decide (name = "") then symbol else name
  | None => symbol
  end.

(** The holdings in the order the second loop pushes them. *)
Definition holdings_of (rt : Runtime)
    (etfCache : gmap string (ETFCacheEntry.t num))
    (priceData : gmap string (ETFPriceData.t num))
    (totalCurrentValue : num)
    (purchasesBySymbol : list (string * list (Purchase.t num)))
    : list (ETFHoldingMetrics.t num) :=
  fold_left
    (λ holdings '(symbol, etfPurchases),
       match priceData !! symbol with
       | Some price =>
           let etfName := etfName_of etfCache symbol in
           let holdingMetrics :=
             calculateETFHoldingMetrics rt etfPurchases etfName
               (ETFPriceData.currentPrice price) totalCurrentValue in
           holdings ++ [holdingMetrics]
       | None => holdings
       end)
    purchasesBySymbol [].

Definition holdings_compare (a b : ETFHoldingMetrics.t num) : num :=
  ETFHoldingMetrics.currentValue b - ETFHoldingMetrics.currentValue a.

Definition calculatePortfolioMetrics (rt : Runtime)
    (portfolio : Portfolio.t num)
    (priceData : gmap string (ETFPriceData.t num)) : PortfolioMetrics.t num :=
  let purchases := Portfolio.purchases portfolio in
  let etfCache := Portfolio.etfCache portfolio in
  if (length purchases =? 0)%nat then
    {| PortfolioMetrics.totalInvested := of_Z 0;
       PortfolioMetrics.currentValue := of_Z 0;
       PortfolioMetrics.totalGainLoss := of_Z 0;
       PortfolioMetrics.totalGainLossPercent := of_Z 0;
       PortfolioMetrics.ytdGainLoss := of_Z 0;
       PortfolioMetrics.ytdGainLossPercent := of_Z 0;
       PortfolioMetrics.holdings := [];
       PortfolioMetrics.lastUpdated := Date_now rt |}
  else
    let purchasesBySymbol := groupBySymbol purchases in
    let totalCurrentValue := totalCurrentValue_of priceData purchasesBySymbol in
    let holdings :=
      Array_sort holdings_compare
        (holdings_of rt etfCache priceData totalCurrentValue purchasesBySymbol) in
    let totalInvested := reduce_sum Purchase.totalCost purchases in
    let totalGainLoss := calculateGainLoss totalInvested totalCurrentValue in
    let totalGainLossPercent :=
      calculateGainLossPercent totalInvested totalCurrentValue in
    let ytd := calculateYTDPerformance rt purchases priceData in
    {| PortfolioMetrics.totalInvested := totalInvested;
       PortfolioMetrics.currentValue := totalCurrentValue;
       PortfolioMetrics.totalGainLoss := totalGainLoss;
       PortfolioMetrics.totalGainLossPercent := totalGainLossPercent;
       PortfolioMetrics.ytdGainLoss := YTDPerformance.ytdGainLoss ytd;
       PortfolioMetrics.ytdGainLossPercent :=
         YTDPerformance.ytdGainLossPercent ytd;
       PortfolioMetrics.holdings := holdings;
       PortfolioMetrics.lastUpdated := Date_now rt |}.

End calculations.

(* ===================================================================== *)
(** ** The annualized return of [hooks/use-metrics.ts]

    The hook carries its own copy of the calculation, which ends with
    [isFinite(cagr) ? cagr : 0]. *)

Definition useMetrics_calculateAnnualizedReturn
    (costBasis currentValue days : number) : number :=
  if ((costBasis <=? of_Z 0) || (days <=? of_Z 0))%num then of_Z 0
  else
    let years := (days / of_Z 365)%num in
    let totalReturn := (currentValue / costBasis)%num in
    let cagr :=
      ((Math_pow totalReturn (of_Z 1 / years) - of_Z 1) * of_Z 100)%num in
    if isFinite cagr then cagr else of_Z 0.

(* ===================================================================== *)
(** ** localStorage ([lib/storage/utils.ts])

    One key of [window.localStorage], holding a value of type [A]; the
    JSON encoding of the stored value is not modelled, and a write
    succeeds whenever the storage is there.  [available] is the answer of
    [isLocalStorageAvailable]. *)

Module LocalStorage.
Record t {A : Type} := mk {
  available : bool;
  item : option A;
}.
Arguments t : clear implicits.
Arguments mk {A}.
End LocalStorage.

Definition safeGetItem {A} (store : LocalStorage.t A) : option A :=
  if LocalStorage.available store then LocalStorage.item store else None.

Definition safeSetItem {A} (store : LocalStorage.t A) (value : A)
    : bool * LocalStorage.t A :=
  if LocalStorage.available store
  then (true, LocalStorage.mk true (Some value))
  else (false, store).

(** *** Strings: [toUpperCase] and [trim], on ASCII *)

Definition toUpperCase_ascii (c : ascii) : ascii :=
  let n := nat_of_ascii c in
  if ((97 <=? n) && (n <=? 122))%nat then ascii_of_nat (n - 32) else c.

Fixpoint toUpperCase (s : string) : string :=
  match s with
  | EmptyString => EmptyString
  | String c s' => String (toUpperCase_ascii c) (toUpperCase s')
  end.

Fixpoint trimStart (s : string) : string :=
  match s with
  | EmptyString => EmptyString
  | String c s' => if Ascii.is_space c then trimStart s' else s
  end.

Definition trim (s : string) : string :=
  String.rev (trimStart (String.rev (trimStart s))).

(** [symbol.toUpperCase().trim()] *)
Definition normalizeSymbol (symbol : string) : string :=
  trim (toUpperCase symbol).

(* ===================================================================== *)
(** ** Price cache ([lib/storage/price-cache.service.ts]) *)

Definition CACHE_TTL_MARKET_HOURS : Z := 5 * 60 * 1000.
Definition CACHE_TTL_AFTER_HOURS : Z := 30 * 60 * 1000.
Definition CACHE_TTL_CLOSED : Z := 60 * 60 * 1000.

Definition getCurrentCacheTTL (rt : Runtime) : Z :=
  if isMarketOpen rt then CACHE_TTL_MARKET_HOURS
  else
    let now := localTime rt (Date_now rt) in
    let day := getDay now in
    if (day =? 0) || (day =? 6) then CACHE_TTL_CLOSED
    else CACHE_TTL_AFTER_HOURS.

Section price_cache.
Context {num : Type} `{!Arith num}.
Local Open Scope num_scope.

Definition getPriceCache
    (store : LocalStorage.t (gmap string (ETFCacheEntry.t num)))
    : gmap string (ETFCacheEntry.t num) :=
  match safeGetItem store with
  | None => ∅
  | Some cache => cache
  end.

Definition savePriceCache (cache : gmap string (ETFCacheEntry.t num))
    (store : LocalStorage.t (gmap string (ETFCacheEntry.t num)))
    : LocalStorage.t (gmap string (ETFCacheEntry.t num)) :=
  snd (safeSetItem store cache).

Definition updatePriceCache (rt : Runtime) (symbol : string)
    (data : ETFPriceData.t num)
    (store : LocalStorage.t (gmap string (ETFCacheEntry.t num)))
    : LocalStorage.t (gmap string (ETFCacheEntry.t num)) :=
  let normalizedSymbol := normalizeSymbol symbol in
  let cache := getPriceCache store in
  let now := Date_now rt in
  let cacheEntry :=
    {| ETFCacheEntry.etf :=
         {| ETF.symbol := normalizedSymbol; ETF.name := "";
            ETF.exchange := None; ETF.currency := "USD" |};
       ETFCacheEntry.currentPrice := ETFPriceData.currentPrice data;
       ETFCacheEntry.previousClose := ETFPriceData.previousClose data;
       ETFCacheEntry.lastUpdated := now;
       ETFCacheEntry.ytdStartPrice :=
         ETFPriceData.currentPrice data
         / (of_Z 1 + ETFPriceData.ytdChange data / of_Z 100) |} in
  savePriceCache (<[normalizedSymbol := cacheEntry]> cache) store.

Definition getCachedPrice (rt : Runtime) (symbol : string)
    (store : LocalStorage.t (gmap string (ETFCacheEntry.t num)))
    : option (num * bool) :=
  let normalizedSymbol := normalizeSymbol symbol in
  let cache := getPriceCache store in
  match cache !! normalizedSymbol with
  | None => None
  | Some entry =>
      let lastUpdated := ETFCacheEntry.lastUpdated entry in
      let now := Date_now rt in
      let age := (now - lastUpdated)%Z in
      let ttl := getCurrentCacheTTL rt in
      Some (ETFCacheEntry.currentPrice entry, (ttl <? age)%Z)
  end.

Definition isCacheStale (rt : Runtime) (symbol : string)
    (store : LocalStorage.t (gmap string (ETFCacheEntry.t num))) : bool :=
  match getCachedPrice rt symbol store with
  | None => true
  | Some (_, stale) => stale
  end.

End price_cache.

(* ===================================================================== *)
(** ** Exceptions *)

Inductive exn : Type :=
  | Error (message : string)
  | TypeError (message : string).

Inductive result (A : Type) : Type :=
  | Ok (a : A)
  | Throw (e : exn).
Arguments Ok {A}.
Arguments Throw {A}.

#[global] Instance result_bind : MBind result :=
  λ A B k r, match r with Ok a => k a | Throw e => Throw e end.

(* ===================================================================== *)
(** ** [parseFloat]

    The longest prefix that is a decimal literal, after leading white
    space: a sign, then [Infinity] or digits with an optional fraction and
    an optional exponent; [NaN] when there is no such prefix. *)

Fixpoint read_digits (s : string) (acc count : Z) : Z * Z * string :=
  match s with
  | EmptyString => (acc, count, s)
  | String c s' =>
      match Ascii.is_nat c with
      | Some d => read_digits s' (acc * 10 + Z.of_nat d) (count + 1)
      | None => (acc, count, s)
      end
  end.

Definition read_sign (s : string) : bool * string :=
  match s with
  | String "-" s' => (true, s')
  | String "+" s' => (false, s')
  | _ => (false, s)
  end.

Definition read_exponent (s : string) : Z :=
  match s with
  | String ("e" | "E") s' =>
      let '(negative, s'') := read_sign s' in
      let '(e, count, _) := read_digits s'' 0 0 in
      if count =? 0 then 0 else if negative then - e else e
  | _ => 0
  end.

Definition parseFloat (input : string) : number :=
  let '(negative, s) := read_sign (trimStart input) in
  let magnitude :=
    if String.prefix "Infinity" s then PInf else
    let '(mantissa, int_digits, s) := read_digits s 0 0 in
    let '(mantissa, frac_digits, s) :=
      match s with
      | String "." s' => read_digits s' mantissa 0
      | _ => (mantissa, 0, s)
      end in
    if int_digits + frac_digits =? 0 then NaN
    else
      to_number (IZR mantissa * powerRZ 10 (read_exponent s - frac_digits)) in
  if negative then number_neg magnitude else magnitude.

(* ===================================================================== *)
(** ** Portfolio service ([lib/storage/portfolio.service.ts])

    The form hands over strings, and [parseFloat] can answer [NaN], so the
    service is read on [number]. *)

Module PurchaseFormData.
Record t := mk {
  etfSymbol : string;
  purchaseDate : string;
  shares : string;
  pricePerShare : string;
  fees : string;
  notes : string;
}.
End PurchaseFormData.

(** [Partial<PurchaseFormData>]: an absent field is [undefined]. *)
Module PartialPurchaseFormData.
Record t := mk {
  etfSymbol : option string;
  purchaseDate : option string;
  shares : option string;
  pricePerShare : option string;
  fees : option string;
  notes : option string;
}.
End PartialPurchaseFormData.

Definition CURRENT_SCHEMA_VERSION : Z := 1.

(** What [savePortfolio] needs of a portfolio document:
    [{...portfolio, updatedAt: new Date().toISOString()}]. *)
Class PortfolioDocument (doc : Type) := touch : Runtime → doc → doc.

#[global] Instance Portfolio_document {num} : PortfolioDocument (Portfolio.t num) :=
  λ rt portfolio,
    {| Portfolio.id := Portfolio.id portfolio;
       Portfolio.name := Portfolio.name portfolio;
       Portfolio.purchases := Portfolio.purchases portfolio;
       Portfolio.etfCache := Portfolio.etfCache portfolio;
       Portfolio.createdAt := Portfolio.createdAt portfolio;
       Portfolio.updatedAt := Date_now rt;
       Portfolio.version := Portfolio.version portfolio |}.

Definition savePortfolio {doc} `{!PortfolioDocument doc} (rt : Runtime)
    (store : LocalStorage.t doc) (portfolio : doc)
    : result (LocalStorage.t doc) :=
  let updatedPortfolio := touch rt portfolio in
  let '(success, store') := safeSetItem store updatedPortfolio in
  if success then Ok store'
  else Throw (Error "Failed to save portfolio to localStorage").


(** [s.trim() || undefined] *)
Definition trim_or_undefined (s : string) : option string :=
  let t := trim s in if decide (t = "") then None else Some t.

Definition with_purchases (portfolio : Portfolio.t number)
    (purchases : list (Purchase.t number)) (now : Z) : Portfolio.t number :=
  {| Portfolio.id := Portfolio.id portfolio;
     Portfolio.name := Portfolio.name portfolio;
     Portfolio.purchases := purchases;
     Portfolio.etfCache := Portfolio.etfCache portfolio;
     Portfolio.createdAt := Portfolio.createdAt portfolio;
     Portfolio.updatedAt := now;
     Portfolio.version := Portfolio.version portfolio |}.

Definition addPurchase (rt : Runtime)
    (store : LocalStorage.t (Portfolio.t number))
    (portfolio : Portfolio.t number) (data : PurchaseFormData.t)
    : result (Portfolio.t number * LocalStorage.t (Portfolio.t number)) :=
  let now := Date_now rt in
  let shares := parseFloat (PurchaseFormData.shares data) in
  let pricePerShare := parseFloat (PurchaseFormData.pricePerShare data) in
  let fees := (parseFloat (PurchaseFormData.fees data) ||| of_Z 0)%num in
  let purchase :=
    {| Purchase.id := generateId rt;
       Purchase.etfSymbol := normalizeSymbol (PurchaseFormData.etfSymbol data);
       Purchase.purchaseDate := PurchaseFormData.purchaseDate data;
       Purchase.shares := shares;
       Purchase.pricePerShare := pricePerShare;
       Purchase.totalCost := (shares * pricePerShare + fees)%num;
       Purchase.fees := fees;
       Purchase.notes := trim_or_undefined (PurchaseFormData.notes data);
       Purchase.createdAt := now;
       Purchase.updatedAt := now |} in
  let updatedPortfolio :=
    with_purchases portfolio (Portfolio.purchases portfolio ++ [purchase]) now in
  store' ← savePortfolio rt store updatedPortfolio;
  Ok (updatedPortfolio, store').

Definition updatePurchase (rt : Runtime)
    (store : LocalStorage.t (Portfolio.t number))
    (portfolio : Portfolio.t number) (id : string)
    (data : PartialPurchaseFormData.t)
    : result (Portfolio.t number * LocalStorage.t (Portfolio.t number)) :=
  match list_find (λ p, Purchase.id p = id) (Portfolio.purchases portfolio) with
  | None => Throw (Error ("Purchase with ID " +:+ id +:+ " not found"))
  | Some (purchaseIndex, existingPurchase) =>
      let now := Date_now rt in
      let shares :=
        match PartialPurchaseFormData.shares data with
        | Some s => parseFloat s
        | None => Purchase.shares existingPurchase
        end in
      let pricePerShare :=
        match PartialPurchaseFormData.pricePerShare data with
        | Some s => parseFloat s
        | None => Purchase.pricePerShare existingPurchase
        end in
      let fees :=
        match PartialPurchaseFormData.fees data with
        | Some s => parseFloat s
        | None => Purchase.fees existingPurchase
        end in
      let updatedPurchase :=
        {| Purchase.id := Purchase.id existingPurchase;
           Purchase.etfSymbol :=
             match PartialPurchaseFormData.etfSymbol data with
             | Some s => normalizeSymbol s
             | None => Purchase.etfSymbol existingPurchase
             end;
           Purchase.purchaseDate :=
             default (Purchase.purchaseDate existingPurchase)
                     (PartialPurchaseFormData.purchaseDate data);
           Purchase.shares := shares;
           Purchase.pricePerShare := pricePerShare;
           Purchase.totalCost := (shares * pricePerShare + fees)%num;
           Purchase.fees := fees;
           Purchase.notes :=
             match PartialPurchaseFormData.notes data with
             | Some s => trim_or_undefined s
             | None => Purchase.notes existingPurchase
             end;
           Purchase.createdAt := Purchase.createdAt existingPurchase;
           Purchase.updatedAt := now |} in
      let updatedPurchases :=
        <[purchaseIndex := updatedPurchase]> (Portfolio.purchases portfolio) in
      let updatedPortfolio := with_purchases portfolio updatedPurchases now in
      store' ← savePortfolio rt store updatedPortfolio;
      Ok (updatedPortfolio, store')
  end.

(* ===================================================================== *)
(** ** JSON documents and [importPortfolio]

    [JSON.parse] yields untyped values; the import reads them as such.  A
    number of a JSON text is a decimal literal, hence a rational.  An
    object is the list of its properties, keys distinct. *)

#[warnings="-register-all"]
Inductive json : Type :=
  | JNull
  | JBool (b : bool)
  | JNum (q : Q)
  | JStr (s : string)
  | JArr (items : list json)
  | JObj (props : list (string * json)).

(** [v.key] on a value that is not [null]; [None] is [undefined].  The
    keys read by the import are not properties of strings or arrays. *)
Definition field (v : json) (key : string) : option json :=
  match v with
  | JObj props => Map_get key props
  | _ => None
  end.

(** [v.key], which throws on [null]. *)
Definition get_prop (v : json) (key : string) : result (option json) :=
  match v with
  | JNull =>
      Throw (TypeError ("Cannot read properties of null (reading '"
                        +:+ key +:+ "')"))
  | _ => Ok (field v key)
  end.

(** ToBoolean *)
Definition js_truthy (v : option json) : bool :=
  match v with
  | None | Some JNull => false
  | Some (JBool b) => b
  | Some (JNum q) => negb (Qeq_bool q 0)
  | Some (JStr s) => negb (bool_decide (s = ""))
  | Some (JArr _) | Some (JObj _) => true
  end.

(** [typeof v === 'string'], [typeof v === 'number'], [v <= 0] *)
Definition is_string (v : option json) : bool :=
  match v with Some (JStr _) => true | _ => false end.

Definition is_number (v : option json) : bool :=
  match v with Some (JNum _) => true | _ => false end.

Definition number_le_zero (v : option json) : bool :=
  match v with Some (JNum q) => Qle_bool q 0 | _ => false end.

(** [v || now] *)
Definition or_else (v : option json) (fallback : json) : json :=
  match v with
  | Some j => if js_truthy v then j else fallback
  | None => fallback
  end.

(** [{...v}]: the own properties of an object. *)
Definition spread (v : json) : list (string * json) :=
  match v with JObj props => props | _ => [] end.

#[global] Instance json_document : PortfolioDocument json :=
  λ rt portfolio,
    JObj (Map_set "updatedAt" (JStr (Date_toISOString rt (Date_now rt)))
                  (spread portfolio)).

Definition validatePurchase (purchase : json) : result unit :=
  id ← get_prop purchase "id";
  if negb (js_truthy id) || negb (is_string id)
  then Throw (Error "Invalid purchase: missing or invalid id") else
  etfSymbol ← get_prop purchase "etfSymbol";
  if negb (js_truthy etfSymbol) || negb (is_string etfSymbol)
  then Throw (Error "Invalid purchase: missing or invalid etfSymbol") else
  shares ← get_prop purchase "shares";
  if negb (is_number shares) || number_le_zero shares
  then Throw (Error "Invalid purchase: shares must be a positive number") else
  pricePerShare ← get_prop purchase "pricePerShare";
  if negb (is_number pricePerShare) || number_le_zero pricePerShare
  then Throw (Error "Invalid purchase: pricePerShare must be a positive number")
  else Ok ().

Fixpoint validatePurchases (purchases : list json) : result unit :=
  match purchases with
  | [] => Ok ()
  | purchase :: rest =>
      _ ← validatePurchase purchase;
      validatePurchases rest
  end.

(** The checks of [importPortfolio], up to the construction of the
    portfolio: the list of purchases when the document passes. *)
Definition validateImport (parsed : option json) : result (json * list json) :=
  let data := default JNull parsed in
  if negb (js_truthy (Some data)) then Throw (Error "Invalid JSON format") else
  if negb (js_truthy (field data "id")) || negb (is_string (field data "id"))
  then Throw (Error "Invalid portfolio: missing or invalid id") else
  if negb (js_truthy (field data "name")) || negb (is_string (field data "name"))
  then Throw (Error "Invalid portfolio: missing or invalid name") else
  match field data "purchases" with
  | Some (JArr purchases) =>
      _ ← validatePurchases purchases;
      Ok (data, purchases)
  | _ => Throw (Error "Invalid portfolio: purchases must be an array")
  end.

Definition backfill_purchase (now : json) (p : json) : json :=
  JObj (Map_set "updatedAt" (or_else (field p "updatedAt") now)
         (Map_set "createdAt" (or_else (field p "createdAt") now)
            (spread p))).

(** [importPortfolio (json)]; [parsed] is what [JSON.parse] made of the
    text, [None] when it threw. *)
Definition importPortfolio (rt : Runtime) (store : LocalStorage.t json)
    (parsed : option json) : result (json * LocalStorage.t json) :=
  '(data, purchases) ← validateImport parsed;
  let now := JStr (Date_toISOString rt (Date_now rt)) in
  let portfolio :=
    JObj [("id", default JNull (field data "id"));
          ("name", default JNull (field data "name"));
          ("purchases", JArr (map (backfill_purchase now) purchases));
          ("etfCache", or_else (field data "etfCache") (JObj []));
          ("createdAt", or_else (field data "createdAt") now);
          ("updatedAt", now);
          ("version", JNum (inject_Z CURRENT_SCHEMA_VERSION))] in
  store' ← savePortfolio rt store portfolio;
  Ok (portfolio, store').

(* ===================================================================== *)
(** ** Specification-level definitions

    What the specification says, in its own terms, to be compared with
    the functions above.  Sums are over the list of purchases as given,
    in exact real arithmetic. *)

Fixpoint sum_of {A} (f : A → R) (xs : list A) : R :=
  match xs with
  | [] => 0%R
  | x :: xs' => (f x + sum_of f xs')%R
  end.

(** The symbols of a list, each at its first occurrence. *)
Definition first_occurrences (symbols : list string) : list string :=
  fold_left (λ seen s, if decide (s ∈ seen) then seen else seen ++ [s])
            symbols [].

Section ytd_specification.
Variable rt : Runtime.
Variable priceData : gmap string (ETFPriceData.t R).
Local Open Scope R_scope.

(** [purchaseTime < yearStartTime], the comparison of instants that the
    calculator makes: what the host reads the date of the purchase as,
    against the instant at which the running year began on the local
    calendar. *)
Definition dated_before_year_start (p : Purchase.t R) : bool :=
  (Date_parse rt (Purchase.purchaseDate p) <? getYearStart rt)%Z.

(** [currentPrice / (1 + ytdChangePercent/100)], and [currentPrice] when the
    change is exactly 0. *)
Definition spec_ytdStartPrice (quote : ETFPriceData.t R) : R :=
  if decide (ETFPriceData.ytdChange quote = 0)
  then ETFPriceData.currentPrice quote
  else ETFPriceData.currentPrice quote
       / (1 + ETFPriceData.ytdChange quote / 100).

(** What one purchase contributes to each of the three totals, by that
    comparison. *)
Definition spec_valueAtYearStart (p : Purchase.t R) : R :=
  match priceData !! Purchase.etfSymbol p with
  | Some quote =>
      if dated_before_year_start p
      then Purchase.shares p * spec_ytdStartPrice quote
      else 0
  | None => 0
  end.

Definition spec_newInvestmentsThisYear (p : Purchase.t R) : R :=
  match priceData !! Purchase.etfSymbol p with
  | Some quote =>
      if dated_before_year_start p then 0 else Purchase.totalCost p
  | None => 0
  end.

Definition spec_ytdGainLoss (p : Purchase.t R) : R :=
  match priceData !! Purchase.etfSymbol p with
  | Some quote =>
      if dated_before_year_start p
      then Purchase.shares p * ETFPriceData.currentPrice quote
           - Purchase.shares p * spec_ytdStartPrice quote
      else Purchase.shares p * ETFPriceData.currentPrice quote
           - Purchase.totalCost p
  | None => 0
  end.

Definition spec_YTDPerformance (purchases : list (Purchase.t R))
    : YTDPerformance.t R :=
  let ytdGainLoss := sum_of spec_ytdGainLoss purchases in
  let denominator :=
    sum_of spec_valueAtYearStart purchases
    + sum_of spec_newInvestmentsThisYear purchases in
  {| YTDPerformance.ytdGainLoss := ytdGainLoss;
     YTDPerformance.ytdGainLossPercent :=
       if decide (denominator <= 0) then 0
       else ytdGainLoss / denominator * 100 |}.

(** The market value of one purchase: [shares * currentPrice] when its
    symbol has a quote, nothing otherwise. *)
Definition quoted_value (p : Purchase.t R) : R :=
  match priceData !! Purchase.etfSymbol p with
  | Some quote => Purchase.shares p * ETFPriceData.currentPrice quote
  | None => 0
  end.

End ytd_specification.

(** *** Year to date by calendar dates

    "Dated before January 1 of the current year" and "dated this year", in
    the words of the specification: the day that the [YYYY-MM-DD] date of
    a purchase names, against the first day of the running year of the
    local calendar.  A day is compared with a day: the date is not turned
    into an instant, and the only clock read is the one that tells which
    year is running. *)

Definition after_dash (s : string) : string :=
  match s with String "-" s' => s' | _ => s end.

(** The year, month and day that a [YYYY-MM-DD] date names. *)
Definition calendar_date (date : string) : Z * Z * Z :=
  let '(year, _, rest) := read_digits date 0 0 in
  let '(month, _, rest) := read_digits (after_dash rest) 0 0 in
  let '(day, _, _) := read_digits (after_dash rest) 0 0 in
  (year, month, day).

(** An earlier day of the calendar. *)
Definition date_before (a b : Z * Z * Z) : bool :=
  let '(year, month, day) := a in
  let '(year', month', day') := b in
  (year <? year')%Z
  || (year =? year')%Z
     && ((month <? month')%Z || (month =? month')%Z && (day <? day')%Z).

Section ytd_by_calendar_date.
Variable rt : Runtime.
Variable priceData : gmap string (ETFPriceData.t R).
Local Open Scope R_scope.

(** The running year, on the local calendar. *)
Definition spec_current_year : Z := getFullYear (localTime rt (Date_now rt)).

(** Dated before January 1 of the current year. *)
Definition spec_dated_before_january_1 (p : Purchase.t R) : bool :=
  date_before (calendar_date (Purchase.purchaseDate p))
              (spec_current_year, 1%Z, 1%Z).

Definition spec_calendar_valueAtYearStart (p : Purchase.t R) : R :=
  match priceData !! Purchase.etfSymbol p with
  | Some quote =>
      if spec_dated_before_january_1 p
      then Purchase.shares p * spec_ytdStartPrice quote
      else 0
  | None => 0
  end.

Definition spec_calendar_newInvestmentsThisYear (p : Purchase.t R) : R :=
  match priceData !! Purchase.etfSymbol p with
  | Some quote =>
      if spec_dated_before_january_1 p then 0 else Purchase.totalCost p
  | None => 0
  end.

Definition spec_calendar_ytdGainLoss (p : Purchase.t R) : R :=
  match priceData !! Purchase.etfSymbol p with
  | Some quote =>
      if spec_dated_before_january_1 p
      then Purchase.shares p * ETFPriceData.currentPrice quote
           - Purchase.shares p * spec_ytdStartPrice quote
      else Purchase.shares p * ETFPriceData.currentPrice quote
           - Purchase.totalCost p
  | None => 0
  end.

Definition spec_calendar_YTDPerformance (purchases : list (Purchase.t R))
    : YTDPerformance.t R :=
  let ytdGainLoss := sum_of spec_calendar_ytdGainLoss purchases in
  let denominator :=
    sum_of spec_calendar_valueAtYearStart purchases
    + sum_of spec_calendar_newInvestmentsThisYear purchases in
  {| YTDPerformance.ytdGainLoss := ytdGainLoss;
     YTDPerformance.ytdGainLossPercent :=
       if decide (denominator <= 0) then 0
       else ytdGainLoss / denominator * 100 |}.

End ytd_by_calendar_date.

(** The total of a per-purchase quantity over the grouped map, and the
    quantities the loops add up, by the symbol of the group. *)
Definition group_total (h : string → Purchase.t R → R)
    (m : list (string * list (Purchase.t R))) : R :=
  sum_of (λ entry, sum_of (h entry.1) entry.2) m.

Section grouped_contributions.
Variable rt : Runtime.
Variable priceData : gmap string (ETFPriceData.t R).
Local Open Scope R_scope.

Definition gainLoss_in (symbol : string) (p : Purchase.t R) : R :=
  match priceData !! symbol with
  | Some quote =>
      if dated_before_year_start rt p
      then Purchase.shares p * ETFPriceData.currentPrice quote
           - Purchase.shares p * spec_ytdStartPrice quote
      else Purchase.shares p * ETFPriceData.currentPrice quote
           - Purchase.totalCost p
  | None => 0
  end.

Definition valueAtYearStart_in (symbol : string) (p : Purchase.t R) : R :=
  match priceData !! symbol with
  | Some quote =>
      if dated_before_year_start rt p
      then Purchase.shares p * spec_ytdStartPrice quote else 0
  | None => 0
  end.

Definition newInvestments_in (symbol : string) (p : Purchase.t R) : R :=
  match priceData !! symbol with
  | Some quote =>
      if dated_before_year_start rt p then 0 else Purchase.totalCost p
  | None => 0
  end.

Definition value_in (symbol : string) (p : Purchase.t R) : R :=
  match priceData !! symbol with
  | Some quote => Purchase.shares p * ETFPriceData.currentPrice quote
  | None => 0
  end.

End grouped_contributions.

(** Descending order of a key, and a group that starts with a purchase of
    its own symbol. *)
Definition descending {A} (key : A → R) (a b : A) : Prop := (key a >= key b)%R.

Definition headed (entry : string * list (Purchase.t R)) : Prop :=
  ∃ p ps, entry.2 = p :: ps ∧ Purchase.etfSymbol p = entry.1.

(** The time to live as the specification words it: decided on the
    America/New_York clock alone. *)
Definition spec_TTL (rt : Runtime) : Z :=
  let eastern := easternTime rt (Date_now rt) in
  let day := getDay eastern in
  let minutes := getHours eastern * 60 + getMinutes eastern in
  if (day =? 0) || (day =? 6) then 60 * msPerMinute
  else if (9 * 60 + 30 <=? minutes) && (minutes <? 16 * 60)
       then 5 * msPerMinute
       else 30 * msPerMinute.

(** "An entry written during market hours is stale six minutes later." *)
Definition stale_six_minutes_after_market_write : Prop :=
  ∀ (rt rt' : Runtime) (symbol : string) (data : ETFPriceData.t R)
    (store : LocalStorage.t (gmap string (ETFCacheEntry.t R))),
    LocalStorage.available store = true →
    isMarketOpen rt = true →
    Date_now rt' = Date_now rt + 6 * msPerMinute →
    easternTime rt' = easternTime rt →
    localTime rt' = localTime rt →
    getCachedPrice rt' symbol (updatePriceCache rt symbol data store)
    = Some (ETFPriceData.currentPrice data, true).

(** Import validation.  A field is a non-empty string, or a positive
    number; a value that is not an object has no fields. *)
Definition nonempty_string (v : option json) : Prop :=
  ∃ s, v = Some (JStr s) ∧ s ≠ "".

Definition positive_number (v : option json) : Prop :=
  ∃ q, v = Some (JNum q) ∧ (0 < q)%Q.

Definition is_list (v : option json) : Prop :=
  ∃ items, v = Some (JArr items).

Definition invalid_purchase (p : json) : Prop :=
  ¬ nonempty_string (field p "id")
  ∨ ¬ nonempty_string (field p "etfSymbol")
  ∨ ¬ positive_number (field p "shares")
  ∨ ¬ positive_number (field p "pricePerShare").

Definition invalid_document (data : json) : Prop :=
  ¬ nonempty_string (field data "id")
  ∨ ¬ nonempty_string (field data "name")
  ∨ ¬ is_list (field data "purchases")
  ∨ ∃ items, field data "purchases" = Some (JArr items)
             ∧ Exists invalid_purchase items.

(** The same, in the words of the specification: a field is missing when
    the document does not have it. *)
Definition missing (v : option json) : Prop := v = None.

Definition missing_or_not_a_string (v : option json) : Prop :=
  ∀ s, v ≠ Some (JStr s).

Definition spec_invalid_purchase (p : json) : Prop :=
  missing (field p "id")
  ∨ missing (field p "etfSymbol")
  ∨ ¬ positive_number (field p "shares")
  ∨ ¬ positive_number (field p "pricePerShare").

Definition spec_invalid_document (data : json) : Prop :=
  missing_or_not_a_string (field data "id")
  ∨ missing_or_not_a_string (field data "name")
  ∨ ¬ is_list (field data "purchases")
  ∨ ∃ items, field data "purchases" = Some (JArr items)
             ∧ Exists spec_invalid_purchase items.

Definition save_failure : exn :=
  Error "Failed to save portfolio to localStorage".

(** An error thrown by the checks, before anything is saved. *)
Definition raises_validation_error {A} (r : result A) : Prop :=
  ∃ e, r = Throw e ∧ e ≠ save_failure.

(* ===================================================================== *)
(** ** Example data *)

(** A host at instant [now] whose local and New York clocks run at fixed
    offsets from UTC, reading [YYYY-MM-DD] dates as UTC midnights, which
    is how [new Date] reads the date-only form on every host. *)
Definition skip_char (s : string) : string :=
  match s with String _ s' => s' | EmptyString => EmptyString end.

Definition parse_iso_date (s : string) : Z :=
  let '(y, _, s) := read_digits s 0 0 in
  let '(m, _, s) := read_digits (skip_char s) 0 0 in
  let '(d, _, _) := read_digits (skip_char s) 0 0 in
  days_from_civil y m d * msPerDay.

Definition host (now localOffset easternOffset : Z) : Runtime :=
  {| Date_now := now;
     Date_parse := parse_iso_date;
     localTime := λ t, t + localOffset;
     localInstant := λ c, c - localOffset;
     easternTime := λ t, t + easternOffset;
     Date_toISOString := λ _, "2024-01-10T15:00:00.000Z";
     generateId := "generated-id" |}.

(** Wednesday 2024-01-10, 15:58 in New York (UTC-5), on a New York host. *)
Definition wednesday_1558 : Runtime :=
  host 1704920280000 (-5 * msPerHour) (-5 * msPerHour).

(** Saturday 2024-01-13, 08:00 in Tokyo (UTC+9): Friday 18:00 in New York. *)
Definition tokyo_saturday_morning : Runtime :=
  host 1705100400000 (9 * msPerHour) (-5 * msPerHour).

Definition later (ms : Z) (rt : Runtime) : Runtime :=
  {| Date_now := Date_now rt + ms;
     Date_parse := Date_parse rt;
     localTime := localTime rt;
     localInstant := localInstant rt;
     easternTime := easternTime rt;
     Date_toISOString := Date_toISOString rt;
     generateId := generateId rt |}.

Definition voo_quote : ETFPriceData.t R :=
  {| ETFPriceData.symbol := "VOO";
     ETFPriceData.currentPrice := 105%R;
     ETFPriceData.previousClose := 104%R;
     ETFPriceData.change := 1%R;
     ETFPriceData.changePercent := 1%R;
     ETFPriceData.high52Week := 110%R;
     ETFPriceData.low52Week := 90%R;
     ETFPriceData.ytdChange := 5%R |}.

Definition example_prices : gmap string (ETFPriceData.t R) :=
  {["VOO" := voo_quote]}.

(** Ten shares of VOO bought last year, two shares of QQQ (which has no
    quote), five shares of VOO bought this year. *)
Definition voo_last_year : Purchase.t R :=
  {| Purchase.id := "p1";
     Purchase.etfSymbol := "VOO";
     Purchase.purchaseDate := "2023-06-15";
     Purchase.shares := 10%R;
     Purchase.pricePerShare := 95%R;
     Purchase.totalCost := 950%R;
     Purchase.fees := 0%R;
     Purchase.notes := None;
     Purchase.createdAt := 1686787200000;
     Purchase.updatedAt := 1686787200000 |}.

Definition qqq_unquoted : Purchase.t R :=
  {| Purchase.id := "p2";
     Purchase.etfSymbol := "QQQ";
     Purchase.purchaseDate := "2023-09-01";
     Purchase.shares := 2%R;
     Purchase.pricePerShare := 150%R;
     Purchase.totalCost := 300%R;
     Purchase.fees := 0%R;
     Purchase.notes := None;
     Purchase.createdAt := 1693526400000;
     Purchase.updatedAt := 1693526400000 |}.

Definition voo_this_year : Purchase.t R :=
  {| Purchase.id := "p3";
     Purchase.etfSymbol := "VOO";
     Purchase.purchaseDate := "2024-01-05";
     Purchase.shares := 5%R;
     Purchase.pricePerShare := 100%R;
     Purchase.totalCost := 500%R;
     Purchase.fees := 0%R;
     Purchase.notes := None;
     Purchase.createdAt := 1704412800000;
     Purchase.updatedAt := 1704412800000 |}.

(** One share of VOO dated New Year's Day, and one dated a week later;
    both bought at 75. *)
Definition voo_new_year_day : Purchase.t R :=
  {| Purchase.id := "p4";
     Purchase.etfSymbol := "VOO";
     Purchase.purchaseDate := "2024-01-01";
     Purchase.shares := 1%R;
     Purchase.pricePerShare := 75%R;
     Purchase.totalCost := 75%R;
     Purchase.fees := 0%R;
     Purchase.notes := None;
     Purchase.createdAt := 1704110400000;
     Purchase.updatedAt := 1704110400000 |}.

Definition voo_january : Purchase.t R :=
  {| Purchase.id := "p5";
     Purchase.etfSymbol := "VOO";
     Purchase.purchaseDate := "2024-01-08";
     Purchase.shares := 1%R;
     Purchase.pricePerShare := 75%R;
     Purchase.totalCost := 75%R;
     Purchase.fees := 0%R;
     Purchase.notes := None;
     Purchase.createdAt := 1704722400000;
     Purchase.updatedAt := 1704722400000 |}.

Definition portfolio_of (purchases : list (Purchase.t R)) : Portfolio.t R :=
  {| Portfolio.id := "portfolio";
     Portfolio.name := "My Portfolio";
     Portfolio.purchases := purchases;
     Portfolio.etfCache := ∅;
     Portfolio.createdAt := 1686787200000;
     Portfolio.updatedAt := 1704412800000;
     Portfolio.version := CURRENT_SCHEMA_VERSION |}.

Definition example_portfolio : Portfolio.t R :=
  portfolio_of [voo_last_year; qqq_unquoted; voo_this_year].

Definition empty_cache_store
    : LocalStorage.t (gmap string (ETFCacheEntry.t R)) :=
  LocalStorage.mk true None.

(** Import documents: a purchase whose id is a number, a portfolio whose
    id is the empty string, and a document without any time stamp. *)
Definition purchase_with_numeric_id : json :=
  JObj [("id", JNum 7); ("etfSymbol", JStr "VOO");
        ("shares", JNum 10); ("pricePerShare", JNum 400)].

Definition document_with_numeric_purchase_id : json :=
  JObj [("id", JStr "portfolio"); ("name", JStr "Imported");
        ("purchases", JArr [purchase_with_numeric_id])].

Definition document_with_empty_id : json :=
  JObj [("id", JStr ""); ("name", JStr "Imported"); ("purchases", JArr [])].

Definition purchase_without_timestamps : json :=
  JObj [("id", JStr "p1"); ("etfSymbol", JStr "VOO");
        ("shares", JNum 10); ("pricePerShare", JNum 400)].

Definition document_without_timestamps : json :=
  JObj [("id", JStr "portfolio"); ("name", JStr "Imported");
        ("purchases", JArr [purchase_without_timestamps])].

(** A stored purchase, and the edit form with its fees field cleared. *)
Definition edited_purchase : Purchase.t number :=
  {| Purchase.id := "p1";
     Purchase.etfSymbol := "VOO";
     Purchase.purchaseDate := "2024-01-15";
     Purchase.shares := Fin 10;
     Purchase.pricePerShare := Fin 400;
     Purchase.totalCost := Fin 4010;
     Purchase.fees := Fin 10;
     Purchase.notes := None;
     Purchase.createdAt := 1705312800000;
     Purchase.updatedAt := 1705312800000 |}.

Definition edited_portfolio : Portfolio.t number :=
  {| Portfolio.id := "portfolio";
     Portfolio.name := "My Portfolio";
     Portfolio.purchases := [edited_purchase];
     Portfolio.etfCache := ∅;
     Portfolio.createdAt := 1705312800000;
     Portfolio.updatedAt := 1705312800000;
     Portfolio.version := CURRENT_SCHEMA_VERSION |}.

Definition cleared_fees_form : PartialPurchaseFormData.t :=
  {| PartialPurchaseFormData.etfSymbol := Some "VOO";
     PartialPurchaseFormData.purchaseDate := Some "2024-01-15";
     PartialPurchaseFormData.shares := Some "10";
     PartialPurchaseFormData.pricePerShare := Some "400";
     PartialPurchaseFormData.fees := Some "";
     PartialPurchaseFormData.notes := Some "" |}.

(* ===================================================================== *)
(** ** The rest of the price cache service

    [Object.keys(cache)] lists every cached symbol once; the loops over it
    are folds over the entries of the map, whose results do not depend on
    the order of the keys. *)

Definition safeRemoveItem {A} (store : LocalStorage.t A)
    : bool * LocalStorage.t A :=
  if LocalStorage.available store
  then (true, LocalStorage.mk true None)
  else (false, store).

Module CacheStats.
Record t := mk {
  totalEntries : Z;
  staleEntries : Z;
  freshEntries : Z;
  symbols : list string;
}.
End CacheStats.

Section price_cache_maintenance.
Context {num : Type} `{!Arith num}.
Local Open Scope num_scope.

Definition getCacheEntry (symbol : string)
    (store : LocalStorage.t (gmap string (ETFCacheEntry.t num)))
    : option (ETFCacheEntry.t num) :=
  let normalizedSymbol := normalizeSymbol symbol in
  let cache := getPriceCache store in
  cache !! normalizedSymbol.

Definition removeCacheEntry (symbol : string)
    (store : LocalStorage.t (gmap string (ETFCacheEntry.t num)))
    : LocalStorage.t (gmap string (ETFCacheEntry.t num)) :=
  let normalizedSymbol := normalizeSymbol symbol in
  let cache := getPriceCache store in
  match cache !! normalizedSymbol with
  | Some _ => savePriceCache (delete normalizedSymbol cache) store
  | None => store
  end.

Definition clearPriceCache
    (store : LocalStorage.t (gmap string (ETFCacheEntry.t num)))
    : LocalStorage.t (gmap string (ETFCacheEntry.t num)) :=
  snd (safeRemoveItem store).

Definition getCacheStats (rt : Runtime)
    (store : LocalStorage.t (gmap string (ETFCacheEntry.t num)))
    : CacheStats.t :=
  let cache := getPriceCache store in
  let symbols := (map_to_list cache).*1 in
  let ttl := getCurrentCacheTTL rt in
  let now := Date_now rt in
  let '(staleCount, freshCount) :=
    map_fold
      (λ symbol entry '(staleCount, freshCount),
         let lastUpdated := ETFCacheEntry.lastUpdated entry in
         let age := (now - lastUpdated)%Z in
         if (ttl <? age)%Z then ((staleCount + 1)%Z, freshCount)
         else (staleCount, (freshCount + 1)%Z))
      (0%Z, 0%Z) cache in
  {| CacheStats.totalEntries := Z.of_nat (length symbols);
     CacheStats.staleEntries := staleCount;
     CacheStats.freshEntries := freshCount;
     CacheStats.symbols := symbols |}.

Definition bulkUpdatePriceCache (rt : Runtime)
    (priceData : list (ETFPriceData.t num))
    (store : LocalStorage.t (gmap string (ETFCacheEntry.t num)))
    : LocalStorage.t (gmap string (ETFCacheEntry.t num)) :=
  let cache := getPriceCache store in
  let now := Date_now rt in
  let cache :=
    fold_left
      (λ cache data,
         let normalizedSymbol := normalizeSymbol (ETFPriceData.symbol data) in
         let cacheEntry :=
           {| ETFCacheEntry.etf :=
                {| ETF.symbol := normalizedSymbol; ETF.name := "";
                   ETF.exchange := None; ETF.currency := "USD" |};
              ETFCacheEntry.currentPrice := ETFPriceData.currentPrice data;
              ETFCacheEntry.previousClose := ETFPriceData.previousClose data;
              ETFCacheEntry.lastUpdated := now;
              ETFCacheEntry.ytdStartPrice :=
                ETFPriceData.currentPrice data
                / (of_Z 1 + ETFPriceData.ytdChange data / of_Z 100) |} in
         <[normalizedSymbol := cacheEntry]> cache)
      priceData cache in
  savePriceCache cache store.

(** [maxAge] defaults to 24 hours. *)
Definition pruneStaleCache (rt : Runtime) (maxAge : Z)
    (store : LocalStorage.t (gmap string (ETFCacheEntry.t num)))
    : Z * LocalStorage.t (gmap string (ETFCacheEntry.t num)) :=
  let cache := getPriceCache store in
  let now := Date_now rt in
  let '(cache', removedCount) :=
    map_fold
      (λ symbol entry '(cache, removedCount),
         let lastUpdated := ETFCacheEntry.lastUpdated entry in
         let age := (now - lastUpdated)%Z in
         if (maxAge <? age)%Z
         then (delete symbol cache, (removedCount + 1)%Z)
         else (cache, removedCount))
      (cache, 0%Z) cache in
  (removedCount,
   if (0 <? removedCount)%Z then savePriceCache cache' store else store).

Definition pruneStaleCache_default_maxAge : Z := 24 * 60 * 60 * 1000.

End price_cache_maintenance.

(* ===================================================================== *)
(** ** The rest of the portfolio service *)

(** [getPortfolio]: what is stored, unless it has no id.  A stored
    portfolio always has a list of purchases. *)
Definition getPortfolio {num}
    (store : LocalStorage.t (Portfolio.t num)) : option (Portfolio.t num) :=
  match safeGetItem store with
  | None => None
  | Some portfolio =>
      if decide (Portfolio.id portfolio = "") then None else Some portfolio
  end.

Definition initializePortfolio (rt : Runtime)
    (store : LocalStorage.t (Portfolio.t number)) (name : string)
    : result (Portfolio.t number * LocalStorage.t (Portfolio.t number)) :=
  let now := Date_now rt in
  let portfolio :=
    {| Portfolio.id := generateId rt;
       Portfolio.name := name;
       Portfolio.purchases := [];
       Portfolio.etfCache := ∅;
       Portfolio.createdAt := now;
       Portfolio.updatedAt := now;
       Portfolio.version := CURRENT_SCHEMA_VERSION |} in
  store' ← savePortfolio rt store portfolio;
  Ok (portfolio, store').

Definition deletePurchase (rt : Runtime)
    (store : LocalStorage.t (Portfolio.t number))
    (portfolio : Portfolio.t number) (id : string)
    : result (Portfolio.t number * LocalStorage.t (Portfolio.t number)) :=
  match list_find (λ p, Purchase.id p = id) (Portfolio.purchases portfolio) with
  | None => Throw (Error ("Purchase with ID " +:+ id +:+ " not found"))
  | Some _ =>
      let updatedPortfolio :=
        with_purchases portfolio
          (filter (λ p, Purchase.id p ≠ id) (Portfolio.purchases portfolio))
          (Date_now rt) in
      store' ← savePortfolio rt store updatedPortfolio;
      Ok (updatedPortfolio, store')
  end.

Definition getPurchasesByETF {num} (portfolio : Portfolio.t num)
    (symbol : string) : list (Purchase.t num) :=
  let normalizedSymbol := normalizeSymbol symbol in
  filter (λ p, Purchase.etfSymbol p = normalizedSymbol)
         (Portfolio.purchases portfolio).

(** [exportPortfolio], on the portfolio as the document it is stored as:
    [{...portfolio, exportedAt: now, version: CURRENT_SCHEMA_VERSION}].
    The result is the document that the exported text denotes. *)
Definition exportPortfolio (rt : Runtime) (portfolio : json) : json :=
  JObj (Map_set "version" (JNum (inject_Z CURRENT_SCHEMA_VERSION))
          (Map_set "exportedAt" (JStr (Date_toISOString rt (Date_now rt)))
             (spread portfolio))).

(* ===================================================================== *)
(** ** Predicates and data of the further properties *)

(** A cache entry older than [maxAge] at the time of the runtime. *)
Definition older_than {num} (rt : Runtime) (maxAge : Z)
    (kv : string * ETFCacheEntry.t num) : Prop :=
  (maxAge < Date_now rt - ETFCacheEntry.lastUpdated kv.2)%Z.

#[global] Instance older_than_dec {num} rt maxAge
    (kv : string * ETFCacheEntry.t num) : Decision (older_than rt maxAge kv) :=
  Z_lt_dec _ _.

(** A string that does not begin with white space. *)
Definition starts_clean (s : string) : Prop :=
  match s with
  | EmptyString => True
  | String c _ => Ascii.is_space c = false
  end.

(** The keys of a cache are normalized symbols. *)
Definition keys_normalized {V} (cache : gmap string V) : Prop :=
  ∀ symbol, is_Some (cache !! symbol) → normalizeSymbol symbol = symbol.

(** The add form as typed: a lower-case symbol with blanks around it, no
    fees. *)
Definition qqq_form : PurchaseFormData.t :=
  {| PurchaseFormData.etfSymbol := " qqq ";
     PurchaseFormData.purchaseDate := "2024-01-08";
     PurchaseFormData.shares := "3";
     PurchaseFormData.pricePerShare := "400";
     PurchaseFormData.fees := "";
     PurchaseFormData.notes := "" |}.

(** A number literal that [JSON.parse] reads as a finite number, and as
    zero only when it is zero: of magnitude below [2^1024 - 2^970], the
    least that rounds to an infinity, and above [2^-1075], the greatest
    that rounds to zero. *)
Definition binary64_readable (q : Q) : bool :=
  Qeq_bool q 0
  || negb (Qle_bool (Qabs q) (1 # 2 ^ 1075))
     && negb (Qle_bool (inject_Z (2 ^ 1024 - 2 ^ 970)) (Qabs q)).

(** A document all of whose numbers are read so. *)
Fixpoint readable_numbers (v : json) : bool :=
  match v with
  | JNum q => binary64_readable q
  | JArr items => forallb readable_numbers items
  | JObj props => forallb (λ prop, readable_numbers prop.2) props
  | JNull | JBool _ | JStr _ => true
  end.

(* ===================================================================== *)
(** ** The metrics of [hooks/use-metrics.ts]

    The dashboard computes its figures with the hook's own copies of the
    calculations, on purchases regrouped under their normalized symbol.
    [isFinite] is part of the reading of numbers: every real is finite.
    [UseMetrics.calculateAnnualizedReturn] is the function given above on
    [number], written for every reading. *)

Class Finite (num : Type) := Number_isFinite : num → bool.

#[global] Instance R_finite : Finite R := λ _, true.
#[global] Instance number_finite : Finite number := isFinite.

(** The objects the hook groups: [{id, etfSymbol: symbol, purchaseDate,
    shares, totalCost}]. *)
Module GroupedPurchase.
Record t {num : Type} := mk {
  id : string;
  etfSymbol : string;
  purchaseDate : string;
  shares : num;
  totalCost : num;
}.
Arguments t : clear implicits.
End GroupedPurchase.

Module UseMetrics.
Section use_metrics.
Context {num : Type} `{!Arith num} `{!Finite num}.
Local Open Scope num_scope.

Definition calculateAnnualizedReturn (costBasis currentValue days : num) : num :=
  if (costBasis <=? of_Z 0) || (days <=? of_Z 0) then of_Z 0
  else
    let years := days / of_Z 365 in
    let totalReturn := currentValue / costBasis in
    let cagr := (Math_pow totalReturn (of_Z 1 / years) - of_Z 1) * of_Z 100 in
    if Number_isFinite cagr then cagr else of_Z 0.

Definition calculatePurchaseMetrics (rt : Runtime)
    (purchase : GroupedPurchase.t num) (currentPrice : num)
    : PurchaseMetrics.t num :=
  let costBasis := GroupedPurchase.totalCost purchase in
  let currentValue := GroupedPurchase.shares purchase * currentPrice in
  let gainLoss := currentValue - costBasis in
  let gainLossPercent :=
    if costBasis >? of_Z 0 then (gainLoss / costBasis) * of_Z 100
    else of_Z 0 in
  let purchaseDate := Date_parse rt (GroupedPurchase.purchaseDate purchase) in
  let today := Date_now rt in
  let holdingPeriodDays := of_Z (getDaysBetween purchaseDate today) in
  let annualizedReturn :=
    calculateAnnualizedReturn costBasis currentValue holdingPeriodDays in
  {| PurchaseMetrics.purchaseId := GroupedPurchase.id purchase;
     PurchaseMetrics.etfSymbol := GroupedPurchase.etfSymbol purchase;
     PurchaseMetrics.shares := GroupedPurchase.shares purchase;
     PurchaseMetrics.costBasis := costBasis;
     PurchaseMetrics.currentValue := currentValue;
     PurchaseMetrics.gainLoss := gainLoss;
     PurchaseMetrics.gainLossPercent := gainLossPercent;
     PurchaseMetrics.holdingPeriodDays := holdingPeriodDays;
     PurchaseMetrics.annualizedReturn := annualizedReturn |}.

Definition calculateETFHoldingMetrics (rt : Runtime)
    (etfSymbol etfName : string) (purchases : list (GroupedPurchase.t num))
    (currentPrice totalPortfolioValue : num) : ETFHoldingMetrics.t num :=
  let purchaseMetrics :=
    map (λ p, calculatePurchaseMetrics rt p currentPrice) purchases in
  let totalShares := reduce_sum GroupedPurchase.shares purchases in
  let totalCostBasis := reduce_sum GroupedPurchase.totalCost purchases in
  let currentValue := totalShares * currentPrice in
  let totalGainLoss := currentValue - totalCostBasis in
  let totalGainLossPercent :=
    if totalCostBasis >? of_Z 0
    then (totalGainLoss / totalCostBasis) * of_Z 100 else of_Z 0 in
  let averageCostPerShare :=
    if totalShares >? of_Z 0 then totalCostBasis / totalShares else of_Z 0 in
  let weightInPortfolio :=
    if totalPortfolioValue >? of_Z 0
    then (currentValue / totalPortfolioValue) * of_Z 100 else of_Z 0 in
  {| ETFHoldingMetrics.etfSymbol := etfSymbol;
     ETFHoldingMetrics.etfName := etfName;
     ETFHoldingMetrics.totalShares := totalShares;
     ETFHoldingMetrics.averageCostPerShare := averageCostPerShare;
     ETFHoldingMetrics.totalCostBasis := totalCostBasis;
     ETFHoldingMetrics.currentPrice := currentPrice;
     ETFHoldingMetrics.currentValue := currentValue;
     ETFHoldingMetrics.totalGainLoss := totalGainLoss;
     ETFHoldingMetrics.totalGainLossPercent := totalGainLossPercent;
     ETFHoldingMetrics.weightInPortfolio := weightInPortfolio;
     ETFHoldingMetrics.purchases := purchaseMetrics |}.

(** The first loop: the purchases under their normalized symbol. *)
Definition purchasesByETF_of (purchases : list (Purchase.t num))
    : list (string * list (GroupedPurchase.t num)) :=
  fold_left
    (λ purchasesByETF purchase,
       let symbol := normalizeSymbol (Purchase.etfSymbol purchase) in
       let existing := default [] (Map_get symbol purchasesByETF) in
       Map_set symbol
         (existing ++
          [{| GroupedPurchase.id := Purchase.id purchase;
              GroupedPurchase.etfSymbol := symbol;
              GroupedPurchase.purchaseDate := Purchase.purchaseDate purchase;
              GroupedPurchase.shares := Purchase.shares purchase;
              GroupedPurchase.totalCost := Purchase.totalCost purchase |}])
         purchasesByETF)
    purchases [].

(** [priceData?.currentPrice || 0] *)
Definition currentPrice_or_zero (priceData : option (ETFPriceData.t num))
    : num :=
  match priceData with
  | Some data => ETFPriceData.currentPrice data ||| of_Z 0
  | None => of_Z 0
  end.

(** The second loop: [(totalCurrentValue, totalInvested)]. *)
Definition totals_of (prices : gmap string (ETFPriceData.t num))
    (purchasesByETF : list (string * list (GroupedPurchase.t num)))
    : num * num :=
  fold_left
    (λ '(totalCurrentValue, totalInvested) '(symbol, purchases),
       let priceData := prices !! symbol in
       let currentPrice := currentPrice_or_zero priceData in
       let shares := reduce_sum GroupedPurchase.shares purchases in
       let cost := reduce_sum GroupedPurchase.totalCost purchases in
       (totalCurrentValue + shares * currentPrice, totalInvested + cost))
    purchasesByETF (of_Z 0, of_Z 0).

(** The third loop: one holding for every group. *)
Definition holdings_of (rt : Runtime)
    (etfCache : gmap string (ETFCacheEntry.t num))
    (prices : gmap string (ETFPriceData.t num)) (totalCurrentValue : num)
    (purchasesByETF : list (string * list (GroupedPurchase.t num)))
    : list (ETFHoldingMetrics.t num) :=
  fold_left
    (λ holdings '(symbol, purchases),
       let priceData := prices !! symbol in
       let currentPrice := currentPrice_or_zero priceData in
       let etfName := etfName_of etfCache symbol in
       let holdingMetrics :=
         calculateETFHoldingMetrics rt symbol etfName purchases currentPrice
           totalCurrentValue in
       holdings ++ [holdingMetrics])
    purchasesByETF [].

(** The fourth loop: the value of the holdings at the start of the year,
    estimated from the year-to-date change of each quote. *)
Definition ytdStartValue_of (prices : gmap string (ETFPriceData.t num))
    (purchasesByETF : list (string * list (GroupedPurchase.t num))) : num :=
  fold_left
    (λ ytdStartValue '(symbol, purchases),
       match prices !! symbol with
       | None => ytdStartValue
       | Some priceData =>
           if ETFPriceData.currentPrice priceData <=? of_Z 0
           then ytdStartValue else
           let shares := reduce_sum GroupedPurchase.shares purchases in
           let ytdChangeDecimal :=
             (ETFPriceData.ytdChange priceData ||| of_Z 0) / of_Z 100 in
           let divisor := of_Z 1 + ytdChangeDecimal in
           let estimatedStartPrice :=
             if (divisor >? of_Z 0) && Number_isFinite divisor
             then ETFPriceData.currentPrice priceData / divisor
             else ETFPriceData.currentPrice priceData in
           if Number_isFinite estimatedStartPrice
           then ytdStartValue + shares * estimatedStartPrice
           else ytdStartValue
       end)
    purchasesByETF (of_Z 0).

Definition useMetrics (rt : Runtime) (portfolio : option (Portfolio.t num))
    (prices : gmap string (ETFPriceData.t num))
    : option (PortfolioMetrics.t num) :=
  match portfolio with
  | None => None
  | Some portfolio =>
      if (length (Portfolio.purchases portfolio) =? 0)%nat then None else
      let purchasesByETF := purchasesByETF_of (Portfolio.purchases portfolio) in
      let '(totalCurrentValue, totalInvested) :=
        totals_of prices purchasesByETF in
      let holdings :=
        Array_sort holdings_compare
          (holdings_of rt (Portfolio.etfCache portfolio) prices
             totalCurrentValue purchasesByETF) in
      let totalGainLoss := totalCurrentValue - totalInvested in
      let totalGainLossPercent :=
        if totalInvested >? of_Z 0
        then (totalGainLoss / totalInvested) * of_Z 100 else of_Z 0 in
      let ytdStartValue := ytdStartValue_of prices purchasesByETF in
      let ytdGainLoss := totalCurrentValue - ytdStartValue in
      let ytdGainLossPercent :=
        if (ytdStartValue >? of_Z 0) && Number_isFinite ytdStartValue
        then (ytdGainLoss / ytdStartValue) * of_Z 100 else of_Z 0 in
      Some {| PortfolioMetrics.totalInvested := totalInvested;
              PortfolioMetrics.currentValue := totalCurrentValue;
              PortfolioMetrics.totalGainLoss := totalGainLoss;
              PortfolioMetrics.totalGainLossPercent := totalGainLossPercent;
              PortfolioMetrics.ytdGainLoss := ytdGainLoss;
              PortfolioMetrics.ytdGainLossPercent := ytdGainLossPercent;
              PortfolioMetrics.holdings := holdings;
              PortfolioMetrics.lastUpdated := Date_now rt |}
  end.

End use_metrics.
End UseMetrics.

(** The total of a per-purchase quantity over a grouped map. *)
Definition grouped_sum {B} (h : string → B → R)
    (m : list (string * list B)) : R :=
  sum_of (λ entry, sum_of (h entry.1) entry.2) m.

(** The value of a purchase at the start of the year, at the start price
    of its quote: [shares * ytdStartPrice]. *)
Definition start_value (prices : gmap string (ETFPriceData.t R))
    (p : Purchase.t R) : R :=
  match prices !! Purchase.etfSymbol p with
  | Some quote => (Purchase.shares p * spec_ytdStartPrice quote)%R
  | None => 0%R
  end.

(* ===================================================================== *)
(** ** The results loop of [fetchPrices] ([hooks/use-prices.ts])

    [fetchPrices] asks the API for every symbol and waits for all the
    answers; [results] holds one answer per symbol, [None] for a fetch
    that failed.  The loop over the answers fills the map of prices,
    counts the failures and feeds the cache; the React state around it is
    not modelled. *)

Section fetch_prices.
Context {num : Type} `{!Arith num}.
Local Open Scope num_scope.

(** The quote made up from a cached price. *)
Definition cached_quote (symbol : string) (price : num) : ETFPriceData.t num :=
  {| ETFPriceData.symbol := symbol;
     ETFPriceData.currentPrice := price;
     ETFPriceData.previousClose := of_Z 0;
     ETFPriceData.change := of_Z 0;
     ETFPriceData.changePercent := of_Z 0;
     ETFPriceData.high52Week := of_Z 0;
     ETFPriceData.low52Week := of_Z 0;
     ETFPriceData.ytdChange := of_Z 0 |}.

(** The body of the loop, on [(newPrices, failedCount)] and the cache. *)
Definition fetchPrices_step (rt : Runtime)
    (state : list (string * ETFPriceData.t num) * Z
             * LocalStorage.t (gmap string (ETFCacheEntry.t num)))
    (answer : string * option (ETFPriceData.t num))
    : list (string * ETFPriceData.t num) * Z
      * LocalStorage.t (gmap string (ETFCacheEntry.t num)) :=
  let '(newPrices, failedCount, store) := state in
  let '(symbol, result) := answer in
  match result with
  | Some data =>
      (Map_set symbol data newPrices, failedCount,
       updatePriceCache rt symbol data store)
  | None =>
      let failedCount := (failedCount + 1)%Z in
      match getCachedPrice rt symbol store with
      | Some (price, _) =>
          (Map_set symbol (cached_quote symbol price) newPrices,
           failedCount, store)
      | None => (newPrices, failedCount, store)
      end
  end.

Definition fetchPrices_results (rt : Runtime)
    (symbolsToProcess : list string)
    (results : list (option (ETFPriceData.t num)))
    (store : LocalStorage.t (gmap string (ETFCacheEntry.t num)))
    : list (string * ETFPriceData.t num) * Z
      * LocalStorage.t (gmap string (ETFCacheEntry.t num)) :=
  fold_left (fetchPrices_step rt) (zip symbolsToProcess results)
            ([], 0%Z, store).

(** The error shown after the loop; [None] is [null]. *)
Definition fetchPrices_error (failedCount : Z) (symbolsToProcess : list string)
    : option string :=
  let total := Z.of_nat (length symbolsToProcess) in
  if ((0 <? failedCount) && (failedCount =? total))%Z
  then Some "Failed to fetch price data. Please try again later."
  else if (0 <? failedCount)%Z
  then Some ("Failed to fetch " +:+ pretty failedCount +:+ " of "
             +:+ pretty total +:+ " prices.")
  else None.

End fetch_prices.

(* ===================================================================== *)
(** * Properties *)

(** ** Annualized return, in exact arithmetic *)

Section annualized_return.
Local Open Scope R_scope.

(** C2. With positive start value, holding period and end value the
    annualized return is the CAGR [((end/start)^(365/days) - 1) * 100];
    a non-positive start value or period gives 0; a non-positive end
    value (with the other two positive) gives -100, whatever its size. *)
Theorem calculateAnnualizedReturn_spec (startValue endValue days : R) :
  (0 < startValue → 0 < days → 0 < endValue →
     calculateAnnualizedReturn startValue endValue days
     = (Rpower (endValue / startValue) (365 / days) - 1) * 100)
  ∧ (startValue <= 0 ∨ days <= 0 →
     calculateAnnualizedReturn startValue endValue days = 0)
  ∧ (0 < startValue → 0 < days → endValue <= 0 →
     calculateAnnualizedReturn startValue endValue days = -100).
Proof.
  unfold calculateAnnualizedReturn; cbn.
  repeat split.
  - intros Hs Hd He.
    rewrite !bool_decide_eq_false_2 by lra; cbn.
    replace (1 / (days / 365)) with (365 / days) by (field; lra).
    reflexivity.
  - intros [Hs|Hd].
    + rewrite (bool_decide_eq_true_2 (startValue <= 0)) by lra. reflexivity.
    + rewrite (bool_decide_eq_true_2 (days <= 0)) by lra.
      rewrite orb_true_r. reflexivity.
  - intros Hs Hd He.
    rewrite (bool_decide_eq_false_2 (startValue <= 0)) by lra.
    rewrite (bool_decide_eq_false_2 (days <= 0)) by lra.
    rewrite (bool_decide_eq_true_2 (endValue <= 0)) by lra. reflexivity.
Qed.

(** 1000 grown to 1200 over 365 days is 20% a year; a holding period of
    zero days gives 0; an end value of -5 gives -100. *)
Lemma calculateAnnualizedReturn_spec_witness :
  calculateAnnualizedReturn 1000 1200 365 = 20
  ∧ calculateAnnualizedReturn 1000 1200 0 = 0
  ∧ calculateAnnualizedReturn 1000 (-5) 365 = -100.
Proof.
  destruct (calculateAnnualizedReturn_spec 1000 1200 365) as (H1 & _ & _).
  destruct (calculateAnnualizedReturn_spec 1000 1200 0) as (_ & H2 & _).
  destruct (calculateAnnualizedReturn_spec 1000 (-5) 365) as (_ & _ & H3).
  split; [|split].
  - rewrite H1 by lra.
    replace (365 / 365) with 1 by lra.
    rewrite Rpower_1 by lra. lra.
  - apply H2. right. lra.
  - apply H3; lra.
Defined.

End annualized_return.

(** ** Sums over the grouped purchases *)


Section exact_sums.
Local Open Scope R_scope.

Lemma sum_of_app {A} (f : A → R) (xs ys : list A) :
  sum_of f (xs ++ ys) = sum_of f xs + sum_of f ys.
Proof. induction xs as [|x xs IH]; cbn; [lra | rewrite IH; lra]. Qed.

Lemma sum_of_scale {A} (f : A → R) (c : R) (xs : list A) :
  sum_of (λ x, f x * c) xs = sum_of f xs * c.
Proof. induction xs as [|x xs IH]; cbn; [lra | rewrite IH; lra]. Qed.

Lemma sum_of_minus {A} (f g : A → R) (xs : list A) :
  sum_of (λ x, f x - g x) xs = sum_of f xs - sum_of g xs.
Proof. induction xs as [|x xs IH]; cbn; [lra | rewrite IH; lra]. Qed.

Lemma sum_of_ext {A} (f g : A → R) (xs : list A) :
  (∀ x, f x = g x) → sum_of f xs = sum_of g xs.
Proof. intros E. induction xs as [|x xs IH]; cbn; [done | by rewrite E, IH]. Qed.

Lemma sum_of_map {A B} (g : A → B) (f : B → R) (xs : list A) :
  sum_of f (map g xs) = sum_of (λ x, f (g x)) xs.
Proof. induction xs as [|x xs IH]; cbn; [done | by rewrite IH]. Qed.

Lemma fold_left_add {A} (f : A → R) (xs : list A) (a : R) :
  fold_left (λ sum p, sum + f p) xs a = a + sum_of f xs.
Proof.
  revert a. induction xs as [|x xs IH]; intros a; cbn; [lra|].
  rewrite IH. lra.
Qed.

Lemma reduce_sum_sum_of {A} (f : A → R) (xs : list A) :
  reduce_sum f xs = sum_of f xs.
Proof. unfold reduce_sum. cbn. rewrite fold_left_add. lra. Qed.

Lemma group_total_Map_set h k p (m : list (string * list (Purchase.t R))) :
  group_total h (Map_set k (default [] (Map_get k m) ++ [p]) m)
  = group_total h m + h k p.
Proof.
  unfold group_total.
  induction m as [|[k' v'] m IH]; cbn.
  - lra.
  - destruct (decide (k' = k)) as [->|Hne]; cbn.
    + rewrite sum_of_app. cbn. lra.
    + rewrite IH. lra.
Qed.

Lemma groupBySymbol_total_from h (ps : list (Purchase.t R)) m :
  group_total h
    (fold_left
       (λ purchasesBySymbol purchase,
          Map_set (Purchase.etfSymbol purchase)
            (default [] (Map_get (Purchase.etfSymbol purchase) purchasesBySymbol)
             ++ [purchase]) purchasesBySymbol) ps m)
  = group_total h m + sum_of (λ p, h (Purchase.etfSymbol p) p) ps.
Proof.
  revert m. induction ps as [|p ps IH]; intros m; cbn [fold_left sum_of].
  - lra.
  - rewrite IH, group_total_Map_set. lra.
Qed.

Lemma groupBySymbol_total h (ps : list (Purchase.t R)) :
  group_total h (groupBySymbol ps)
  = sum_of (λ p, h (Purchase.etfSymbol p) p) ps.
Proof.
  unfold groupBySymbol. rewrite groupBySymbol_total_from.
  unfold group_total. cbn [sum_of]. lra.
Qed.


Ltac solve_triple :=
  repeat match goal with |- (_, _) = (_, _) => apply (f_equal2 pair) end; lra.

Lemma ytdStartPrice_of_spec (quote : ETFPriceData.t R) :
  ytdStartPrice_of quote = spec_ytdStartPrice quote.
Proof.
  unfold ytdStartPrice_of, spec_ytdStartPrice. cbn.
  case_bool_decide; destruct (decide _); done.
Qed.

Lemma ytd_purchase_step_eq rt priceData symbol quote (p : Purchase.t R)
    (a b c : R) :
  priceData !! symbol = Some quote →
  ytd_purchase_step rt (getYearStart rt)
    (ETFPriceData.currentPrice quote) (ytdStartPrice_of quote) (a, b, c) p
  = (a + gainLoss_in rt priceData symbol p,
     b + valueAtYearStart_in rt priceData symbol p,
     c + newInvestments_in rt priceData symbol p).
Proof.
  intros Hq.
  unfold ytd_purchase_step, gainLoss_in, valueAtYearStart_in, newInvestments_in.
  rewrite Hq, ytdStartPrice_of_spec. unfold dated_before_year_start.
  destruct (_ <? _)%Z; cbn; solve_triple.
Qed.

Lemma ytd_purchases_fold rt priceData symbol quote
    (ps : list (Purchase.t R)) (a b c : R) :
  priceData !! symbol = Some quote →
  fold_left
    (ytd_purchase_step rt (getYearStart rt)
       (ETFPriceData.currentPrice quote) (ytdStartPrice_of quote)) ps (a, b, c)
  = (a + sum_of (gainLoss_in rt priceData symbol) ps,
     b + sum_of (valueAtYearStart_in rt priceData symbol) ps,
     c + sum_of (newInvestments_in rt priceData symbol) ps).
Proof.
  intros Hq. revert a b c.
  induction ps as [|p ps IH]; intros a b c; cbn [fold_left sum_of].
  - solve_triple.
  - rewrite (ytd_purchase_step_eq _ _ _ _ _ _ _ _ Hq), IH.
    solve_triple.
Qed.

Lemma ytd_symbols_fold rt priceData
    (groups : list (string * list (Purchase.t R))) (a b c : R) :
  fold_left (ytd_symbol_step rt (getYearStart rt) priceData) groups (a, b, c)
  = (a + group_total (gainLoss_in rt priceData) groups,
     b + group_total (valueAtYearStart_in rt priceData) groups,
     c + group_total (newInvestments_in rt priceData) groups).
Proof.
  revert a b c. unfold group_total.
  induction groups as [|[symbol ps] groups IH]; intros a b c;
    cbn [fold_left sum_of fst snd].
  - solve_triple.
  - unfold ytd_symbol_step at 2.
    destruct (priceData !! symbol) as [quote|] eqn:Hq.
    + rewrite (ytd_purchases_fold _ _ _ _ _ _ _ _ Hq), IH.
      solve_triple.
    + rewrite IH.
      rewrite (sum_of_ext (gainLoss_in rt priceData symbol) (λ _, 0)),
              (sum_of_ext (valueAtYearStart_in rt priceData symbol) (λ _, 0)),
              (sum_of_ext (newInvestments_in rt priceData symbol) (λ _, 0)).
      2-4: intros p; unfold gainLoss_in, valueAtYearStart_in, newInvestments_in;
           by rewrite Hq.
      assert (Z0 : sum_of (λ _ : Purchase.t R, 0) ps = 0)
        by (clear; induction ps; cbn; lra).
      rewrite Z0. solve_triple.
Qed.

(** The calculator as sums over the purchases, each filed by the
    comparison of instants that the calculator makes: over the purchases
    whose symbol has a quote, one filed before the start of the year adds
    [shares * ytdStartPrice] to the value at year start and
    [shares * currentPrice - shares * ytdStartPrice] to the gain, any
    other adds [totalCost] to the new investments and
    [shares * currentPrice - totalCost] to the gain; purchases without a
    quote add nothing; the percentage is the gain over the sum of the two
    bases, times 100, and 0 when that sum is not positive.  Grouping the
    purchases by symbol does not change the sums. *)
Lemma calculateYTDPerformance_sums (rt : Runtime)
    (purchases : list (Purchase.t R))
    (priceData : gmap string (ETFPriceData.t R)) :
  calculateYTDPerformance rt purchases priceData
  = spec_YTDPerformance rt priceData purchases.
Proof.
  unfold calculateYTDPerformance, spec_YTDPerformance.
  rewrite ytd_symbols_fold, !groupBySymbol_total.
  change (sum_of (λ p, gainLoss_in rt priceData (Purchase.etfSymbol p) p))
    with (sum_of (spec_ytdGainLoss rt priceData)).
  change (sum_of (λ p, valueAtYearStart_in rt priceData (Purchase.etfSymbol p) p))
    with (sum_of (spec_valueAtYearStart rt priceData)).
  change (sum_of (λ p, newInvestments_in rt priceData (Purchase.etfSymbol p) p))
    with (sum_of (spec_newInvestmentsThisYear rt priceData)).
  cbn. rewrite !Rplus_0_l.
  f_equal. case_bool_decide; destruct (decide _); try lra; done.
Qed.

(** Where the comparison of instants files every purchase as the calendar
    does, the calculator is the algorithm of the specification. *)
Lemma calculateYTDPerformance_calendar (rt : Runtime)
    (purchases : list (Purchase.t R))
    (priceData : gmap string (ETFPriceData.t R)) :
  Forall (λ p, dated_before_year_start rt p
               = spec_dated_before_january_1 rt p) purchases →
  calculateYTDPerformance rt purchases priceData
  = spec_calendar_YTDPerformance rt priceData purchases.
Proof.
  intros Hagree. rewrite calculateYTDPerformance_sums.
  unfold spec_YTDPerformance, spec_calendar_YTDPerformance.
  assert (E : sum_of (spec_ytdGainLoss rt priceData) purchases
              = sum_of (spec_calendar_ytdGainLoss rt priceData) purchases
            ∧ sum_of (spec_valueAtYearStart rt priceData) purchases
              = sum_of (spec_calendar_valueAtYearStart rt priceData) purchases
            ∧ sum_of (spec_newInvestmentsThisYear rt priceData) purchases
              = sum_of (spec_calendar_newInvestmentsThisYear rt priceData)
                  purchases).
  { induction Hagree as [|p ps Hp _ (IH1 & IH2 & IH3)]; [done|].
    cbn [sum_of]. rewrite IH1, IH2, IH3.
    unfold spec_ytdGainLoss, spec_valueAtYearStart,
      spec_newInvestmentsThisYear, spec_calendar_ytdGainLoss,
      spec_calendar_valueAtYearStart, spec_calendar_newInvestmentsThisYear.
    by rewrite Hp. }
  destruct E as (-> & -> & ->). reflexivity.
Qed.


Lemma totalCurrentValue_of_fold priceData
    (groups : list (string * list (Purchase.t R))) (a : R) :
  fold_left
    (λ totalCurrentValue '(symbol, etfPurchases),
       match priceData !! symbol with
       | Some price =>
           totalCurrentValue
           + reduce_sum Purchase.shares etfPurchases
             * ETFPriceData.currentPrice price
       | None => totalCurrentValue
       end) groups a
  = a + group_total (value_in priceData) groups.
Proof.
  revert a. unfold group_total.
  induction groups as [|[symbol ps] groups IH]; intros a;
    cbn [fold_left sum_of fst snd].
  - lra.
  - rewrite IH. unfold value_in.
    destruct (priceData !! symbol) as [quote|].
    + rewrite reduce_sum_sum_of, sum_of_scale. lra.
    + assert (Z0 : sum_of (λ _ : Purchase.t R, 0) ps = 0)
        by (clear; induction ps; cbn; lra).
      rewrite Z0. lra.
Qed.

Lemma totalCurrentValue_of_sum priceData (purchases : list (Purchase.t R)) :
  totalCurrentValue_of priceData (groupBySymbol purchases)
  = sum_of (quoted_value priceData) purchases.
Proof.
  unfold totalCurrentValue_of. cbn [of_Z add mul R_arith].
  rewrite totalCurrentValue_of_fold, groupBySymbol_total.
  unfold quoted_value, value_in. lra.
Qed.

(** C4. [totalInvested] is the sum of [totalCost] over all purchases,
    quoted or not; [currentValue] is the sum of [shares * currentPrice]
    over the purchases whose symbol has a quote.  So a purchase without a
    quote adds its cost to the former and nothing to the latter. *)
Theorem calculatePortfolioMetrics_totals (rt : Runtime)
    (portfolio : Portfolio.t R) (priceData : gmap string (ETFPriceData.t R)) :
  let metrics := calculatePortfolioMetrics rt portfolio priceData in
  PortfolioMetrics.totalInvested metrics
    = sum_of Purchase.totalCost (Portfolio.purchases portfolio)
  ∧ PortfolioMetrics.currentValue metrics
    = sum_of (quoted_value priceData) (Portfolio.purchases portfolio)
  ∧ ∀ before p after,
      Portfolio.purchases portfolio = before ++ p :: after →
      priceData !! Purchase.etfSymbol p = None →
      PortfolioMetrics.totalInvested metrics
        = sum_of Purchase.totalCost (before ++ after) + Purchase.totalCost p
      ∧ PortfolioMetrics.currentValue metrics
        = sum_of (quoted_value priceData) (before ++ after).
Proof.
  assert (H :
    PortfolioMetrics.totalInvested
      (calculatePortfolioMetrics rt portfolio priceData)
      = sum_of Purchase.totalCost (Portfolio.purchases portfolio)
    ∧ PortfolioMetrics.currentValue
        (calculatePortfolioMetrics rt portfolio priceData)
      = sum_of (quoted_value priceData) (Portfolio.purchases portfolio)).
  { unfold calculatePortfolioMetrics.
    destruct (Portfolio.purchases portfolio) as [|p ps] eqn:E.
    - cbn. done.
    - cbn [length Nat.eqb PortfolioMetrics.totalInvested
           PortfolioMetrics.currentValue].
      by rewrite reduce_sum_sum_of, totalCurrentValue_of_sum. }
  destruct H as [HI HV]. cbv zeta. split; [done|]. split; [done|].
  intros before p after E Hq. rewrite HI, HV, E, !sum_of_app.
  cbn [sum_of].
  assert (quoted_value priceData p = 0) as ->
    by (unfold quoted_value; by rewrite Hq).
  split; lra.
Qed.

(** C10. A holding agrees with its own list of purchase metrics: its
    shares, current value, cost basis and gain are the sums of the
    corresponding fields of the list. *)
Theorem calculateETFHoldingMetrics_consistent (rt : Runtime)
    (purchases : list (Purchase.t R)) (etfName : string)
    (currentPrice totalPortfolioValue : R) :
  let holding :=
    calculateETFHoldingMetrics rt purchases etfName currentPrice
      totalPortfolioValue in
  ETFHoldingMetrics.totalShares holding
    = sum_of PurchaseMetrics.shares (ETFHoldingMetrics.purchases holding)
  ∧ ETFHoldingMetrics.currentValue holding
    = sum_of PurchaseMetrics.currentValue (ETFHoldingMetrics.purchases holding)
  ∧ ETFHoldingMetrics.totalCostBasis holding
    = sum_of PurchaseMetrics.costBasis (ETFHoldingMetrics.purchases holding)
  ∧ ETFHoldingMetrics.totalGainLoss holding
    = sum_of PurchaseMetrics.gainLoss (ETFHoldingMetrics.purchases holding).
Proof.
  cbv zeta. unfold calculateETFHoldingMetrics.
  destruct purchases as [|first rest]; [cbn; done|].
  set (ps := first :: rest).
  cbn [ETFHoldingMetrics.totalShares ETFHoldingMetrics.currentValue
       ETFHoldingMetrics.totalCostBasis ETFHoldingMetrics.totalGainLoss
       ETFHoldingMetrics.purchases].
  rewrite !sum_of_map, !reduce_sum_sum_of.
  cbn [calculatePurchaseMetrics PurchaseMetrics.shares
       PurchaseMetrics.currentValue PurchaseMetrics.costBasis
       PurchaseMetrics.gainLoss].
  unfold calculateGainLoss. cbn [sub mul R_arith].
  rewrite sum_of_minus, sum_of_scale. done.
Qed.

End exact_sums.

(** C9. A portfolio without purchases has all six figures equal to 0 and
    no holdings, whatever the quotes. *)
Theorem calculatePortfolioMetrics_empty {num} `{!Arith num} (rt : Runtime)
    (portfolio : Portfolio.t num)
    (priceData : gmap string (ETFPriceData.t num)) :
  Portfolio.purchases portfolio = [] →
  calculatePortfolioMetrics rt portfolio priceData
  = {| PortfolioMetrics.totalInvested := of_Z 0;
       PortfolioMetrics.currentValue := of_Z 0;
       PortfolioMetrics.totalGainLoss := of_Z 0;
       PortfolioMetrics.totalGainLossPercent := of_Z 0;
       PortfolioMetrics.ytdGainLoss := of_Z 0;
       PortfolioMetrics.ytdGainLossPercent := of_Z 0;
       PortfolioMetrics.holdings := [];
       PortfolioMetrics.lastUpdated := Date_now rt |}.
Proof.
  intros E. unfold calculatePortfolioMetrics. rewrite E. reflexivity.
Qed.

(** *** The example portfolio *)

Section engine_examples.
Local Open Scope R_scope.

Lemma example_quotes :
  example_prices !! "VOO" = Some voo_quote ∧ example_prices !! "QQQ" = None.
Proof. split; reflexivity. Qed.

Lemma spec_ytdStartPrice_voo : spec_ytdStartPrice voo_quote = 100.
Proof.
  unfold spec_ytdStartPrice. cbn [ETFPriceData.ytdChange voo_quote
    ETFPriceData.currentPrice].
  rewrite decide_False by lra. lra.
Qed.

(** The year-to-date figures of the example portfolio: 50 on the shares
    held since last year, 25 on this year's purchase, on a base of 1500. *)
Lemma calculateYTDPerformance_example :
  calculateYTDPerformance wednesday_1558
    [voo_last_year; qqq_unquoted; voo_this_year] example_prices
  = {| YTDPerformance.ytdGainLoss := 75;
       YTDPerformance.ytdGainLossPercent := 5 |}.
Proof.
  rewrite calculateYTDPerformance_sums.
  destruct example_quotes as [Hvoo Hqqq].
  unfold spec_YTDPerformance. cbn [sum_of].
  unfold spec_ytdGainLoss, spec_valueAtYearStart, spec_newInvestmentsThisYear.
  cbn [Purchase.etfSymbol voo_last_year qqq_unquoted voo_this_year].
  rewrite Hvoo, Hqqq.
  change (dated_before_year_start wednesday_1558 voo_last_year) with true.
  change (dated_before_year_start wednesday_1558 voo_this_year) with false.
  rewrite spec_ytdStartPrice_voo.
  cbn [Purchase.shares Purchase.totalCost ETFPriceData.currentPrice voo_quote
       voo_last_year voo_this_year].
  rewrite decide_False by lra.
  f_equal; lra.
Qed.

(** C1. Not so on every host.  The calculator compares instants: it reads
    the date of a purchase as midnight UTC and takes the start of the year
    at midnight of the local calendar.  In New York, on 10 January 2024, a
    purchase dated 2024-01-01 is read as 31 December, 19:00, and is filed
    with the holdings of previous years: together with a purchase dated
    2024-01-08 the calculator answers a gain of 35 and 20 percent, where
    the algorithm of the specification, for which both are purchases of
    this year, gives 60 and 40 percent.  In Tokyo the same calculator
    answers 60 and 40 percent. *)
Theorem calculateYTDPerformance_new_year_day :
  Date_parse wednesday_1558 (Purchase.purchaseDate voo_new_year_day)
    = 1704067200000%Z
  ∧ getYearStart wednesday_1558 = 1704085200000%Z
  ∧ map (spec_dated_before_january_1 wednesday_1558)
      [voo_new_year_day; voo_january] = [false; false]
  ∧ calculateYTDPerformance wednesday_1558 [voo_new_year_day; voo_january]
      example_prices
    = {| YTDPerformance.ytdGainLoss := 35;
         YTDPerformance.ytdGainLossPercent := 20 |}
  ∧ spec_calendar_YTDPerformance wednesday_1558 example_prices
      [voo_new_year_day; voo_january]
    = {| YTDPerformance.ytdGainLoss := 60;
         YTDPerformance.ytdGainLossPercent := 40 |}
  ∧ calculateYTDPerformance tokyo_saturday_morning
      [voo_new_year_day; voo_january] example_prices
    = {| YTDPerformance.ytdGainLoss := 60;
         YTDPerformance.ytdGainLossPercent := 40 |}.
Proof.
  destruct example_quotes as [Hvoo _].
  assert (Hspec : spec_calendar_YTDPerformance wednesday_1558 example_prices
                    [voo_new_year_day; voo_january]
                  = {| YTDPerformance.ytdGainLoss := 60;
                       YTDPerformance.ytdGainLossPercent := 40 |}).
  { unfold spec_calendar_YTDPerformance. cbn [sum_of].
    unfold spec_calendar_ytdGainLoss, spec_calendar_valueAtYearStart,
      spec_calendar_newInvestmentsThisYear.
    cbn [Purchase.etfSymbol voo_new_year_day voo_january].
    rewrite Hvoo.
    change (spec_dated_before_january_1 wednesday_1558 voo_new_year_day)
      with false.
    change (spec_dated_before_january_1 wednesday_1558 voo_january)
      with false.
    cbn [Purchase.shares Purchase.totalCost ETFPriceData.currentPrice
         voo_quote voo_new_year_day voo_january].
    rewrite decide_False by lra. f_equal; lra. }
  split; [reflexivity|]. split; [reflexivity|]. split; [reflexivity|].
  split; [|split; [exact Hspec|]].
  - rewrite calculateYTDPerformance_sums.
    unfold spec_YTDPerformance. cbn [sum_of].
    unfold spec_ytdGainLoss, spec_valueAtYearStart,
      spec_newInvestmentsThisYear.
    cbn [Purchase.etfSymbol voo_new_year_day voo_january].
    rewrite Hvoo.
    change (dated_before_year_start wednesday_1558 voo_new_year_day)
      with true.
    change (dated_before_year_start wednesday_1558 voo_january) with false.
    rewrite spec_ytdStartPrice_voo.
    cbn [Purchase.shares Purchase.totalCost ETFPriceData.currentPrice
         voo_quote voo_new_year_day voo_january].
    rewrite decide_False by lra. f_equal; lra.
  - rewrite calculateYTDPerformance_sums.
    unfold spec_YTDPerformance. cbn [sum_of].
    unfold spec_ytdGainLoss, spec_valueAtYearStart,
      spec_newInvestmentsThisYear.
    cbn [Purchase.etfSymbol voo_new_year_day voo_january].
    rewrite Hvoo.
    change (dated_before_year_start tokyo_saturday_morning voo_new_year_day)
      with false.
    change (dated_before_year_start tokyo_saturday_morning voo_january)
      with false.
    cbn [Purchase.shares Purchase.totalCost ETFPriceData.currentPrice
         voo_quote voo_new_year_day voo_january].
    rewrite decide_False by lra. f_equal; lra.
Qed.

(** The example portfolio: 1750 invested, of which 300 in the unquoted
    QQQ; the current value counts the two VOO purchases only. *)
Lemma calculatePortfolioMetrics_totals_witness :
  PortfolioMetrics.totalInvested
    (calculatePortfolioMetrics wednesday_1558 example_portfolio example_prices)
  = 950 + 500 + 300
  ∧ PortfolioMetrics.currentValue
      (calculatePortfolioMetrics wednesday_1558 example_portfolio example_prices)
    = 10 * 105 + 5 * 105.
Proof.
  destruct (calculatePortfolioMetrics_totals wednesday_1558 example_portfolio
              example_prices) as (_ & _ & H).
  destruct (H [voo_last_year] qqq_unquoted [voo_this_year] eq_refl
              (proj2 example_quotes)) as [HI HV].
  destruct example_quotes as [Hvoo _].
  split.
  - rewrite HI. cbn. lra.
  - rewrite HV. cbn [app sum_of]. unfold quoted_value.
    cbn [Purchase.etfSymbol voo_last_year voo_this_year]. rewrite Hvoo.
    cbn. lra.
Defined.

(** A portfolio without purchases, whatever the quotes. *)
Lemma calculatePortfolioMetrics_empty_witness :
  calculatePortfolioMetrics wednesday_1558 (portfolio_of []) example_prices
  = {| PortfolioMetrics.totalInvested := 0;
       PortfolioMetrics.currentValue := 0;
       PortfolioMetrics.totalGainLoss := 0;
       PortfolioMetrics.totalGainLossPercent := 0;
       PortfolioMetrics.ytdGainLoss := 0;
       PortfolioMetrics.ytdGainLossPercent := 0;
       PortfolioMetrics.holdings := [];
       PortfolioMetrics.lastUpdated := 1704920280000 |}.
Proof.
  exact (calculatePortfolioMetrics_empty wednesday_1558 (portfolio_of [])
           example_prices eq_refl).
Defined.

End engine_examples.

(** ** Order of the holdings *)


Section sorting.
Local Open Scope R_scope.
Context {A : Type} (key : A → R) (compareFn : A → A → R).
Hypothesis compareFn_key : ∀ a b, compareFn a b = key b - key a.

Lemma sort_insert_le x y ys :
  key y <= key x → sort_insert compareFn x (y :: ys) = x :: y :: ys.
Proof.
  intros H. cbn. rewrite compareFn_key, bool_decide_eq_true_2; [done | lra].
Qed.

Lemma sort_insert_gt x y ys :
  key x < key y →
  sort_insert compareFn x (y :: ys) = y :: sort_insert compareFn x ys.
Proof.
  intros H. cbn. rewrite compareFn_key, bool_decide_eq_false_2; [done | lra].
Qed.

Lemma sort_insert_cases x y ys :
  (key y <= key x ∧ sort_insert compareFn x (y :: ys) = x :: y :: ys)
  ∨ (key x < key y
     ∧ sort_insert compareFn x (y :: ys) = y :: sort_insert compareFn x ys).
Proof.
  destruct (Rle_lt_dec (key y) (key x)).
  - left. eauto using sort_insert_le.
  - right. eauto using sort_insert_gt.
Qed.

Lemma sort_insert_perm x s : sort_insert compareFn x s ≡ₚ x :: s.
Proof.
  induction s as [|y ys IH]; [done|].
  destruct (sort_insert_cases x y ys) as [[_ ->]|[_ ->]]; [done|].
  rewrite IH. apply Permutation_swap.
Qed.

Lemma Array_sort_perm xs : Array_sort compareFn xs ≡ₚ xs.
Proof.
  induction xs as [|x xs IH]; [done|].
  unfold Array_sort in *. cbn [foldr]. by rewrite sort_insert_perm, IH.
Qed.

Lemma sort_insert_sorted x s :
  StronglySorted (descending key) s →
  StronglySorted (descending key) (sort_insert compareFn x s).
Proof.
  induction 1 as [|y ys Hs IH Hy].
  - repeat constructor.
  - destruct (sort_insert_cases x y ys) as [[Hle ->]|[Hlt ->]].
    + constructor; [by constructor|].
      constructor; [unfold descending; lra|].
      eapply Forall_impl; [exact Hy|]. unfold descending. intros; lra.
    + constructor; [done|].
      rewrite sort_insert_perm. constructor; [unfold descending; lra | done].
Qed.

Lemma Array_sort_sorted xs : StronglySorted (descending key) (Array_sort compareFn xs).
Proof.
  induction xs as [|x xs IH]; [constructor|].
  unfold Array_sort in *. cbn [foldr]. by apply sort_insert_sorted.
Qed.

Lemma sort_insert_filter v x s :
  filter (λ a, key a = v) (sort_insert compareFn x s)
  = filter (λ a, key a = v) (x :: s).
Proof.
  induction s as [|y ys IH]; [done|].
  destruct (sort_insert_cases x y ys) as [[_ ->]|[Hlt ->]]; [done|].
  rewrite (filter_cons _ y), IH, !filter_cons.
  repeat case_decide; try done. lra.
Qed.

Lemma Array_sort_stable v xs :
  filter (λ a, key a = v) (Array_sort compareFn xs)
  = filter (λ a, key a = v) xs.
Proof.
  induction xs as [|x xs IH]; [done|].
  unfold Array_sort in *. cbn [foldr].
  by rewrite sort_insert_filter, !filter_cons, IH.
Qed.

End sorting.

Section holdings_order.
Local Open Scope R_scope.

Lemma Map_set_keys {V} k (v : V) (m : list (string * V)) :
  map fst (Map_set k v m)
  = if decide (k ∈ map fst m) then map fst m else map fst m ++ [k].
Proof.
  induction m as [|[k' v'] m IH]; cbn.
  - rewrite decide_False by apply not_elem_of_nil. reflexivity.
  - destruct (decide (k' = k)) as [->|Hne]; cbn.
    + rewrite decide_True by left. reflexivity.
    + rewrite IH. destruct (decide (k ∈ map fst m)) as [Hin|Hin].
      * rewrite decide_True by (by right). reflexivity.
      * rewrite decide_False; [reflexivity|].
        rewrite elem_of_cons. intros [->|?]; done.
Qed.

Lemma groupBySymbol_keys_from (purchases : list (Purchase.t R)) m :
  map fst
    (fold_left
       (λ purchasesBySymbol purchase,
          Map_set (Purchase.etfSymbol purchase)
            (default [] (Map_get (Purchase.etfSymbol purchase) purchasesBySymbol)
             ++ [purchase]) purchasesBySymbol) purchases m)
  = fold_left (λ seen s, if decide (s ∈ seen) then seen else seen ++ [s])
      (map Purchase.etfSymbol purchases) (map fst m).
Proof.
  revert m.
  induction purchases as [|p ps IH]; intros m; cbn [fold_left map]; [done|].
  by rewrite IH, Map_set_keys.
Qed.

Lemma groupBySymbol_keys (purchases : list (Purchase.t R)) :
  map fst (groupBySymbol purchases)
  = first_occurrences (map Purchase.etfSymbol purchases).
Proof. apply groupBySymbol_keys_from. Qed.

Lemma Map_set_headed (p : Purchase.t R) m :
  Forall headed m →
  Forall headed
    (Map_set (Purchase.etfSymbol p)
       (default [] (Map_get (Purchase.etfSymbol p) m) ++ [p]) m).
Proof.
  induction 1 as [|[k v] m Hk Hm IH]; cbn.
  - constructor; [|constructor]. by exists p, [].
  - destruct (decide (k = Purchase.etfSymbol p)) as [->|Hne]; cbn.
    + constructor; [|done].
      destruct Hk as (q & qs & Hv & Hq). cbn in Hv, Hq. subst v.
      by exists q, (qs ++ [p]).
    + by constructor.
Qed.

Lemma groupBySymbol_headed (purchases : list (Purchase.t R)) :
  Forall headed (groupBySymbol purchases).
Proof.
  unfold groupBySymbol.
  assert (H0 : Forall headed (@nil (string * list (Purchase.t R))))
    by constructor.
  revert H0. generalize (@nil (string * list (Purchase.t R))) as m.
  induction purchases as [|p ps IH]; intros m Hm; cbn [fold_left]; [done|].
  apply IH. by apply Map_set_headed.
Qed.

Lemma holdings_of_fold rt etfCache priceData total
    (groups : list (string * list (Purchase.t R))) acc :
  fold_left
    (λ holdings '(symbol, etfPurchases),
       match priceData !! symbol with
       | Some price =>
           holdings ++
           [calculateETFHoldingMetrics rt etfPurchases
              (etfName_of etfCache symbol)
              (ETFPriceData.currentPrice price) total]
       | None => holdings
       end) groups acc
  = acc ++ holdings_of rt etfCache priceData total groups.
Proof.
  unfold holdings_of. revert acc.
  induction groups as [|entry groups IH] using rev_ind; intros acc.
  - cbn. by rewrite app_nil_r.
  - destruct entry as [symbol ps]. rewrite !fold_left_app. cbn [fold_left].
    rewrite IH. destruct (priceData !! symbol); [|done].
    by rewrite app_assoc.
Qed.

Lemma holdings_of_symbols rt etfCache priceData total
    (groups : list (string * list (Purchase.t R))) :
  Forall headed groups →
  map ETFHoldingMetrics.etfSymbol
      (holdings_of rt etfCache priceData total groups)
  = filter (λ s, is_Some (priceData !! s)) (map fst groups).
Proof.
  induction groups as [|entry groups IH] using rev_ind; [done|].
  destruct entry as [symbol ps].
  intros [Hg Hh]%Forall_app. rewrite Forall_singleton in Hh.
  destruct Hh as (p & ps' & Hps & Hsym). cbn in Hps, Hsym. subst ps.
  unfold holdings_of in *. rewrite fold_left_app, map_app, filter_app.
  cbn [fold_left map fst]. rewrite <- IH by done.
  destruct (priceData !! symbol) as [quote|] eqn:Hq.
  - rewrite map_app, filter_cons_True by (by rewrite Hq).
    cbn. by rewrite Hsym.
  - rewrite filter_cons_False by (rewrite Hq; by intros [? ?]).
    cbn. by rewrite app_nil_r.
Qed.

(** C6. The holdings are in descending order of current value.  They are
    the holdings as pushed, one per quoted symbol in the order in which
    the symbols first occur among the purchases, rearranged so that the
    holdings of any one value keep that order. *)
Theorem holdings_sorted_stable (rt : Runtime) (portfolio : Portfolio.t R)
    (priceData : gmap string (ETFPriceData.t R)) :
  let holdings :=
    PortfolioMetrics.holdings
      (calculatePortfolioMetrics rt portfolio priceData) in
  StronglySorted (descending ETFHoldingMetrics.currentValue) holdings
  ∧ ∃ pushed : list (ETFHoldingMetrics.t R),
      map ETFHoldingMetrics.etfSymbol pushed
      = filter (λ s, is_Some (priceData !! s))
          (first_occurrences
             (map Purchase.etfSymbol (Portfolio.purchases portfolio)))
      ∧ holdings ≡ₚ pushed
      ∧ ∀ v : R,
          filter (λ h, ETFHoldingMetrics.currentValue h = v) holdings
          = filter (λ h, ETFHoldingMetrics.currentValue h = v) pushed.
Proof.
  cbv zeta. unfold calculatePortfolioMetrics.
  destruct (Portfolio.purchases portfolio) as [|p ps] eqn:E.
  - cbn. split; [constructor|]. exists []. done.
  - cbn [length Nat.eqb PortfolioMetrics.holdings].
    rewrite <- E. clear p ps E.
    set (pushed := holdings_of _ _ _ _ _).
    assert (Hcmp : ∀ a b : ETFHoldingMetrics.t R,
      holdings_compare a b
      = ETFHoldingMetrics.currentValue b - ETFHoldingMetrics.currentValue a)
      by done.
    split; [by apply Array_sort_sorted|].
    exists pushed. split; [|split].
    + subst pushed.
      rewrite holdings_of_symbols by apply groupBySymbol_headed.
      by rewrite groupBySymbol_keys.
    + by apply (Array_sort_perm ETFHoldingMetrics.currentValue).
    + intros v. by apply Array_sort_stable.
Qed.

End holdings_order.

(** ** Non-finite results *)


Section overflow.
Local Open Scope R_scope.

Lemma overflow_threshold_IZR :
  overflow_threshold = IZR (2 ^ 1024 - 2 ^ 970).
Proof.
  unfold overflow_threshold.
  rewrite minus_IZR.
  change 2 with (IZR 2).
  rewrite !pow_IZR. reflexivity.
Qed.

Lemma to_number_Fin (r : R) :
  -1000000 <= r <= 1000000 → to_number r = Fin r.
Proof.
  intros Hr. unfold to_number.
  assert (Hbig : 1000000 < overflow_threshold).
  { rewrite overflow_threshold_IZR. apply IZR_lt. reflexivity. }
  rewrite !decide_False by lra. reflexivity.
Qed.

Lemma to_number_PInf (r : R) : overflow_threshold <= r → to_number r = PInf.
Proof. intros Hr. unfold to_number. by rewrite decide_True. Qed.

Lemma Rpower_10_365_overflows : overflow_threshold <= Rpower 10 365.
Proof.
  replace 365 with (INR 365) by (by rewrite INR_IZR_INZ).
  rewrite Rpower_pow by lra.
  rewrite overflow_threshold_IZR.
  change 10 with (IZR 10). rewrite pow_IZR.
  apply IZR_le. vm_compute. discriminate.
Qed.

Lemma number_div_Fin (a b : R) :
  b ≠ 0 → -1000000 <= a / b <= 1000000 →
  number_div (Fin a) (Fin b) = Fin (a / b).
Proof.
  intros Hb Hr. unfold number_div. rewrite decide_False by done.
  by apply to_number_Fin.
Qed.

(** The copy in the hook cannot answer a non-finite number. *)
Lemma useMetrics_calculateAnnualizedReturn_finite (costBasis currentValue days : number) :
  isFinite (useMetrics_calculateAnnualizedReturn costBasis currentValue days)
  = true.
Proof.
  unfold useMetrics_calculateAnnualizedReturn.
  destruct (_ || _); [reflexivity|]. cbv zeta.
  match goal with
  | |- context [if isFinite ?c then _ else _] => destruct (isFinite c) eqn:E
  end; [exact E | reflexivity].
Qed.


(** C3. No guard stands between the power and the result: 100 grown to
    1000 in one day raises 10 to the power 365, which overflows, and the
    function answers [+Infinity]. *)
Theorem calculateAnnualizedReturn_not_finite :
  calculateAnnualizedReturn (Fin 100) (Fin 1000) (Fin 1) = PInf
  ∧ isFinite (calculateAnnualizedReturn (Fin 100) (Fin 1000) (Fin 1)) = false.
Proof.
  assert (E : calculateAnnualizedReturn (Fin 100) (Fin 1000) (Fin 1) = PInf).
  { unfold calculateAnnualizedReturn.
    cbn [leb of_Z number_arith number_leb number_ltb number_eqb div sub mul
         Math_pow].
    rewrite !bool_decide_eq_false_2 by lra. cbn [orb].
    rewrite (number_div_Fin 1000 100) by lra.
    rewrite (number_div_Fin 1 365) by lra.
    rewrite (number_div_Fin 1 (1 / 365)) by lra.
    replace (1 / (1 / 365)) with 365 by lra.
    replace (1000 / 100) with 10 by lra.
    unfold number_pow.
    rewrite (decide_False (P := 365 = 0)) by lra.
    rewrite (decide_False (P := 10 = 0)) by lra.
    rewrite (decide_True (P := 0 < 10)) by lra.
    rewrite to_number_PInf by apply Rpower_10_365_overflows.
    cbn. unfold inf_times. rewrite decide_False by lra.
    rewrite bool_decide_eq_true_2 by lra. reflexivity. }
  rewrite E. done.
Qed.

End overflow.

(** ** The portfolio service *)


Section parse_float.
Local Open Scope R_scope.

(** [parseFloat] on a few inputs of the form. *)
Lemma parseFloat_examples :
  parseFloat "12.5" = Fin 12.5
  ∧ parseFloat "abc" = NaN
  ∧ parseFloat " 42px" = Fin 42
  ∧ parseFloat "1e3" = Fin 1000
  ∧ parseFloat "-.5" = Fin (-0.5)
  ∧ parseFloat "-Infinity" = NInf
  ∧ parseFloat "." = NaN
  ∧ parseFloat "5.e" = Fin 5.
Proof.
  repeat split; try reflexivity; unfold parseFloat;
    cbn -[to_number powerRZ IZR number_neg];
    repeat match goal with
    | |- context [Z.eqb ?a ?b] =>
        let v := eval vm_compute in (Z.eqb a b) in change (Z.eqb a b) with v
    | |- context [IZR ?z] =>
        lazymatch z with
        | Z0 => fail | Zpos _ => fail | Zneg _ => fail
        | _ => let v := eval vm_compute in z in change (IZR z) with (IZR v)
        end
    | |- context [powerRZ ?r ?z] =>
        let v := eval vm_compute in z in
        let p := eval cbv [powerRZ pow Pos.to_nat Pos.iter_op Nat.add]
                   in (powerRZ r v) in
        change (powerRZ r z) with p
    end;
    cbn [number_neg]; rewrite to_number_Fin by lra; cbn [number_neg];
    f_equal; lra.
Qed.

End parse_float.

Section service.
Local Open Scope num_scope.

Lemma number_add_NaN_r (x : number) : number_add x NaN = NaN.
Proof. by destruct x. Qed.

Lemma number_eqb_refl (x : number) : number_eqb x x = true ↔ x ≠ NaN.
Proof.
  destruct x; cbn; try done.
  by rewrite bool_decide_eq_true_2.
Qed.

Lemma parseFloat_empty : parseFloat "" = NaN.
Proof. reflexivity. Qed.

(** [addPurchase] computes the stored total from the parsed fields. *)
Lemma addPurchase_recomputes rt store portfolio data updated store' :
  addPurchase rt store portfolio data = Ok (updated, store') →
  ∃ purchase,
    Portfolio.purchases updated = Portfolio.purchases portfolio ++ [purchase]
    ∧ Purchase.shares purchase = parseFloat (PurchaseFormData.shares data)
    ∧ Purchase.pricePerShare purchase
      = parseFloat (PurchaseFormData.pricePerShare data)
    ∧ Purchase.fees purchase
      = (parseFloat (PurchaseFormData.fees data) ||| of_Z 0)
    ∧ Purchase.totalCost purchase
      = Purchase.shares purchase * Purchase.pricePerShare purchase
        + Purchase.fees purchase.
Proof.
  unfold addPurchase. intros H.
  destruct (savePortfolio _ _ _) as [s|e]; cbn in H; [|done].
  injection H as <- <-. eexists. cbn. done.
Qed.

(** [updatePurchase] overwrites the stored total with one computed from the
    fields of the updated purchase, whatever the total was before. *)
Lemma updatePurchase_recomputes rt store portfolio id data updated store' :
  updatePurchase rt store portfolio id data = Ok (updated, store') →
  ∃ purchaseIndex existingPurchase purchase,
    list_find (λ p, Purchase.id p = id) (Portfolio.purchases portfolio)
      = Some (purchaseIndex, existingPurchase)
    ∧ Portfolio.purchases updated
      = <[purchaseIndex := purchase]> (Portfolio.purchases portfolio)
    ∧ Purchase.totalCost purchase
      = Purchase.shares purchase * Purchase.pricePerShare purchase
        + Purchase.fees purchase.
Proof.
  unfold updatePurchase. intros H.
  destruct (list_find _ _) as [[i existing]|]; [|done].
  destruct (savePortfolio _ _ _) as [s|e]; cbn in H; [|done].
  injection H as <- <-. do 3 eexists. cbn. done.
Qed.

(** C7. Editing a purchase with the fees field cleared: [parseFloat] of
    the empty string is [NaN], which [updatePurchase] stores as the fees
    and carries into the total cost; the stored total is then equal to
    nothing, not to [shares * pricePerShare + fees] either. *)
Theorem updatePurchase_cleared_fees (rt : Runtime) :
  ∃ updated store' purchase,
    updatePurchase rt (LocalStorage.mk true None) edited_portfolio "p1"
      cleared_fees_form = Ok (updated, store')
    ∧ Portfolio.purchases updated = [purchase]
    ∧ Purchase.fees purchase = NaN
    ∧ Purchase.totalCost purchase = NaN
    ∧ (Purchase.totalCost purchase
       =? Purchase.shares purchase * Purchase.pricePerShare purchase
          + Purchase.fees purchase) = false.
Proof.
  do 3 eexists. split; [reflexivity|]. split; [reflexivity|].
  cbn [Purchase.fees Purchase.totalCost Purchase.shares Purchase.pricePerShare].
  cbn [PartialPurchaseFormData.fees PartialPurchaseFormData.shares
       PartialPurchaseFormData.pricePerShare cleared_fees_form].
  rewrite parseFloat_empty. cbn [add mul number_arith eqb].
  rewrite number_add_NaN_r. done.
Qed.

End service.

(** ** The price cache *)


Section cache.
Local Open Scope Z_scope.
Context {num : Type} `{!Arith num}.

Lemma getCurrentCacheTTL_cases (rt : Runtime) :
  getCurrentCacheTTL rt = CACHE_TTL_MARKET_HOURS
  ∨ getCurrentCacheTTL rt = CACHE_TTL_AFTER_HOURS
  ∨ getCurrentCacheTTL rt = CACHE_TTL_CLOSED.
Proof.
  unfold getCurrentCacheTTL.
  destruct (isMarketOpen rt); [by left|].
  destruct (_ || _); [right; by right | right; by left].
Qed.

Lemma getDay_range (civil : Z) : 0 <= getDay civil < 7.
Proof. unfold getDay. apply Z.mod_pos_bound. lia. Qed.

Lemma getCurrentCacheTTL_spec (rt : Runtime) :
  getDay (localTime rt (Date_now rt)) = getDay (easternTime rt (Date_now rt)) →
  getCurrentCacheTTL rt = spec_TTL rt.
Proof.
  intros Hday. unfold getCurrentCacheTTL, spec_TTL, isMarketOpen.
  rewrite Hday. clear Hday.
  pose proof (getDay_range (easternTime rt (Date_now rt))) as Hr.
  revert Hr. generalize (getDay (easternTime rt (Date_now rt))) as day.
  intros day Hr.
  set (minutes := getHours _ * 60 + getMinutes _).
  destruct (Z.eqb_spec day 0); destruct (Z.eqb_spec day 6);
    destruct (Z.leb_spec 1 day); destruct (Z.leb_spec day 5);
    destruct ((9 * 60 + 30 <=? minutes) && (minutes <? 16 * 60)); cbn;
    try reflexivity; lia.
Qed.

Lemma isMarketOpen_iff (rt : Runtime) :
  let eastern := easternTime rt (Date_now rt) in
  isMarketOpen rt = true
  ↔ 1 <= getDay eastern <= 5
    ∧ 9 * 60 + 30 <= getHours eastern * 60 + getMinutes eastern < 16 * 60.
Proof.
  cbv zeta. unfold isMarketOpen.
  rewrite !andb_true_iff, !Z.leb_le, Z.ltb_lt. tauto.
Qed.

Lemma getPriceCache_updatePriceCache rt symbol (data : ETFPriceData.t num)
    (store : LocalStorage.t (gmap string (ETFCacheEntry.t num))) :
  LocalStorage.available store = true →
  ∃ entry,
    getPriceCache (updatePriceCache rt symbol data store)
      !! normalizeSymbol symbol = Some entry
    ∧ ETFCacheEntry.currentPrice entry = ETFPriceData.currentPrice data
    ∧ ETFCacheEntry.lastUpdated entry = Date_now rt.
Proof.
  intros Hav. unfold updatePriceCache, savePriceCache, safeSetItem.
  rewrite Hav. cbn [snd]. unfold getPriceCache at 1, safeGetItem.
  cbn [LocalStorage.available LocalStorage.item].
  eexists. rewrite lookup_insert_eq. done.
Qed.

Lemma getCachedPrice_lookup rt symbol
    (store : LocalStorage.t (gmap string (ETFCacheEntry.t num))) entry :
  getPriceCache store !! normalizeSymbol symbol = Some entry →
  getCachedPrice rt symbol store
  = Some (ETFCacheEntry.currentPrice entry,
          bool_decide
            (getCurrentCacheTTL rt < Date_now rt - ETFCacheEntry.lastUpdated entry)).
Proof.
  intros H. unfold getCachedPrice. rewrite H. do 2 f_equal.
  destruct (Z.ltb_spec (getCurrentCacheTTL rt)
              (Date_now rt - ETFCacheEntry.lastUpdated entry)).
  - by rewrite bool_decide_eq_true_2.
  - rewrite bool_decide_eq_false_2; [done | lia].
Qed.

(** C5, amended.  [getCachedPrice] answers nothing for a symbol that is
    not in the cache, and otherwise the cached price with
    [stale = (now - lastUpdated) > TTL], the TTL being the one in force
    when the price is read: 5 minutes while the New York market is open,
    and, when the host's day of the week is New York's, 60 minutes on
    Saturday and Sunday and 30 minutes on a weekday outside market hours.
    An entry written at [T] is fresh at [T + 4 min] in every session, and
    stale at [T + 6 min] when the market is open at that time.
    [isCacheStale] holds exactly when the entry is absent or stale. *)
Theorem getCachedPrice_policy (rt : Runtime) (symbol : string)
    (store : LocalStorage.t (gmap string (ETFCacheEntry.t num))) :
  (getPriceCache store !! normalizeSymbol symbol = None →
     getCachedPrice rt symbol store = None)
  ∧ (∀ entry,
       getPriceCache store !! normalizeSymbol symbol = Some entry →
       getCachedPrice rt symbol store
       = Some (ETFCacheEntry.currentPrice entry,
               bool_decide (getCurrentCacheTTL rt
                            < Date_now rt - ETFCacheEntry.lastUpdated entry)))
  ∧ (1 <= getDay (easternTime rt (Date_now rt)) <= 5 →
     9 * 60 + 30
       <= getHours (easternTime rt (Date_now rt)) * 60
          + getMinutes (easternTime rt (Date_now rt)) < 16 * 60 →
     getCurrentCacheTTL rt = 5 * msPerMinute)
  ∧ (getDay (localTime rt (Date_now rt))
       = getDay (easternTime rt (Date_now rt)) →
     getCurrentCacheTTL rt = spec_TTL rt)
  ∧ (∀ (written : Runtime) (data : ETFPriceData.t num),
       LocalStorage.available store = true →
       let store' := updatePriceCache written symbol data store in
       (Date_now rt = Date_now written + 4 * msPerMinute →
        getCachedPrice rt symbol store'
        = Some (ETFPriceData.currentPrice data, false))
       ∧ (Date_now rt = Date_now written + 6 * msPerMinute →
          isMarketOpen rt = true →
          getCachedPrice rt symbol store'
          = Some (ETFPriceData.currentPrice data, true)))
  ∧ (isCacheStale rt symbol store = true ↔
       getCachedPrice rt symbol store = None
       ∨ ∃ price, getCachedPrice rt symbol store = Some (price, true)).
Proof.
  split; [|split; [|split; [|split; [|split]]]].
  - intros H. unfold getCachedPrice. by rewrite H.
  - intros entry. apply getCachedPrice_lookup.
  - intros Hday Hminutes. unfold getCurrentCacheTTL.
    by rewrite (proj2 (isMarketOpen_iff rt) (conj Hday Hminutes)).
  - apply getCurrentCacheTTL_spec.
  - intros written data Hav. cbv zeta.
    destruct (getPriceCache_updatePriceCache written symbol data store Hav)
      as (entry & Hentry & Hprice & Htime).
    rewrite (getCachedPrice_lookup _ _ _ _ Hentry), Hprice, Htime.
    split.
    + intros ->. rewrite bool_decide_eq_false_2; [done|].
      destruct (getCurrentCacheTTL_cases rt) as [-> | [-> | ->]];
        unfold CACHE_TTL_MARKET_HOURS, CACHE_TTL_AFTER_HOURS, CACHE_TTL_CLOSED,
          msPerMinute; lia.
    + intros -> Hopen. rewrite bool_decide_eq_true_2; [done|].
      unfold getCurrentCacheTTL. rewrite Hopen.
      unfold CACHE_TTL_MARKET_HOURS, msPerMinute. lia.
  - unfold isCacheStale.
    destruct (getCachedPrice rt symbol store) as [[price stale]|].
    + split.
      * intros ->. right. by exists price.
      * intros [?|[? ?]]; [done | by simplify_eq].
    + split; [by left | done].
Qed.

End cache.

Section cache_examples.
Local Open Scope Z_scope.

(** An entry written on a Wednesday at 15:58 New York time is read at
    16:04, after the close: the time to live is then 30 minutes and the
    entry is fresh. *)
Lemma market_write_fresh_after_close :
  isMarketOpen wednesday_1558 = true
  ∧ getCachedPrice (later (6 * msPerMinute) wednesday_1558) "VOO"
      (updatePriceCache wednesday_1558 "VOO" voo_quote empty_cache_store)
    = Some (105%R, false).
Proof. split; reflexivity. Qed.

Lemma stale_six_minutes_after_market_write_fails :
  ¬ stale_six_minutes_after_market_write.
Proof.
  intros Hstale.
  specialize (Hstale wednesday_1558 (later (6 * msPerMinute) wednesday_1558)
                "VOO" voo_quote empty_cache_store).
  destruct market_write_fresh_after_close as [Hopen Hfresh].
  rewrite Hfresh in Hstale.
  specialize (Hstale eq_refl Hopen eq_refl eq_refl eq_refl).
  discriminate Hstale.
Qed.

(** On a Tokyo host on Saturday morning it is Friday evening in New York:
    the program answers the week-end time to live. *)
Lemma local_weekend_on_eastern_weekday :
  getCurrentCacheTTL tokyo_saturday_morning = CACHE_TTL_CLOSED
  ∧ spec_TTL tokyo_saturday_morning = 30 * msPerMinute.
Proof. split; reflexivity. Qed.

Lemma getCachedPrice_policy_witness :
  getCachedPrice (later (4 * msPerMinute) wednesday_1558) "VOO"
    (updatePriceCache wednesday_1558 "VOO" voo_quote empty_cache_store)
  = Some (105%R, false)
  ∧ getCachedPrice (later (6 * msPerMinute) (later (- msPerHour) wednesday_1558)) "VOO"
      (updatePriceCache (later (- msPerHour) wednesday_1558) "VOO" voo_quote
         empty_cache_store)
    = Some (105%R, true).
Proof.
  split.
  - destruct (getCachedPrice_policy
                (later (4 * msPerMinute) wednesday_1558) "VOO" empty_cache_store)
      as (_ & _ & _ & _ & H & _).
    destruct (H wednesday_1558 voo_quote eq_refl) as [Hfresh _].
    exact (Hfresh eq_refl).
  - destruct (getCachedPrice_policy
                (later (6 * msPerMinute) (later (- msPerHour) wednesday_1558))
                "VOO" empty_cache_store)
      as (_ & _ & _ & _ & H & _).
    destruct (H (later (- msPerHour) wednesday_1558) voo_quote eq_refl)
      as [_ Hstale].
    exact (Hstale eq_refl eq_refl).
Defined.

End cache_examples.

(** ** Import *)


Section import.
Local Open Scope Z_scope.

Lemma Map_get_set_eq {V} k (v : V) m : Map_get k (Map_set k v m) = Some v.
Proof.
  induction m as [|[k' v'] m IH]; cbn.
  - by rewrite decide_True.
  - destruct (decide (k' = k)) as [->|Hne]; cbn.
    + by rewrite decide_True.
    + by rewrite decide_False.
Qed.

Lemma Map_get_set_ne {V} k k' (v : V) m :
  k ≠ k' → Map_get k' (Map_set k v m) = Map_get k' m.
Proof.
  intros Hne. induction m as [|[k0 v0] m IH]; cbn.
  - by rewrite decide_False.
  - destruct (decide (k0 = k)) as [->|Hne0]; cbn.
    + by rewrite !decide_False.
    + destruct (decide (k0 = k')); done.
Qed.

Lemma string_check (v : option json) :
  if negb (js_truthy v) || negb (is_string v)
  then ¬ nonempty_string v else nonempty_string v.
Proof.
  destruct v as [[| b | q | s | items | props]|]; cbn;
    try (intros (s' & [=] & _); done).
  - destruct b; cbn; intros (s' & [=] & _).
  - destruct (Qeq_bool q 0); cbn; intros (s' & [=] & _).
  - case_bool_decide as Hs; cbn.
    + intros (s' & [= <-] & Hne). done.
    + by exists s.
Qed.

Lemma number_check (v : option json) :
  if negb (is_number v) || number_le_zero v
  then ¬ positive_number v else positive_number v.
Proof.
  destruct v as [[| b | q | s | items | props]|]; cbn;
    try (intros (q' & [=] & _); done).
  destruct (Qle_bool q 0) eqn:Hq.
  - intros (q' & [= <-] & Hpos). apply Qle_bool_iff in Hq.
    by apply Qlt_not_le in Hpos.
  - exists q. split; [done|]. apply Qnot_le_lt. intros Hle.
    apply Qle_bool_iff in Hle. congruence.
Qed.

Lemma validatePurchase_spec (p : json) :
  match validatePurchase p with
  | Ok _ => ¬ invalid_purchase p
  | Throw e => invalid_purchase p ∧ e ≠ save_failure
  end.
Proof.
  unfold validatePurchase, invalid_purchase.
  destruct p as [| b | q | s | items | props];
    try (cbn; split; [left; intros (s' & [=] & _) | done]).
  cbn [get_prop mbind result_bind].
  pose proof (string_check (field (JObj props) "id")) as Hid.
  destruct (negb _ || negb _); [split; [by left | done]|].
  pose proof (string_check (field (JObj props) "etfSymbol")) as Hsym.
  destruct (negb _ || negb _); [split; [right; by left | done]|].
  pose proof (number_check (field (JObj props) "shares")) as Hshares.
  destruct (negb _ || _); [split; [right; right; by left | done]|].
  pose proof (number_check (field (JObj props) "pricePerShare")) as Hprice.
  destruct (negb _ || _); [split; [right; right; by right | done]|].
  intros [?|[?|[?|?]]]; done.
Qed.

Lemma validatePurchases_spec (purchases : list json) :
  match validatePurchases purchases with
  | Ok _ => Forall (λ p, ¬ invalid_purchase p) purchases
  | Throw e => Exists invalid_purchase purchases ∧ e ≠ save_failure
  end.
Proof.
  induction purchases as [|p ps IH]; cbn; [constructor|].
  pose proof (validatePurchase_spec p) as Hp.
  destruct (validatePurchase p) as [[]|e]; cbn.
  - destruct (validatePurchases ps) as [[]|e'].
    + by constructor.
    + destruct IH. split; [by right | done].
  - destruct Hp. split; [by left | done].
Qed.

Lemma validateImport_spec (parsed : option json) :
  match validateImport parsed with
  | Ok (data, purchases) =>
      data = default JNull parsed
      ∧ field data "purchases" = Some (JArr purchases)
      ∧ ¬ invalid_document data
  | Throw e => invalid_document (default JNull parsed) ∧ e ≠ save_failure
  end.
Proof.
  unfold validateImport, invalid_document.
  set (data := default JNull parsed).
  destruct (negb (js_truthy (Some data))) eqn:Hdata.
  { split; [left|done]. intros (s & Hs & Hne).
    destruct data as [| b | q | s' | items | props]; done. }
  pose proof (string_check (field data "id")) as Hid.
  destruct (negb _ || negb _); [split; [by left | done]|].
  pose proof (string_check (field data "name")) as Hname.
  destruct (negb _ || negb _); [split; [right; by left | done]|].
  destruct (field data "purchases") as [[| b | q | s | items | props]|] eqn:Hp;
    try (split; [right; right; left; intros (items' & [=]) | done]).
  pose proof (validatePurchases_spec items) as Hitems.
  destruct (validatePurchases items) as [[]|e]; cbn.
  - split; [done|]. split; [done|].
    intros [?|[?|[Hl|(items' & Heq & Hex)]]]; try done.
    + apply Hl. rewrite Hp. by exists items.
    + rewrite Hp in Heq. injection Heq as <-.
      apply Exists_exists in Hex as (p & Hin & Hinv).
      rewrite Forall_forall in Hitems. by apply (Hitems p).
  - destruct Hitems. split; [|done]. right; right; right. by exists items.
Qed.

Lemma field_backfill_createdAt now (p : json) :
  field (backfill_purchase now p) "createdAt"
  = Some (or_else (field p "createdAt") now).
Proof.
  unfold backfill_purchase. cbn [field].
  rewrite Map_get_set_ne by done. apply Map_get_set_eq.
Qed.

Lemma field_backfill_updatedAt now (p : json) :
  field (backfill_purchase now p) "updatedAt"
  = Some (or_else (field p "updatedAt") now).
Proof. unfold backfill_purchase. cbn [field]. apply Map_get_set_eq. Qed.

Lemma field_backfill_other now (p : json) key :
  key ≠ "createdAt" → key ≠ "updatedAt" → (∃ props, p = JObj props) →
  field (backfill_purchase now p) key = field p key.
Proof.
  intros H1 H2 [props ->]. unfold backfill_purchase. cbn [field spread].
  by rewrite !Map_get_set_ne.
Qed.

(** C8, amended.  [importPortfolio] raises an error of its checks exactly
    when the document's id or name is not a non-empty string, its
    purchases are not a list, or some purchase has an id or symbol that is
    not a non-empty string, or shares or a price per share that are not a
    positive number.  An accepted document is saved when the storage is
    available; time stamps it lacks, on the portfolio or on a purchase,
    are set to the time of the import. *)
Theorem importPortfolio_validation (rt : Runtime)
    (store : LocalStorage.t json) (parsed : option json) :
  let data := default JNull parsed in
  let now := JStr (Date_toISOString rt (Date_now rt)) in
  (raises_validation_error (importPortfolio rt store parsed)
   ↔ invalid_document data)
  ∧ (¬ invalid_document data → LocalStorage.available store = true →
     ∃ portfolio store' purchases,
       importPortfolio rt store parsed = Ok (portfolio, store')
       ∧ field data "purchases" = Some (JArr purchases)
       ∧ field portfolio "purchases"
         = Some (JArr (map (backfill_purchase now) purchases))
       ∧ field portfolio "createdAt"
         = Some (or_else (field data "createdAt") now)
       ∧ field portfolio "updatedAt" = Some now
       ∧ (field data "createdAt" = None →
          field portfolio "createdAt" = Some now)
       ∧ ∀ p, p ∈ purchases →
           field (backfill_purchase now p) "createdAt"
             = Some (or_else (field p "createdAt") now)
           ∧ field (backfill_purchase now p) "updatedAt"
             = Some (or_else (field p "updatedAt") now)
           ∧ (field p "createdAt" = None →
              field (backfill_purchase now p) "createdAt" = Some now)
           ∧ (field p "updatedAt" = None →
              field (backfill_purchase now p) "updatedAt" = Some now)).
Proof.
  cbv zeta. unfold importPortfolio.
  pose proof (validateImport_spec parsed) as Hv.
  destruct (validateImport parsed) as [[data purchases]|e];
    cbn [mbind result_bind].
  - destruct Hv as (-> & Hp & Hvalid). split.
    + split; [|done]. intros (e & He & Hne).
      unfold savePortfolio, safeSetItem in He.
      destruct (LocalStorage.available store); cbn in He; [done|].
      injection He as <-. done.
    + intros _ Hav. unfold savePortfolio, safeSetItem. rewrite Hav.
      cbn [mbind result_bind].
      eexists _, _, purchases. split; [reflexivity|].
      split; [done|]. split; [reflexivity|]. split; [reflexivity|].
      split; [reflexivity|].
      split; [intros H; cbn [field Map_get]; cbn; by rewrite H|].
      intros p _.
      rewrite field_backfill_createdAt, field_backfill_updatedAt.
      repeat split; by intros ->.
  - destruct Hv as [Hinv Hne]. split.
    + split; [done|]. intros _. by exists e.
    + done.
Qed.

End import.

Section import_examples.

(** The import rejects a purchase whose id is a number, and a portfolio
    whose id is the empty string; the specification's condition holds of
    neither document. *)
Lemma importPortfolio_rejects_present_ids :
  let rt := wednesday_1558 in
  let store := LocalStorage.mk true None in
  (importPortfolio rt store (Some document_with_numeric_purchase_id)
     = Throw (Error "Invalid purchase: missing or invalid id")
   ∧ ¬ spec_invalid_document document_with_numeric_purchase_id)
  ∧ (importPortfolio rt store (Some document_with_empty_id)
       = Throw (Error "Invalid portfolio: missing or invalid id")
     ∧ ¬ spec_invalid_document document_with_empty_id).
Proof.
  cbv zeta. split; (split; [reflexivity|]).
  - intros [H|[H|[H|(items & [= <-] & H)]]].
    + by apply (H "portfolio").
    + by apply (H "Imported").
    + apply H. by eexists.
    + apply Exists_cons in H as [[H|[H|[H|H]]]|H%Exists_nil]; try done.
      * apply H. exists 10%Q. done.
      * apply H. exists 400%Q. done.
  - intros [H|[H|[H|(items & [= <-] & H%Exists_nil)]]]; try done.
    + by apply (H "").
    + by apply (H "Imported").
    + apply H. by eexists.
Qed.

Lemma document_without_timestamps_valid :
  ¬ invalid_document (default JNull (Some document_without_timestamps)).
Proof.
  intros [H|[H|[H|(items & [= <-] & H)]]].
  - apply H. by exists "portfolio".
  - apply H. by exists "Imported".
  - apply H. by eexists.
  - apply Exists_cons in H as [[H|[H|[H|H]]]|H%Exists_nil]; try done.
    + apply H. by exists "p1".
    + apply H. by exists "VOO".
    + apply H. by exists 10%Q.
    + apply H. by exists 400%Q.
Qed.

(** A document without time stamps is accepted; the portfolio and its
    purchase get the time of the import. *)
Lemma importPortfolio_validation_witness :
  ∃ portfolio store',
    importPortfolio wednesday_1558 (LocalStorage.mk true None)
      (Some document_without_timestamps) = Ok (portfolio, store')
    ∧ field portfolio "createdAt" = Some (JStr "2024-01-10T15:00:00.000Z")
    ∧ field
        (backfill_purchase (JStr "2024-01-10T15:00:00.000Z")
           purchase_without_timestamps) "createdAt"
      = Some (JStr "2024-01-10T15:00:00.000Z").
Proof.
  destruct (importPortfolio_validation wednesday_1558 (LocalStorage.mk true None)
              (Some document_without_timestamps)) as [_ H].
  destruct (H document_without_timestamps_valid eq_refl)
    as (portfolio & store' & purchases & Himport & Hps & _ & _ & _ & Hcreated & Hp).
  exists portfolio, store'. split; [exact Himport|].
  split; [exact (Hcreated eq_refl)|].
  injection Hps as <-.
  destruct (Hp purchase_without_timestamps) as (_ & _ & Hc & _).
  - by left.
  - exact (Hc eq_refl).
Defined.


End import_examples.

(* ===================================================================== *)
(** * Further properties *)

(** ** The price cache service *)

Section cache_maintenance.
Local Open Scope Z_scope.
Context {num : Type} `{!Arith num}.


Lemma getPriceCache_savePriceCache (cache : gmap string (ETFCacheEntry.t num))
    (store : LocalStorage.t (gmap string (ETFCacheEntry.t num))) :
  getPriceCache (savePriceCache cache store)
  = if LocalStorage.available store then cache else ∅.
Proof.
  unfold savePriceCache, safeSetItem, getPriceCache, safeGetItem.
  destruct (LocalStorage.available store) eqn:E; cbn; by rewrite ?E.
Qed.

Lemma getPriceCache_unavailable
    (store : LocalStorage.t (gmap string (ETFCacheEntry.t num))) :
  LocalStorage.available store = false → getPriceCache store = ∅.
Proof. intros E. unfold getPriceCache, safeGetItem. by rewrite E. Qed.


Lemma prune_fold rt maxAge (cache0 cache : gmap string (ETFCacheEntry.t num)) :
  map_fold
    (λ symbol entry '(cache, removedCount),
       if maxAge <? Date_now rt - ETFCacheEntry.lastUpdated entry
       then (delete symbol cache, removedCount + 1)
       else (cache, removedCount))
    (cache0, 0) cache
  = (cache0 ∖ filter (older_than rt maxAge) cache,
     Z.of_nat (size (filter (older_than rt maxAge) cache))).
Proof.
  apply (map_fold_weak_ind (λ r m,
    r = (cache0 ∖ filter (older_than rt maxAge) m,
         Z.of_nat (size (filter (older_than rt maxAge) m))))).
  - rewrite map_filter_empty, map_size_empty.
    f_equal. apply map_eq. intros k. by rewrite lookup_difference, lookup_empty.
  - intros symbol entry m [c n] Hnone [= -> ->].
    destruct (Z.ltb_spec maxAge (Date_now rt - ETFCacheEntry.lastUpdated entry)).
    + rewrite map_filter_insert_True by done.
      rewrite map_size_insert_None by (by rewrite map_lookup_filter_None; left).
      f_equal; [|lia].
      apply map_eq. intros k. rewrite lookup_difference.
      destruct (decide (k = symbol)) as [->|Hne].
      * by rewrite lookup_delete_eq, lookup_insert_eq.
      * by rewrite lookup_delete_ne, lookup_insert_ne, lookup_difference.
    + rewrite map_filter_insert_False by (unfold older_than; cbn; lia).
      by rewrite delete_id.
Qed.

Lemma difference_filter_complement rt maxAge
    (cache : gmap string (ETFCacheEntry.t num)) :
  cache ∖ filter (older_than rt maxAge) cache
  = filter (λ kv, ¬ older_than rt maxAge kv) cache.
Proof.
  apply map_eq. intros k. rewrite lookup_difference.
  destruct (cache !! k) as [entry|] eqn:Hk.
  - destruct (decide (older_than rt maxAge (k, entry))) as [Ho|Ho].
    + rewrite (map_lookup_filter_Some_2 _ _ _ _ Hk Ho).
      symmetry. apply map_lookup_filter_None. right. intros e He. cbn.
      rewrite Hk in He. injection He as <-. tauto.
    + rewrite (proj2 (map_lookup_filter_None _ _ _)).
      * symmetry. by apply map_lookup_filter_Some.
      * right. intros e He. rewrite Hk in He. by injection He as <-.
  - rewrite (proj2 (map_lookup_filter_None _ _ _)) by (by left).
    symmetry. apply map_lookup_filter_None. by left.
Qed.

Lemma size_filter_complement rt maxAge
    (cache : gmap string (ETFCacheEntry.t num)) :
  size cache
  = (size (filter (older_than rt maxAge) cache)
     + size (filter (λ kv, ¬ older_than rt maxAge kv) cache))%nat.
Proof.
  rewrite <- map_size_disj_union by apply map_disjoint_filter_complement.
  by rewrite map_filter_union_complement.
Qed.

Lemma pruneStaleCache_kept rt maxAge
    (store : LocalStorage.t (gmap string (ETFCacheEntry.t num))) :
  getPriceCache (pruneStaleCache rt maxAge store).2
  = filter (λ kv, ¬ older_than rt maxAge kv) (getPriceCache store).
Proof.
  unfold pruneStaleCache. rewrite prune_fold. cbn [snd].
  rewrite (difference_filter_complement rt maxAge (getPriceCache store)).
  set (cache := getPriceCache store).
  set (n := Z.of_nat (size (filter (older_than rt maxAge) cache))).
  destruct (Z.ltb_spec 0 n) as [Hn|Hn].
  - rewrite getPriceCache_savePriceCache.
    destruct (LocalStorage.available store) eqn:E; [done|].
    subst cache.
    by rewrite (getPriceCache_unavailable _ E), map_filter_empty.
  - assert (Hz : size (filter (older_than rt maxAge) cache) = 0%nat)
      by (subst n; lia).
    apply map_size_empty_inv in Hz.
    subst cache. rewrite <- difference_filter_complement, Hz.
    apply map_eq. intros k.
    by rewrite lookup_difference, lookup_empty.
Qed.

(** X1. [pruneStaleCache] keeps exactly the entries whose age is at most
    [maxAge] and returns the number of entries it removed; pruning again at
    the same time removes nothing and leaves the storage untouched. *)
Theorem pruneStaleCache_spec (rt : Runtime) (maxAge : Z)
    (store : LocalStorage.t (gmap string (ETFCacheEntry.t num))) :
  let cache := getPriceCache store in
  let kept := filter (λ kv, ¬ older_than rt maxAge kv) cache in
  let '(removedCount, store') := pruneStaleCache rt maxAge store in
  getPriceCache store' = kept
  ∧ removedCount = Z.of_nat (size cache) - Z.of_nat (size kept)
  ∧ (∀ symbol entry,
       getPriceCache store' !! symbol = Some entry ↔
       cache !! symbol = Some entry
       ∧ Date_now rt - ETFCacheEntry.lastUpdated entry <= maxAge)
  ∧ pruneStaleCache rt maxAge store' = (0, store').
Proof.
  cbv zeta. unfold pruneStaleCache at 1.
  rewrite prune_fold.
  rewrite (difference_filter_complement rt maxAge (getPriceCache store)).
  set (cache := getPriceCache store).
  set (kept := filter (λ kv, ¬ older_than rt maxAge kv) cache).
  set (n := Z.of_nat (size (filter (older_than rt maxAge) cache))).
  assert (Hkept :
    getPriceCache (if 0 <? n then savePriceCache kept store else store) = kept).
  { destruct (Z.ltb_spec 0 n) as [Hn|Hn].
    - rewrite getPriceCache_savePriceCache.
      destruct (LocalStorage.available store) eqn:E; [done|].
      subst kept cache.
      by rewrite (getPriceCache_unavailable _ E), map_filter_empty.
    - assert (Hz : size (filter (older_than rt maxAge) cache) = 0%nat)
        by (subst n; lia).
      apply map_size_empty_inv in Hz.
      subst kept cache. rewrite <- difference_filter_complement, Hz.
      apply map_eq. intros k.
      by rewrite lookup_difference, lookup_empty. }
  split; [done|]. split.
  { subst n. rewrite (size_filter_complement rt maxAge cache). fold kept. lia. }
  split.
  { intros symbol entry. rewrite Hkept. unfold kept.
    rewrite map_lookup_filter_Some. unfold older_than. cbn.
    split; (intros [? ?]; split; [done|lia]). }
  unfold pruneStaleCache. rewrite Hkept, prune_fold.
  assert (Hnone : filter (older_than rt maxAge) kept = ∅).
  { apply map_empty_filter_2. intros k e Hk.
    unfold kept in Hk. apply map_lookup_filter_Some in Hk as [_ Hk]. exact Hk. }
  rewrite Hnone, map_size_empty. cbn. done.
Qed.


Lemma stats_fold rt (cache : gmap string (ETFCacheEntry.t num)) :
  map_fold
    (λ symbol entry '(staleCount, freshCount),
       if getCurrentCacheTTL rt <? Date_now rt - ETFCacheEntry.lastUpdated entry
       then (staleCount + 1, freshCount)
       else (staleCount, freshCount + 1))
    (0, 0) cache
  = (Z.of_nat (size (filter (older_than rt (getCurrentCacheTTL rt)) cache)),
     Z.of_nat
       (size (filter (λ kv, ¬ older_than rt (getCurrentCacheTTL rt) kv) cache))).
Proof.
  set (ttl := getCurrentCacheTTL rt).
  apply (map_fold_weak_ind (λ r m,
    r = (Z.of_nat (size (filter (older_than rt ttl) m)),
         Z.of_nat (size (filter (λ kv, ¬ older_than rt ttl kv) m))))).
  - by rewrite !map_filter_empty, map_size_empty.
  - intros symbol entry m [s f] Hnone [= -> ->].
    destruct (Z.ltb_spec ttl (Date_now rt - ETFCacheEntry.lastUpdated entry)).
    + rewrite map_filter_insert_True by done.
      rewrite map_filter_insert_False by (unfold older_than; cbn; lia).
      rewrite map_size_insert_None by (by rewrite map_lookup_filter_None; left).
      rewrite delete_id by done. f_equal. lia.
    + rewrite map_filter_insert_False by (unfold older_than; cbn; lia).
      rewrite map_filter_insert_True by (unfold older_than; cbn; lia).
      rewrite map_size_insert_None by (by rewrite map_lookup_filter_None; left).
      rewrite delete_id by done. f_equal. lia.
Qed.

(** X2. The statistics of the cache add up: every entry is counted either as
    stale or as fresh, the stale ones are those older than the time to live
    in force, and [symbols] lists the cached symbols, each once. *)
Theorem getCacheStats_counts (rt : Runtime)
    (store : LocalStorage.t (gmap string (ETFCacheEntry.t num))) :
  let stats := getCacheStats rt store in
  let cache := getPriceCache store in
  CacheStats.totalEntries stats
    = CacheStats.staleEntries stats + CacheStats.freshEntries stats
  ∧ CacheStats.totalEntries stats = Z.of_nat (size cache)
  ∧ CacheStats.staleEntries stats
    = Z.of_nat (size (filter (older_than rt (getCurrentCacheTTL rt)) cache))
  ∧ (∀ symbol, symbol ∈ CacheStats.symbols stats ↔ is_Some (cache !! symbol))
  ∧ NoDup (CacheStats.symbols stats).
Proof.
  cbv zeta. unfold getCacheStats. rewrite stats_fold. cbn.
  rewrite length_fmap, length_map_to_list.
  split; [|split; [done|split; [done|split]]].
  - rewrite (size_filter_complement rt (getCurrentCacheTTL rt)). lia.
  - intros symbol. rewrite list_elem_of_fmap. split.
    + intros ([k e] & -> & Hin). apply elem_of_map_to_list in Hin. by exists e.
    + intros [e He]. exists (symbol, e). split; [done|].
      by apply elem_of_map_to_list.
  - apply NoDup_fst_map_to_list.
Qed.

Lemma bulk_fold rt (priceData : list (ETFPriceData.t num))
    (store : LocalStorage.t (gmap string (ETFCacheEntry.t num))) :
  LocalStorage.available store = true →
  getPriceCache
    (fold_left (λ st data, updatePriceCache rt (ETFPriceData.symbol data) data st)
       priceData store)
  = fold_left
      (λ cache data,
         <[normalizeSymbol (ETFPriceData.symbol data) :=
             {| ETFCacheEntry.etf :=
                  {| ETF.symbol := normalizeSymbol (ETFPriceData.symbol data);
                     ETF.name := ""; ETF.exchange := None;
                     ETF.currency := "USD" |};
                ETFCacheEntry.currentPrice := ETFPriceData.currentPrice data;
                ETFCacheEntry.previousClose := ETFPriceData.previousClose data;
                ETFCacheEntry.lastUpdated := Date_now rt;
                ETFCacheEntry.ytdStartPrice :=
                  (ETFPriceData.currentPrice data
                   / (of_Z 1 + ETFPriceData.ytdChange data / of_Z 100))%num |}]>
           cache)
      priceData (getPriceCache store).
Proof.
  revert store. induction priceData as [|data ds IH]; intros store Hav; [done|].
  cbn [fold_left]. rewrite IH.
  - f_equal. unfold updatePriceCache.
    by rewrite getPriceCache_savePriceCache, Hav.
  - unfold updatePriceCache, savePriceCache, safeSetItem. by rewrite Hav.
Qed.

Lemma updatePriceCache_unavailable rt symbol (data : ETFPriceData.t num)
    (store : LocalStorage.t (gmap string (ETFCacheEntry.t num))) :
  LocalStorage.available store = false →
  updatePriceCache rt symbol data store = store.
Proof.
  intros E. unfold updatePriceCache, savePriceCache, safeSetItem. by rewrite E.
Qed.

(** X3. [bulkUpdatePriceCache] caches what [updatePriceCache], called on the
    quotes one after the other at the same instant, would cache; with the
    storage unavailable both cache nothing. *)
Theorem bulkUpdatePriceCache_sequence (rt : Runtime)
    (priceData : list (ETFPriceData.t num))
    (store : LocalStorage.t (gmap string (ETFCacheEntry.t num))) :
  getPriceCache (bulkUpdatePriceCache rt priceData store)
  = getPriceCache
      (fold_left
         (λ st data, updatePriceCache rt (ETFPriceData.symbol data) data st)
         priceData store).
Proof.
  unfold bulkUpdatePriceCache. rewrite getPriceCache_savePriceCache.
  destruct (LocalStorage.available store) eqn:E.
  - by rewrite bulk_fold.
  - assert (Hfold :
      fold_left
        (λ st data, updatePriceCache rt (ETFPriceData.symbol data) data st)
        priceData store = store).
    { induction priceData as [|data ds IH]; [done|]. cbn [fold_left].
      by rewrite updatePriceCache_unavailable. }
    by rewrite Hfold, getPriceCache_unavailable.
Qed.

(** X4. After [removeCacheEntry] the symbol has no cached price and counts as
    stale; the cached price of every symbol with another normalized form is
    what it was. *)
Theorem removeCacheEntry_spec (rt : Runtime) (symbol : string)
    (store : LocalStorage.t (gmap string (ETFCacheEntry.t num))) :
  let store' := removeCacheEntry symbol store in
  getCachedPrice rt symbol store' = None
  ∧ isCacheStale rt symbol store' = true
  ∧ ∀ other,
      normalizeSymbol other ≠ normalizeSymbol symbol →
      getCachedPrice rt other store' = getCachedPrice rt other store.
Proof.
  cbv zeta.
  assert (Hcache : getPriceCache (removeCacheEntry symbol store)
                   = delete (normalizeSymbol symbol) (getPriceCache store)).
  { unfold removeCacheEntry.
    destruct (getPriceCache store !! normalizeSymbol symbol) eqn:Hl.
    - rewrite getPriceCache_savePriceCache.
      destruct (LocalStorage.available store) eqn:E; [done|].
      by rewrite (getPriceCache_unavailable _ E), delete_empty.
    - by rewrite delete_id. }
  assert (Hnone : getCachedPrice rt symbol (removeCacheEntry symbol store) = None).
  { unfold getCachedPrice. by rewrite Hcache, lookup_delete_eq. }
  split; [done|]. split.
  - unfold isCacheStale. by rewrite Hnone.
  - intros other Hne. unfold getCachedPrice.
    by rewrite Hcache, lookup_delete_ne.
Qed.

(** X5. [updatePriceCache] changes the entry of its own symbol only: the answer
    of [getCachedPrice] for a symbol with another normalized form is the
    same before and after. *)
Theorem updatePriceCache_other_symbols (rt rt' : Runtime) (symbol other : string)
    (data : ETFPriceData.t num)
    (store : LocalStorage.t (gmap string (ETFCacheEntry.t num))) :
  normalizeSymbol other ≠ normalizeSymbol symbol →
  getCachedPrice rt' other (updatePriceCache rt symbol data store)
  = getCachedPrice rt' other store.
Proof.
  intros Hne. unfold getCachedPrice, updatePriceCache.
  rewrite getPriceCache_savePriceCache.
  destruct (LocalStorage.available store) eqn:E.
  - by rewrite lookup_insert_ne.
  - by rewrite (getPriceCache_unavailable _ E).
Qed.

(** X6. Without [localStorage] a write is lost: after [updatePriceCache] every
    symbol is still absent and stale.  The same holds of every symbol after
    [clearPriceCache]. *)
Theorem no_cache_always_stale (rt rt' : Runtime) (symbol : string)
    (store : LocalStorage.t (gmap string (ETFCacheEntry.t num))) :
  (LocalStorage.available store = false →
   ∀ written (data : ETFPriceData.t num),
     getCachedPrice rt symbol (updatePriceCache rt' written data store) = None
     ∧ isCacheStale rt symbol (updatePriceCache rt' written data store) = true)
  ∧ getCachedPrice rt symbol (clearPriceCache store) = None
  ∧ isCacheStale rt symbol (clearPriceCache store) = true.
Proof.
  assert (Hclear : getPriceCache (clearPriceCache store) = ∅).
  { unfold clearPriceCache, safeRemoveItem, getPriceCache, safeGetItem.
    destruct (LocalStorage.available store) eqn:E; cbn; by rewrite ?E. }
  split; [|split].
  - intros E written data. rewrite updatePriceCache_unavailable by done.
    unfold isCacheStale, getCachedPrice.
    by rewrite (getPriceCache_unavailable _ E), lookup_empty.
  - unfold getCachedPrice. by rewrite Hclear, lookup_empty.
  - unfold isCacheStale, getCachedPrice. by rewrite Hclear, lookup_empty.
Qed.

(** X7. Whatever the session, a cached entry that is at most 5 minutes old is
    fresh and an entry more than 60 minutes old is stale. *)
Theorem staleness_bounds (rt : Runtime) (symbol : string)
    (store : LocalStorage.t (gmap string (ETFCacheEntry.t num)))
    (entry : ETFCacheEntry.t num) :
  getPriceCache store !! normalizeSymbol symbol = Some entry →
  (Date_now rt - ETFCacheEntry.lastUpdated entry <= 5 * msPerMinute →
   isCacheStale rt symbol store = false)
  ∧ (60 * msPerMinute < Date_now rt - ETFCacheEntry.lastUpdated entry →
     isCacheStale rt symbol store = true).
Proof.
  intros Hentry. unfold isCacheStale.
  rewrite (getCachedPrice_lookup _ _ _ _ Hentry).
  pose proof (getCurrentCacheTTL_cases rt) as Httl.
  unfold CACHE_TTL_MARKET_HOURS, CACHE_TTL_AFTER_HOURS, CACHE_TTL_CLOSED,
    msPerMinute in *.
  split; intros Hage.
  - apply bool_decide_eq_false_2. lia.
  - apply bool_decide_eq_true_2. lia.
Qed.

End cache_maintenance.

(** ** Symbols *)

Section symbols.

Lemma append_cons (c : ascii) (a b : string) :
  String c a +:+ b = String c (a +:+ b).
Proof. done. Qed.

Lemma append_nil_r (s : string) : s +:+ "" = s.
Proof. induction s as [|c s IH]; [done|]. by rewrite append_cons, IH. Qed.

Lemma append_assoc (a b c : string) : (a +:+ b) +:+ c = a +:+ (b +:+ c).
Proof. induction a as [|x a IH]; [done|]. by rewrite !append_cons, IH. Qed.

Lemma rev_app_append (s acc : string) :
  String.rev_app s acc = String.rev s +:+ acc.
Proof.
  unfold String.rev. revert acc.
  induction s as [|c s IH]; intros acc; [done|]. cbn [String.rev_app].
  rewrite (IH (String c acc)), (IH (String c "")).
  by rewrite append_assoc.
Qed.

Lemma rev_cons (c : ascii) (s : string) :
  String.rev (String c s) = String.rev s +:+ String c "".
Proof. unfold String.rev at 1. cbn [String.rev_app]. apply rev_app_append. Qed.

Lemma rev_append (a b : string) :
  String.rev (a +:+ b) = String.rev b +:+ String.rev a.
Proof.
  induction a as [|c a IH].
  - by rewrite append_nil_r.
  - by rewrite append_cons, !rev_cons, IH, append_assoc.
Qed.

Lemma rev_involutive (s : string) : String.rev (String.rev s) = s.
Proof.
  induction s as [|c s IH]; [done|].
  by rewrite rev_cons, rev_append, IH.
Qed.


Lemma trimStart_clean (s : string) : starts_clean (trimStart s).
Proof.
  induction s as [|c s IH]; cbn; [done|].
  by destruct (Ascii.is_space c) eqn:E.
Qed.

Lemma trimStart_id (s : string) : starts_clean s → trimStart s = s.
Proof. destruct s as [|c s]; cbn; [done|]. by intros ->. Qed.

Lemma trimStart_suffix (s : string) : ∃ w, s = w +:+ trimStart s.
Proof.
  induction s as [|c s [w IH]]; cbn [trimStart].
  - by exists "".
  - destruct (Ascii.is_space c).
    + exists (String c w). by rewrite append_cons, <- IH.
    + by exists "".
Qed.

Lemma starts_clean_prefix (a b : string) :
  starts_clean (a +:+ b) → starts_clean a.
Proof. by destruct a. Qed.

Lemma trim_clean (s : string) :
  starts_clean (trim s) ∧ starts_clean (String.rev (trim s)).
Proof.
  unfold trim. set (t := trimStart s).
  rewrite rev_involutive. split; [|apply trimStart_clean].
  destruct (trimStart_suffix (String.rev t)) as [w Hw].
  apply (starts_clean_prefix _ (String.rev w)).
  rewrite <- rev_append, <- Hw, rev_involutive. apply trimStart_clean.
Qed.

Lemma trim_id (s : string) :
  starts_clean s → starts_clean (String.rev s) → trim s = s.
Proof.
  intros H1 H2. unfold trim.
  by rewrite (trimStart_id s H1), (trimStart_id _ H2), rev_involutive.
Qed.

Lemma trim_idempotent (s : string) : trim (trim s) = trim s.
Proof. apply trim_id; apply trim_clean. Qed.

Lemma toUpperCase_ascii_space (c : ascii) :
  Ascii.is_space (toUpperCase_ascii c) = Ascii.is_space c.
Proof. by destruct c as [[] [] [] [] [] [] [] []]. Qed.

Lemma toUpperCase_ascii_idempotent (c : ascii) :
  toUpperCase_ascii (toUpperCase_ascii c) = toUpperCase_ascii c.
Proof. by destruct c as [[] [] [] [] [] [] [] []]. Qed.

Lemma toUpperCase_idempotent (s : string) :
  toUpperCase (toUpperCase s) = toUpperCase s.
Proof.
  induction s as [|c s IH]; cbn; [done|].
  by rewrite toUpperCase_ascii_idempotent, IH.
Qed.

Lemma toUpperCase_append (a b : string) :
  toUpperCase (a +:+ b) = toUpperCase a +:+ toUpperCase b.
Proof.
  induction a as [|c a IH]; [done|].
  rewrite append_cons. cbn [toUpperCase]. by rewrite append_cons, IH.
Qed.

Lemma toUpperCase_rev (s : string) :
  toUpperCase (String.rev s) = String.rev (toUpperCase s).
Proof.
  induction s as [|c s IH]; [done|]. cbn [toUpperCase].
  by rewrite !rev_cons, toUpperCase_append, IH.
Qed.

Lemma toUpperCase_trimStart (s : string) :
  toUpperCase (trimStart s) = trimStart (toUpperCase s).
Proof.
  induction s as [|c s IH]; cbn [toUpperCase trimStart]; [done|].
  rewrite toUpperCase_ascii_space. by destruct (Ascii.is_space c).
Qed.

Lemma toUpperCase_trim (s : string) :
  toUpperCase (trim s) = trim (toUpperCase s).
Proof.
  unfold trim.
  by rewrite toUpperCase_rev, toUpperCase_trimStart, toUpperCase_rev,
             toUpperCase_trimStart.
Qed.

Lemma normalizeSymbol_normalizeSymbol (symbol : string) :
  normalizeSymbol (normalizeSymbol symbol) = normalizeSymbol symbol.
Proof.
  unfold normalizeSymbol.
  by rewrite toUpperCase_trim, toUpperCase_idempotent, trim_idempotent.
Qed.

End symbols.

Section normalized_symbols.
Local Open Scope Z_scope.
Context {num : Type} `{!Arith num}.

(** X8. Normalizing a symbol ([toUpperCase] then [trim]) twice is normalizing
    it once, so the cache lookups and [getPurchasesByETF] answer the same for
    a symbol and for its normalized form. *)
Theorem normalizeSymbol_idempotent (symbol : string) :
  normalizeSymbol (normalizeSymbol symbol) = normalizeSymbol symbol
  ∧ (∀ rt (store : LocalStorage.t (gmap string (ETFCacheEntry.t num))),
       getCachedPrice rt (normalizeSymbol symbol) store
       = getCachedPrice rt symbol store
       ∧ getCacheEntry (normalizeSymbol symbol) store
         = getCacheEntry symbol store)
  ∧ (∀ portfolio : Portfolio.t num,
       getPurchasesByETF portfolio (normalizeSymbol symbol)
       = getPurchasesByETF portfolio symbol).
Proof.
  pose proof (normalizeSymbol_normalizeSymbol symbol) as H.
  split; [done|]. split.
  - intros rt store. unfold getCachedPrice, getCacheEntry. by rewrite H.
  - intros portfolio. unfold getPurchasesByETF. by rewrite H.
Qed.

Lemma keys_normalized_insert {V} (cache : gmap string V) symbol v :
  keys_normalized cache →
  keys_normalized (<[normalizeSymbol symbol := v]> cache).
Proof.
  intros Hk s. destruct (decide (s = normalizeSymbol symbol)) as [->|Hne].
  - intros _. apply normalizeSymbol_normalizeSymbol.
  - rewrite lookup_insert_ne by done. apply Hk.
Qed.

Lemma keys_normalized_subseteq {V} (cache cache' : gmap string V) :
  cache' ⊆ cache → keys_normalized cache → keys_normalized cache'.
Proof.
  intros Hsub Hk s [v Hs]. apply Hk. exists v.
  by eapply lookup_weaken.
Qed.

Lemma keys_normalized_empty {V} : keys_normalized (∅ : gmap string V).
Proof. intros s [v Hs]. by rewrite lookup_empty in Hs. Qed.

Lemma keys_normalized_saved (cache : gmap string (ETFCacheEntry.t num))
    (store : LocalStorage.t (gmap string (ETFCacheEntry.t num))) :
  keys_normalized cache →
  keys_normalized (getPriceCache (savePriceCache cache store)).
Proof.
  intros Hk. rewrite getPriceCache_savePriceCache.
  destruct (LocalStorage.available store); [done|apply keys_normalized_empty].
Qed.

(** X9. The operations of the cache service keep the keys of the cache
    normalized; in such a cache every symbol listed by [getCacheStats] is
    found by [getCacheEntry] and [getCachedPrice]. *)
Theorem cache_keys_normalized (rt : Runtime)
    (store : LocalStorage.t (gmap string (ETFCacheEntry.t num))) :
  keys_normalized (getPriceCache store) →
  (∀ symbol data,
     keys_normalized (getPriceCache (updatePriceCache rt symbol data store)))
  ∧ (∀ priceData,
       keys_normalized
         (getPriceCache (bulkUpdatePriceCache rt priceData store)))
  ∧ (∀ symbol,
       keys_normalized (getPriceCache (removeCacheEntry symbol store)))
  ∧ (∀ maxAge,
       keys_normalized (getPriceCache (pruneStaleCache rt maxAge store).2))
  ∧ keys_normalized (getPriceCache (clearPriceCache store))
  ∧ ∀ symbol, symbol ∈ CacheStats.symbols (getCacheStats rt store) →
      is_Some (getCacheEntry symbol store)
      ∧ is_Some (getCachedPrice rt symbol store).
Proof.
  intros Hk. split; [|split; [|split; [|split; [|split]]]].
  - intros symbol data. unfold updatePriceCache.
    by apply keys_normalized_saved, keys_normalized_insert.
  - intros priceData. unfold bulkUpdatePriceCache.
    apply keys_normalized_saved.
    revert Hk. generalize (getPriceCache store) as cache.
    induction priceData as [|data ds IH]; intros cache Hk; [done|].
    cbn [fold_left]. by apply IH, keys_normalized_insert.
  - intros symbol. unfold removeCacheEntry.
    destruct (getPriceCache store !! normalizeSymbol symbol); [|done].
    apply keys_normalized_saved.
    eapply keys_normalized_subseteq; [apply delete_subseteq|done].
  - intros maxAge.
    rewrite pruneStaleCache_kept.
    eapply keys_normalized_subseteq; [apply map_filter_subseteq|done].
  - unfold clearPriceCache, safeRemoveItem, getPriceCache, safeGetItem.
    destruct (LocalStorage.available store) eqn:E; cbn; rewrite ?E;
      apply keys_normalized_empty.
  - intros symbol Hin.
    assert (Hsome : is_Some (getPriceCache store !! symbol)).
    { unfold getCacheStats in Hin.
      destruct (map_fold _ _ _) as [a b]. cbn [CacheStats.symbols] in Hin.
      apply list_elem_of_fmap in Hin as ([k e] & -> & Hin).
      apply elem_of_map_to_list in Hin. by exists e. }
    unfold getCacheEntry, getCachedPrice. rewrite (Hk symbol Hsome).
    split; [done|]. destruct Hsome as [e ->]. by eexists.
Qed.

End normalized_symbols.

Section purchases_by_symbol.

(** X10. A purchase added with [addPurchase] carries the generated id and is
    filed last under the symbol typed in the form, whatever its case and
    surrounding blanks; the purchases found under other symbols are the same
    as before. *)
Theorem addPurchase_getPurchasesByETF (rt : Runtime)
    (store store' : LocalStorage.t (Portfolio.t number))
    (portfolio added : Portfolio.t number) (data : PurchaseFormData.t) :
  addPurchase rt store portfolio data = Ok (added, store') →
  ∃ purchase,
    Portfolio.purchases added = Portfolio.purchases portfolio ++ [purchase]
    ∧ Purchase.id purchase = generateId rt
    ∧ getPurchasesByETF added (PurchaseFormData.etfSymbol data)
      = getPurchasesByETF portfolio (PurchaseFormData.etfSymbol data)
        ++ [purchase]
    ∧ ∀ other,
        normalizeSymbol other
          ≠ normalizeSymbol (PurchaseFormData.etfSymbol data) →
        getPurchasesByETF added other = getPurchasesByETF portfolio other.
Proof.
  unfold addPurchase. intros H.
  destruct (savePortfolio _ _ _) as [s|e]; [|done].
  cbn [mbind result_bind] in H. injection H as <- <-.
  eexists. split; [reflexivity|]. split; [done|].
  unfold getPurchasesByETF. cbn [with_purchases Portfolio.purchases].
  split.
  - rewrite filter_app, filter_cons_True, filter_nil; [done|].
    cbn [Purchase.etfSymbol]. done.
  - intros other Hne.
    rewrite filter_app, filter_cons_False, filter_nil, app_nil_r; [done|].
    cbn [Purchase.etfSymbol]. done.
Qed.

End purchases_by_symbol.

(** ** The portfolio service *)

Section purchases_service.
Local Open Scope Z_scope.


Lemma savePortfolio_available {doc} `{!PortfolioDocument doc} rt
    (store : LocalStorage.t doc) (portfolio : doc) :
  savePortfolio rt store portfolio
  = if LocalStorage.available store
    then Ok (LocalStorage.mk true (Some (touch rt portfolio)))
    else Throw save_failure.
Proof.
  unfold savePortfolio, safeSetItem.
  by destruct (LocalStorage.available store).
Qed.

Lemma filter_all {A} (P : A → Prop) `{!∀ x, Decision (P x)} (l : list A) :
  Forall P l → filter P l = l.
Proof.
  induction 1 as [|x l Hx Hl IH]; [done|].
  by rewrite filter_cons_True, IH.
Qed.

(** X11. [deletePurchase] throws when no purchase has the id.  Otherwise, the
    storage being available, it returns the portfolio without the purchases
    of that id, the others in their order, with fewer purchases than before,
    the same portfolio id and a new [updatedAt]. *)
Theorem deletePurchase_spec (rt : Runtime)
    (store : LocalStorage.t (Portfolio.t number))
    (portfolio : Portfolio.t number) (id : string) :
  let purchases := Portfolio.purchases portfolio in
  (Forall (λ p, Purchase.id p ≠ id) purchases →
   deletePurchase rt store portfolio id
   = Throw (Error ("Purchase with ID " +:+ id +:+ " not found")))
  ∧ (Exists (λ p, Purchase.id p = id) purchases →
     LocalStorage.available store = true →
     ∃ updated store',
       deletePurchase rt store portfolio id = Ok (updated, store')
       ∧ Portfolio.purchases updated
         = filter (λ p, Purchase.id p ≠ id) purchases
       ∧ Forall (λ p, Purchase.id p ≠ id) (Portfolio.purchases updated)
       ∧ (length (Portfolio.purchases updated) < length purchases)%nat
       ∧ Portfolio.purchases updated `sublist_of` purchases
       ∧ Portfolio.id updated = Portfolio.id portfolio
       ∧ Portfolio.updatedAt updated = Date_now rt).
Proof.
  cbv zeta. unfold deletePurchase. split.
  - intros Hall.
    rewrite (proj2 (list_find_None _ _)); [done|].
    eapply Forall_impl; [exact Hall|]. naive_solver.
  - intros Hex Hav.
    apply Exists_exists in Hex as (p & Hin & Hp).
    destruct (list_find_elem_of (λ p, Purchase.id p = id) _ p Hin Hp) as [r ->].
    rewrite savePortfolio_available, Hav. cbn [mbind result_bind].
    eexists _, _. split; [reflexivity|]. cbn [with_purchases Portfolio.purchases
      Portfolio.id Portfolio.updatedAt].
    split; [done|]. split.
    { apply Forall_forall. intros q Hq. by apply list_elem_of_filter in Hq as [? _]. }
    split.
    { apply (length_filter_lt _ _ p); [done|]. naive_solver. }
    split; [apply sublist_filter | done].
Qed.

(** X12. Adding a purchase, when the generated id is new, and deleting that id
    again gives back the list of purchases one started from. *)
Theorem deletePurchase_addPurchase (rt rt' : Runtime)
    (store : LocalStorage.t (Portfolio.t number))
    (portfolio : Portfolio.t number) (data : PurchaseFormData.t) :
  Forall (λ p, Purchase.id p ≠ generateId rt) (Portfolio.purchases portfolio) →
  LocalStorage.available store = true →
  ∃ added store1 restored store2,
    addPurchase rt store portfolio data = Ok (added, store1)
    ∧ length (Portfolio.purchases added)
      = S (length (Portfolio.purchases portfolio))
    ∧ deletePurchase rt' store1 added (generateId rt) = Ok (restored, store2)
    ∧ Portfolio.purchases restored = Portfolio.purchases portfolio.
Proof.
  intros Hfresh Hav. unfold addPurchase.
  rewrite savePortfolio_available, Hav. cbn [mbind result_bind].
  set (purchase := Purchase.mk _ _ _ _ _ _ _ _ _ _).
  assert (Hdel : ∃ restored store2,
    deletePurchase rt'
      (LocalStorage.mk true
         (Some (touch rt
            (with_purchases portfolio
               (Portfolio.purchases portfolio ++ [purchase]) (Date_now rt)))))
      (with_purchases portfolio (Portfolio.purchases portfolio ++ [purchase])
         (Date_now rt))
      (generateId rt) = Ok (restored, store2)
    ∧ Portfolio.purchases restored = Portfolio.purchases portfolio).
  { unfold deletePurchase. cbn [with_purchases Portfolio.purchases].
    destruct (list_find_elem_of (λ p, Purchase.id p = generateId rt)
                (Portfolio.purchases portfolio ++ [purchase]) purchase)
      as [r ->]; [set_solver | done |].
    rewrite savePortfolio_available.
    cbn [LocalStorage.available mbind result_bind].
    eexists _, _. split; [reflexivity|]. cbn [Portfolio.purchases].
    rewrite filter_app, filter_all by done.
    rewrite filter_cons_False, filter_nil, app_nil_r; [done|].
    intros H. by apply H. }
  destruct Hdel as (restored & store2 & Hdel & Hsame).
  eexists _, _, restored, store2. split; [reflexivity|].
  split; [cbn; rewrite length_app; cbn; lia|]. done.
Qed.

(** X13. [updatePurchase] throws when no purchase has the id.  When it returns,
    the list has the same length, the same ids and creation times in the
    same places; the purchase edited is the first one with the id, it keeps
    that id and gets a new [updatedAt]; every other position is untouched. *)
Theorem updatePurchase_preserves (rt : Runtime)
    (store : LocalStorage.t (Portfolio.t number))
    (portfolio : Portfolio.t number) (id : string)
    (data : PartialPurchaseFormData.t) :
  let purchases := Portfolio.purchases portfolio in
  (Forall (λ p, Purchase.id p ≠ id) purchases →
   updatePurchase rt store portfolio id data
   = Throw (Error ("Purchase with ID " +:+ id +:+ " not found")))
  ∧ ∀ updated store',
      updatePurchase rt store portfolio id data = Ok (updated, store') →
      length (Portfolio.purchases updated) = length purchases
      ∧ Purchase.id <$> Portfolio.purchases updated = Purchase.id <$> purchases
      ∧ Purchase.createdAt <$> Portfolio.purchases updated
        = Purchase.createdAt <$> purchases
      ∧ ∃ purchaseIndex edited,
          Portfolio.purchases updated !! purchaseIndex = Some edited
          ∧ Purchase.id edited = id
          ∧ Purchase.updatedAt edited = Date_now rt
          ∧ (∀ q, q ∈ take purchaseIndex purchases → Purchase.id q ≠ id)
          ∧ ∀ j, j ≠ purchaseIndex →
              Portfolio.purchases updated !! j = purchases !! j.
Proof.
  cbv zeta. unfold updatePurchase. split.
  - intros Hall.
    rewrite (proj2 (list_find_None _ _)); [done|].
    eapply Forall_impl; [exact Hall|]. naive_solver.
  - intros updated store'.
    destruct (list_find _ _) as [[i existing]|] eqn:Hfind; [|done].
    apply list_find_Some in Hfind as (Hi & Hid & Hbefore).
    destruct (savePortfolio _ _ _) as [s|e]; cbn [mbind result_bind]; [|done].
    intros [= <- <-]. cbn [with_purchases Portfolio.purchases].
    split; [by rewrite length_insert|].
    split; [rewrite list_fmap_insert; cbn; apply list_insert_id;
            by rewrite list_lookup_fmap, Hi|].
    split; [rewrite list_fmap_insert; cbn; apply list_insert_id;
            by rewrite list_lookup_fmap, Hi|].
    eexists i, _. split.
    { apply list_lookup_insert_eq. by eapply lookup_lt_Some. }
    cbn. split; [done|]. split; [done|]. split.
    + intros q Hq. apply list_elem_of_lookup in Hq as [j Hj].
      apply lookup_take_Some in Hj as [Hj Hlt]. by apply (Hbefore j).
    + intros j Hne. by apply list_lookup_insert_ne.
Qed.

(** X14. [initializePortfolio] throws when the portfolio cannot be saved.
    Otherwise it returns an empty portfolio of the given name and current
    schema version, which [getPortfolio] then reads back (with the time of
    the save as [updatedAt]), and whose metrics are empty. *)
Theorem initializePortfolio_spec (rt : Runtime)
    (store : LocalStorage.t (Portfolio.t number))
    (name : string) :
  (LocalStorage.available store = false →
   initializePortfolio rt store name = Throw save_failure)
  ∧ (LocalStorage.available store = true → generateId rt ≠ "" →
     ∃ portfolio store',
       initializePortfolio rt store name = Ok (portfolio, store')
       ∧ getPortfolio store' = Some (touch rt portfolio)
       ∧ Portfolio.purchases portfolio = []
       ∧ Portfolio.name portfolio = name
       ∧ Portfolio.version portfolio = CURRENT_SCHEMA_VERSION
       ∧ ∀ priceData,
           PortfolioMetrics.holdings
             (calculatePortfolioMetrics rt portfolio priceData) = []
           ∧ PortfolioMetrics.totalInvested
               (calculatePortfolioMetrics rt portfolio priceData) = Fin 0).
Proof.
  unfold initializePortfolio. rewrite savePortfolio_available. split.
  - by intros ->.
  - intros -> Hid. cbn [mbind result_bind].
    eexists _, _. split; [reflexivity|]. split.
    + unfold getPortfolio, safeGetItem. cbn. by rewrite decide_False.
    + done.
Qed.

End purchases_service.

Section grouping.
Context {num : Type} `{!Arith num}.

Lemma groupBySymbol_get_from (purchases : list (Purchase.t num)) m symbol :
  default [] (Map_get symbol
    (fold_left
       (λ purchasesBySymbol purchase,
          Map_set (Purchase.etfSymbol purchase)
            (default [] (Map_get (Purchase.etfSymbol purchase) purchasesBySymbol)
             ++ [purchase]) purchasesBySymbol) purchases m))
  = default [] (Map_get symbol m)
    ++ filter (λ p, Purchase.etfSymbol p = symbol) purchases.
Proof.
  revert m. induction purchases as [|p ps IH]; intros m; cbn [fold_left].
  - by rewrite filter_nil, app_nil_r.
  - rewrite IH. destruct (decide (Purchase.etfSymbol p = symbol)) as [<-|Hne].
    + rewrite Map_get_set_eq, filter_cons_True by done. cbn.
      by rewrite <- app_assoc.
    + by rewrite Map_get_set_ne, filter_cons_False.
Qed.

Lemma groupBySymbol_nonempty (purchases : list (Purchase.t num)) symbol :
  Map_get symbol (groupBySymbol purchases) ≠ Some [].
Proof.
  unfold groupBySymbol.
  assert (Hinv : ∀ (ps : list (Purchase.t num)) m,
    (∀ k, Map_get k m ≠ Some []) →
    ∀ k, Map_get k
      (fold_left
         (λ purchasesBySymbol purchase,
            Map_set (Purchase.etfSymbol purchase)
              (default [] (Map_get (Purchase.etfSymbol purchase)
                             purchasesBySymbol) ++ [purchase])
              purchasesBySymbol) ps m) ≠ Some []).
  { induction ps as [|p ps IH]; intros m Hm k; cbn [fold_left]; [apply Hm|].
    apply IH. intros k'.
    destruct (decide (Purchase.etfSymbol p = k')) as [<-|Hne].
    - rewrite Map_get_set_eq. intros [= Heq].
      by apply app_eq_nil in Heq as [_ ?].
    - rewrite Map_get_set_ne by done. apply Hm. }
  by apply Hinv.
Qed.

Lemma groupBySymbol_get (purchases : list (Purchase.t num)) symbol :
  default [] (Map_get symbol (groupBySymbol purchases))
  = filter (λ p, Purchase.etfSymbol p = symbol) purchases.
Proof. apply (groupBySymbol_get_from purchases [] symbol). Qed.

(** X15. The group that the metrics engine forms for a symbol is the list that
    [getPurchasesByETF] returns for it; the engine has no group for a symbol
    exactly when that list is empty. *)
Theorem groupBySymbol_getPurchasesByETF (portfolio : Portfolio.t num)
    (symbol : string) :
  default [] (Map_get (normalizeSymbol symbol)
                (groupBySymbol (Portfolio.purchases portfolio)))
  = getPurchasesByETF portfolio symbol
  ∧ (Map_get (normalizeSymbol symbol)
       (groupBySymbol (Portfolio.purchases portfolio)) = None
     ↔ getPurchasesByETF portfolio symbol = []).
Proof.
  unfold getPurchasesByETF.
  pose proof (groupBySymbol_get (Portfolio.purchases portfolio)
                (normalizeSymbol symbol)) as H.
  pose proof (groupBySymbol_nonempty (Portfolio.purchases portfolio)
                (normalizeSymbol symbol)) as Hne.
  split; [exact H|]. rewrite <- H.
  destruct (Map_get _ _) as [group|]; cbn; [|done].
  split; [done|]. intros ->. done.
Qed.

End grouping.

(** ** Export and import *)

Section export_import.
Local Open Scope Z_scope.

Lemma Map_set_id {V} k (v : V) m : Map_get k m = Some v → Map_set k v m = m.
Proof.
  induction m as [|[k' v'] m IH]; cbn; [done|].
  destruct (decide (k' = k)) as [->|Hne].
  - by intros [= ->].
  - intros H. by rewrite IH.
Qed.

Lemma field_exportPortfolio rt props key :
  key ≠ "version" → key ≠ "exportedAt" →
  field (exportPortfolio rt (JObj props)) key = field (JObj props) key.
Proof.
  intros H1 H2. unfold exportPortfolio. cbn [field spread].
  by rewrite !Map_get_set_ne.
Qed.

Lemma or_else_truthy v fallback :
  js_truthy (Some fallback) = true →
  js_truthy (Some (or_else v fallback)) = true.
Proof.
  intros Hf. unfold or_else. destruct v as [j|]; [|done].
  by destruct (js_truthy (Some j)) eqn:E.
Qed.

Lemma or_else_Some j fallback :
  js_truthy (Some j) = true → or_else (Some j) fallback = j.
Proof. intros H. unfold or_else. by rewrite H. Qed.

Lemma string_checked (v : option json) :
  negb (js_truthy v) || negb (is_string v) = false →
  ∃ s, v = Some (JStr s) ∧ js_truthy v = true.
Proof.
  destruct v as [[|b|q|s|items|props]|]; cbn; try done.
  - by destruct b.
  - by destruct (Qeq_bool q 0).
  - intros H. exists s. split; [done|]. by destruct (bool_decide (s = "")).
Qed.

Lemma validatePurchase_object (p : json) :
  validatePurchase p = Ok () → ∃ props, p = JObj props.
Proof. destruct p; try done. by eexists. Qed.

Lemma validatePurchase_backfill now (p : json) :
  validatePurchase p = Ok () →
  validatePurchase (backfill_purchase now p) = Ok ().
Proof.
  intros H. destruct (validatePurchase_object p H) as [props ->].
  revert H. unfold validatePurchase, get_prop, backfill_purchase.
  cbn [field spread mbind result_bind].
  by rewrite !Map_get_set_ne.
Qed.

Lemma validatePurchases_backfill now (purchases : list json) :
  validatePurchases purchases = Ok () →
  validatePurchases (map (backfill_purchase now) purchases) = Ok ().
Proof.
  induction purchases as [|p ps IH]; [done|]. cbn [validatePurchases map].
  destruct (validatePurchase p) as [[]|] eqn:E; [|done].
  rewrite (validatePurchase_backfill _ _ E). exact IH.
Qed.

Lemma backfill_purchase_idempotent now now' (p : json) :
  js_truthy (Some now) = true →
  backfill_purchase now' (backfill_purchase now p) = backfill_purchase now p.
Proof.
  intros Hnow. unfold backfill_purchase at 1.
  rewrite field_backfill_createdAt, field_backfill_updatedAt.
  rewrite !or_else_Some by (by apply or_else_truthy).
  unfold backfill_purchase. cbn [spread]. f_equal.
  rewrite (Map_set_id "createdAt").
  - apply Map_set_id, Map_get_set_eq.
  - rewrite Map_get_set_ne by done. apply Map_get_set_eq.
Qed.

Lemma touch_json_idempotent rt (portfolio : json) :
  touch rt (touch rt portfolio) = touch rt portfolio.
Proof.
  unfold touch, json_document. cbn [spread]. f_equal.
  apply Map_set_id, Map_get_set_eq.
Qed.

(** X16. The two fields that [exportPortfolio] sets, [exportedAt] and [version],
    are not read by [importPortfolio]: the exported document is imported as
    the document it was made from. *)
Theorem importPortfolio_exportPortfolio (rt rt' : Runtime)
    (store : LocalStorage.t json) (props : list (string * json)) :
  importPortfolio rt' store (Some (exportPortfolio rt (JObj props)))
  = importPortfolio rt' store (Some (JObj props)).
Proof.
  unfold importPortfolio, validateImport.
  change (default JNull (Some ?x)) with x.
  rewrite !field_exportPortfolio by done.
  change (js_truthy (Some (exportPortfolio rt (JObj props)))) with true.
  change (js_truthy (Some (JObj props))) with true. cbn [negb].
  repeat (destruct (_ || _); [done|]).
  destruct (field (JObj props) "purchases") as [[| | | |purchases|]|]; try done.
  destruct (validatePurchases purchases); [|done].
  cbn [mbind result_bind]. by rewrite !field_exportPortfolio.
Qed.

(** Readable numbers stay readable through the import. *)
Lemma readable_field (v : json) key (w : json) :
  readable_numbers v = true → field v key = Some w →
  readable_numbers w = true.
Proof.
  destruct v as [| | | | |props]; try done. cbn [field readable_numbers].
  induction props as [|[k' v'] props IH]; cbn [Map_get forallb]; [done|].
  intros [Hv Hprops]%andb_prop. destruct (decide (k' = key)).
  - by intros [= <-].
  - by apply IH.
Qed.

Lemma readable_Map_set key (w : json) (props : list (string * json)) :
  readable_numbers w = true → readable_numbers (JObj props) = true →
  readable_numbers (JObj (Map_set key w props)) = true.
Proof.
  intros Hw. cbn [readable_numbers].
  induction props as [|[k' v'] props IH]; cbn [Map_set forallb].
  - intros _. cbn. by rewrite Hw.
  - intros [Hv Hprops]%andb_prop. destruct (decide (k' = key)).
    + cbn [forallb]. cbn. by rewrite Hw, Hprops.
    + cbn [forallb]. cbn. cbn in Hv. by rewrite Hv, IH.
Qed.

Lemma readable_spread (v : json) :
  readable_numbers v = true → readable_numbers (JObj (spread v)) = true.
Proof. by destruct v. Qed.

Lemma readable_or_else (v : json) key (fallback : json) :
  readable_numbers v = true → readable_numbers fallback = true →
  readable_numbers (or_else (field v key) fallback) = true.
Proof.
  intros Hv Hf. unfold or_else.
  destruct (field v key) as [w|] eqn:E; [|done].
  destruct (js_truthy (Some w)); [|done].
  by apply (readable_field v key).
Qed.

Lemma readable_backfill_purchase (now p : json) :
  readable_numbers now = true → readable_numbers p = true →
  readable_numbers (backfill_purchase now p) = true.
Proof.
  intros Hnow Hp. unfold backfill_purchase.
  apply readable_Map_set; [by apply readable_or_else|].
  apply readable_Map_set; [by apply readable_or_else|].
  by apply readable_spread.
Qed.

Lemma readable_touch rt (portfolio : json) :
  readable_numbers portfolio = true →
  readable_numbers (touch rt portfolio) = true.
Proof.
  intros H. unfold touch, json_document.
  apply readable_Map_set; [done|]. by apply readable_spread.
Qed.

Lemma readable_importPortfolio rt store store' (document portfolio : json) :
  readable_numbers document = true →
  importPortfolio rt store (Some document) = Ok (portfolio, store') →
  readable_numbers portfolio = true.
Proof.
  intros Hdoc. unfold importPortfolio.
  destruct (validateImport (Some document)) as [[data purchases]|] eqn:Hv;
    [|done].
  cbn [mbind result_bind]. rewrite savePortfolio_available.
  destruct (LocalStorage.available store); [|done].
  cbn [mbind result_bind]. intros [= <- _].
  unfold validateImport in Hv.
  change (default JNull (Some ?x)) with x in Hv.
  destruct (negb _); [done|].
  destruct (_ || _); [done|]. destruct (_ || _); [done|].
  destruct (field document "purchases")
    as [[| | | |items|]|] eqn:Hpurchases; try done.
  destruct (validatePurchases items); [|done].
  cbn [mbind result_bind] in Hv. injection Hv as <- <-.
  assert (Hitems : forallb readable_numbers items = true)
    by apply (readable_field document "purchases" (JArr items) Hdoc Hpurchases).
  cbn [readable_numbers forallb snd].
  repeat (apply andb_true_intro; split); try done.
  - destruct (field document "id") as [w|] eqn:E; [|done].
    by apply (readable_field document "id").
  - destruct (field document "name") as [w|] eqn:E; [|done].
    by apply (readable_field document "name").
  - rewrite forallb_forall in Hitems. apply forallb_forall.
    intros p [q [<- Hq]]%in_map_iff.
    apply readable_backfill_purchase; [done|]. by apply Hitems.
  - by apply readable_or_else.
  - by apply readable_or_else.
Qed.

(** X17. Exporting a portfolio that [importPortfolio] returned and importing
    the export returns it with only [updatedAt] renewed, and stores a
    document with the same fields outside [updatedAt]: time stamps once
    backfilled are kept.  This is for a document whose numbers
    [JSON.parse] reads as finite numbers, and what is returned is such a
    document again.  A literal beyond the binary64 range is read as
    [Infinity], which the export writes as [null]. *)
Theorem export_import_round_trip (rt0 rt rt' : Runtime)
    (store0 store1 : LocalStorage.t json) (document portfolio : json) :
  readable_numbers document = true →
  Date_toISOString rt0 (Date_now rt0) ≠ "" →
  importPortfolio rt0 store0 (Some document) = Ok (portfolio, store1) →
  ∃ store2 stored,
    importPortfolio rt' store1 (Some (exportPortfolio rt portfolio))
    = Ok (touch rt' portfolio, store2)
    ∧ safeGetItem store2 = Some stored
    ∧ readable_numbers (touch rt' portfolio) = true
    ∧ ∀ key, key ≠ "updatedAt" →
        field (touch rt' portfolio) key = field portfolio key
        ∧ field stored key = field portfolio key.
Proof.
  intros Hdocument Hiso Himport.
  assert (Hreadable : readable_numbers (touch rt' portfolio) = true)
    by (eapply readable_touch, readable_importPortfolio; eassumption).
  revert Hreadable.
  assert (Hnow : js_truthy
                   (Some (JStr (Date_toISOString rt0 (Date_now rt0)))) = true).
  { cbn. by rewrite bool_decide_eq_false_2. }
  unfold importPortfolio in Himport.
  destruct (validateImport (Some document)) as [[data purchases]|] eqn:Hv;
    [|done].
  cbn [mbind result_bind] in Himport.
  rewrite savePortfolio_available in Himport.
  destruct (LocalStorage.available store0); [|done].
  cbn [mbind result_bind] in Himport. injection Himport as <- <-.
  unfold validateImport in Hv.
  change (default JNull (Some ?x)) with x in *.
  destruct (negb (js_truthy (Some document))); [done|].
  destruct (negb (js_truthy (field document "id"))
            || negb (is_string (field document "id")))
    eqn:Hid; [done|].
  destruct (negb (js_truthy (field document "name"))
            || negb (is_string (field document "name")))
    eqn:Hname; [done|].
  destruct (field document "purchases")
    as [[| | | |items|]|] eqn:Hpurchases; try done.
  destruct (validatePurchases items) as [[]|] eqn:Hvalid; [|done].
  cbn [mbind result_bind] in Hv. injection Hv as <- <-.
  apply string_checked in Hid as (pid & Hid & Hid_truthy).
  apply string_checked in Hname as (name & Hname & Hname_truthy).
  rewrite Hid, Hname in *.
  change (default JNull (Some ?x)) with x.
  set (now0 := JStr (Date_toISOString rt0 (Date_now rt0))) in *.
  set (etfCache := or_else (field document "etfCache") (JObj [])).
  set (createdAt := or_else (field document "createdAt") now0).
  assert (HetfCache : js_truthy (Some etfCache) = true)
    by (by apply or_else_truthy).
  assert (HcreatedAt : js_truthy (Some createdAt) = true)
    by (by apply or_else_truthy).
  set (portfolio :=
    JObj [("id", JStr pid); ("name", JStr name);
          ("purchases", JArr (map (backfill_purchase now0) items));
          ("etfCache", etfCache); ("createdAt", createdAt);
          ("updatedAt", now0);
          ("version", JNum (inject_Z CURRENT_SCHEMA_VERSION))]).
  assert (Htouch : touch rt' portfolio
    = JObj [("id", JStr pid); ("name", JStr name);
            ("purchases", JArr (map (backfill_purchase now0) items));
            ("etfCache", etfCache); ("createdAt", createdAt);
            ("updatedAt", JStr (Date_toISOString rt' (Date_now rt')));
            ("version", JNum (inject_Z CURRENT_SCHEMA_VERSION))]) by done.
  assert (Hkept : ∀ key, key ≠ "updatedAt" →
            field (touch rt' portfolio) key = field portfolio key).
  { intros key Hkey. unfold touch, json_document. cbn [field spread].
    by rewrite Map_get_set_ne. }
  intros Hreadable.
  exists (LocalStorage.mk true (Some (touch rt' (touch rt' portfolio)))),
         (touch rt' (touch rt' portfolio)).
  split; [|split; [reflexivity|split; [exact Hreadable|]]].
  - assert (Hfield : ∀ key, key ≠ "version" → key ≠ "exportedAt" →
      field (exportPortfolio rt portfolio) key = field portfolio key)
      by (intros; by apply field_exportPortfolio).
    assert (Hfields :
      field portfolio "id" = Some (JStr pid)
      ∧ field portfolio "name" = Some (JStr name)
      ∧ field portfolio "purchases"
        = Some (JArr (map (backfill_purchase now0) items))
      ∧ field portfolio "etfCache" = Some etfCache
      ∧ field portfolio "createdAt" = Some createdAt) by done.
    destruct Hfields as (Fid & Fname & Fpurchases & FetfCache & FcreatedAt).
    unfold importPortfolio, validateImport.
    change (default JNull (Some ?x)) with x.
    change (js_truthy (Some (exportPortfolio rt portfolio))) with true.
    rewrite !Hfield by done.
    rewrite Fid, Fname, Fpurchases.
    rewrite Hid_truthy, Hname_truthy. cbn [negb orb is_string].
    rewrite (validatePurchases_backfill _ _ Hvalid).
    cbn [mbind result_bind].
    rewrite !Hfield by done.
    rewrite Fid, Fname, FetfCache, FcreatedAt.
    change (default JNull (Some ?x)) with x.
    rewrite !or_else_Some by done.
    rewrite map_map.
    rewrite (map_ext _ (backfill_purchase now0))
      by (intros p; by apply backfill_purchase_idempotent).
    rewrite savePortfolio_available. cbn [LocalStorage.available].
    cbn [mbind result_bind]. by rewrite <- Htouch.
  - intros key Hkey. split; [by apply Hkept|].
    rewrite touch_json_idempotent. by apply Hkept.
Qed.

End export_import.

(** ** The holdings of a portfolio *)

Section holdings_totals.
Local Open Scope R_scope.

Lemma sum_of_Permutation {A} (f : A → R) (xs ys : list A) :
  xs ≡ₚ ys → sum_of f xs = sum_of f ys.
Proof. induction 1; cbn; lra. Qed.

Lemma sum_of_zero {A} (xs : list A) : sum_of (λ _, 0) xs = 0.
Proof. induction xs; cbn; lra. Qed.

Lemma sum_of_filter {A} (P : A → Prop) `{!∀ x, Decision (P x)}
    (f : A → R) (xs : list A) :
  sum_of f (filter P xs) = sum_of (λ x, if decide (P x) then f x else 0) xs.
Proof.
  induction xs as [|x xs IH]; [done|].
  rewrite filter_cons. cbn [sum_of].
  destruct (decide (P x)); cbn [sum_of]; rewrite IH; lra.
Qed.

Lemma holdings_of_cons rt etfCache priceData total symbol
    (ps : list (Purchase.t R)) groups :
  holdings_of rt etfCache priceData total ((symbol, ps) :: groups)
  = match priceData !! symbol with
    | Some price =>
        [calculateETFHoldingMetrics rt ps (etfName_of etfCache symbol)
           (ETFPriceData.currentPrice price) total]
    | None => []
    end ++ holdings_of rt etfCache priceData total groups.
Proof.
  unfold holdings_of at 1. cbn [fold_left].
  rewrite holdings_of_fold. by destruct (priceData !! symbol).
Qed.

(** A field of the holdings that is a sum over the purchases of the
    holding adds up to the sum over the grouped purchases. *)
Lemma holdings_of_total rt etfCache priceData total
    (F : ETFHoldingMetrics.t R → R) (h : string → Purchase.t R → R)
    (groups : list (string * list (Purchase.t R))) :
  (∀ symbol quote ps, priceData !! symbol = Some quote →
     F (calculateETFHoldingMetrics rt ps (etfName_of etfCache symbol)
          (ETFPriceData.currentPrice quote) total)
     = sum_of (h symbol) ps) →
  (∀ symbol p, priceData !! symbol = None → h symbol p = 0) →
  sum_of F (holdings_of rt etfCache priceData total groups)
  = group_total h groups.
Proof.
  intros Hq Hn. unfold group_total.
  induction groups as [|[symbol ps] groups IH]; [done|].
  rewrite holdings_of_cons, sum_of_app, IH. cbn [sum_of fst snd].
  destruct (priceData !! symbol) as [quote|] eqn:E.
  - cbn [sum_of]. rewrite (Hq _ _ _ E). lra.
  - cbn [sum_of].
    rewrite (sum_of_ext (h symbol) (λ _, 0)) by (intros p; by apply Hn).
    rewrite sum_of_zero. lra.
Qed.

Lemma holding_currentValue rt (ps : list (Purchase.t R)) etfName price total :
  ETFHoldingMetrics.currentValue
    (calculateETFHoldingMetrics rt ps etfName price total)
  = sum_of (λ p, Purchase.shares p * price) ps.
Proof.
  destruct ps as [|p ps]; [done|].
  cbn [calculateETFHoldingMetrics ETFHoldingMetrics.currentValue].
  by rewrite reduce_sum_sum_of, sum_of_scale.
Qed.

Lemma holding_totalCostBasis rt (ps : list (Purchase.t R)) etfName price total :
  ETFHoldingMetrics.totalCostBasis
    (calculateETFHoldingMetrics rt ps etfName price total)
  = sum_of Purchase.totalCost ps.
Proof.
  destruct ps as [|p ps]; [done|].
  cbn [calculateETFHoldingMetrics ETFHoldingMetrics.totalCostBasis].
  by rewrite reduce_sum_sum_of.
Qed.

Lemma holding_totalGainLoss rt (ps : list (Purchase.t R)) etfName price total :
  ETFHoldingMetrics.totalGainLoss
    (calculateETFHoldingMetrics rt ps etfName price total)
  = sum_of (λ p, Purchase.shares p * price - Purchase.totalCost p) ps.
Proof.
  destruct ps as [|p ps]; [cbn; done|].
  cbn [calculateETFHoldingMetrics ETFHoldingMetrics.totalGainLoss].
  unfold calculateGainLoss. cbn [sub mul R_arith].
  by rewrite !reduce_sum_sum_of, sum_of_minus, sum_of_scale.
Qed.

Lemma holding_weightInPortfolio rt (ps : list (Purchase.t R)) etfName price total :
  ETFHoldingMetrics.weightInPortfolio
    (calculateETFHoldingMetrics rt ps etfName price total)
  = if decide (total = 0) then 0
    else sum_of (λ p, Purchase.shares p * price / total * 100) ps.
Proof.
  destruct ps as [|p ps]; [cbn; by destruct (decide _)|].
  cbn [calculateETFHoldingMetrics ETFHoldingMetrics.weightInPortfolio].
  unfold calculatePortfolioWeight. cbn [eqb of_Z mul div R_arith].
  rewrite reduce_sum_sum_of.
  case_bool_decide; destruct (decide _); try done.
  rewrite (sum_of_ext (λ p, Purchase.shares p * price / total * 100)
             (λ p, Purchase.shares p * (price / total * 100)))
    by (intros; lra).
  rewrite sum_of_scale. lra.
Qed.

(** X18. The holdings split the portfolio: their current values add up to the
    current value of the portfolio, their cost bases to the cost of the
    purchases that have a quote, so the total gain is the sum of the gains
    of the holdings less the cost of the purchases without a quote; the
    weights add up to 100 unless the current value is 0, when all are 0. *)
Theorem holdings_partition (rt : Runtime) (portfolio : Portfolio.t R)
    (priceData : gmap string (ETFPriceData.t R)) :
  let metrics := calculatePortfolioMetrics rt portfolio priceData in
  let holdings := PortfolioMetrics.holdings metrics in
  let quoted :=
    filter (λ p, is_Some (priceData !! Purchase.etfSymbol p))
           (Portfolio.purchases portfolio) in
  let unquoted :=
    filter (λ p, ¬ is_Some (priceData !! Purchase.etfSymbol p))
           (Portfolio.purchases portfolio) in
  sum_of ETFHoldingMetrics.currentValue holdings
    = PortfolioMetrics.currentValue metrics
  ∧ sum_of ETFHoldingMetrics.totalCostBasis holdings
    = sum_of Purchase.totalCost quoted
  ∧ PortfolioMetrics.totalGainLoss metrics
    = sum_of ETFHoldingMetrics.totalGainLoss holdings
      - sum_of Purchase.totalCost unquoted
  ∧ (PortfolioMetrics.currentValue metrics ≠ 0 →
     sum_of ETFHoldingMetrics.weightInPortfolio holdings = 100)
  ∧ (PortfolioMetrics.currentValue metrics = 0 →
     Forall (λ h, ETFHoldingMetrics.weightInPortfolio h = 0) holdings).
Proof.
  cbv zeta. unfold calculatePortfolioMetrics.
  destruct (length (Portfolio.purchases portfolio) =? 0)%nat eqn:Hlen.
  { apply Nat.eqb_eq, length_zero_iff_nil in Hlen. rewrite Hlen.
    cbn. repeat split; try lra. constructor. }
  cbn [PortfolioMetrics.holdings PortfolioMetrics.currentValue
       PortfolioMetrics.totalGainLoss].
  set (purchases := Portfolio.purchases portfolio).
  set (total := totalCurrentValue_of priceData (groupBySymbol purchases)).
  set (pushed := holdings_of rt (Portfolio.etfCache portfolio) priceData total
                   (groupBySymbol purchases)).
  assert (Hperm : Array_sort holdings_compare pushed ≡ₚ pushed)
    by (apply (Array_sort_perm ETFHoldingMetrics.currentValue); done).
  rewrite (sum_of_Permutation ETFHoldingMetrics.currentValue _ _ Hperm),
          (sum_of_Permutation ETFHoldingMetrics.totalCostBasis _ _ Hperm),
          (sum_of_Permutation ETFHoldingMetrics.totalGainLoss _ _ Hperm),
          (sum_of_Permutation ETFHoldingMetrics.weightInPortfolio _ _ Hperm).
  assert (Htotal : total = sum_of (quoted_value priceData) purchases)
    by apply totalCurrentValue_of_sum.
  assert (Hvalue : sum_of ETFHoldingMetrics.currentValue pushed = total).
  { unfold pushed.
    rewrite (holdings_of_total _ _ _ _ _ (value_in priceData)).
    - rewrite groupBySymbol_total. by rewrite Htotal.
    - intros symbol quote ps Hq. rewrite holding_currentValue.
      apply sum_of_ext. intros p. unfold value_in. by rewrite Hq.
    - intros symbol p Hq. unfold value_in. by rewrite Hq. }
  assert (Hcost : sum_of ETFHoldingMetrics.totalCostBasis pushed
                  = sum_of Purchase.totalCost
                      (filter (λ p, is_Some (priceData !! Purchase.etfSymbol p))
                              purchases)).
  { unfold pushed.
    rewrite (holdings_of_total _ _ _ _ _
               (λ symbol p, if decide (is_Some (priceData !! symbol))
                            then Purchase.totalCost p else 0)).
    - by rewrite groupBySymbol_total, sum_of_filter.
    - intros symbol quote ps Hq. rewrite holding_totalCostBasis.
      apply sum_of_ext. intros p. by rewrite Hq, decide_True.
    - intros symbol p Hq. rewrite Hq, decide_False; [done|].
      by intros [? ?]. }
  assert (Hgain : sum_of ETFHoldingMetrics.totalGainLoss pushed
                  = total
                    - sum_of Purchase.totalCost
                        (filter (λ p, is_Some (priceData !! Purchase.etfSymbol p))
                                purchases)).
  { unfold pushed.
    rewrite (holdings_of_total _ _ _ _ _
               (λ symbol p,
                  value_in priceData symbol p
                  - if decide (is_Some (priceData !! symbol))
                    then Purchase.totalCost p else 0)).
    - rewrite groupBySymbol_total, sum_of_minus, sum_of_filter, Htotal. done.
    - intros symbol quote ps Hq. rewrite holding_totalGainLoss.
      apply sum_of_ext. intros p. unfold value_in. by rewrite Hq, decide_True.
    - intros symbol p Hq. unfold value_in. rewrite Hq, decide_False; [lra|].
      by intros [? ?]. }
  assert (Hsplit : sum_of Purchase.totalCost purchases
                   = sum_of Purchase.totalCost
                       (filter (λ p, is_Some (priceData !! Purchase.etfSymbol p))
                               purchases)
                     + sum_of Purchase.totalCost
                         (filter (λ p, ¬ is_Some (priceData !! Purchase.etfSymbol p))
                                 purchases)).
  { rewrite !sum_of_filter. clear. induction purchases as [|p ps IH]; cbn [sum_of].
    - lra.
    - rewrite IH. destruct (decide (is_Some _)) as [Hs|Hs].
      + rewrite decide_False by tauto. lra.
      + rewrite decide_True by done. lra. }
  split; [done|]. split; [done|]. split.
  { unfold calculateGainLoss. cbn [sub R_arith].
    rewrite reduce_sum_sum_of, Hgain, Hsplit. lra. }
  split.
  - intros Hne. unfold pushed.
    rewrite (holdings_of_total _ _ _ _ _
               (λ symbol p, value_in priceData symbol p / total * 100)).
    + rewrite groupBySymbol_total.
      rewrite (sum_of_ext _ (λ p, quoted_value priceData p * (/ total * 100)))
        by (intros p; unfold quoted_value, value_in; lra).
      rewrite sum_of_scale, <- Htotal. by field.
    + intros symbol quote ps Hq. rewrite holding_weightInPortfolio.
      rewrite decide_False by done.
      apply sum_of_ext. intros p. unfold value_in. by rewrite Hq.
    + intros symbol p Hq. unfold value_in. rewrite Hq. lra.
  - intros Hz. rewrite Hperm. unfold pushed.
    generalize (groupBySymbol purchases). intros groups.
    induction groups as [|[symbol ps] groups IH]; [constructor|].
    rewrite holdings_of_cons. destruct (priceData !! symbol); [|exact IH].
    constructor; [|exact IH].
    rewrite holding_weightInPortfolio. by rewrite decide_True.
Qed.

End holdings_totals.

Section holdings_contents.
Local Open Scope R_scope.

Lemma first_occurrences_from (symbols seen : list string) :
  NoDup seen →
  NoDup (fold_left (λ seen s, if decide (s ∈ seen) then seen else seen ++ [s])
           symbols seen)
  ∧ ∀ s, s ∈ fold_left
               (λ seen s, if decide (s ∈ seen) then seen else seen ++ [s])
               symbols seen
         ↔ s ∈ seen ∨ s ∈ symbols.
Proof.
  revert seen. induction symbols as [|x xs IH]; intros seen Hnd; cbn [fold_left].
  - split; [done|]. intros s. rewrite elem_of_nil. tauto.
  - destruct (decide (x ∈ seen)) as [Hin|Hin].
    + destruct (IH seen Hnd) as [H1 H2]. split; [done|].
      intros s. rewrite H2, elem_of_cons. split; [tauto|].
      intros [?|[->|?]]; tauto.
    + assert (Hnd' : NoDup (seen ++ [x])).
      { apply NoDup_app. split; [done|]. split; [|apply NoDup_singleton].
        intros y Hy ->%list_elem_of_singleton. done. }
      destruct (IH _ Hnd') as [H1 H2]. split; [done|].
      intros s. rewrite H2, elem_of_app, list_elem_of_singleton, elem_of_cons.
      tauto.
Qed.

Lemma Map_get_elem_of {V} (m : list (string * V)) k v :
  NoDup (map fst m) → (k, v) ∈ m → Map_get k m = Some v.
Proof.
  induction m as [|[k' v'] m IH]; cbn [map fst Map_get].
  - by intros _ ?%elem_of_nil.
  - intros [Hk Hnd]%NoDup_cons [[= -> ->]|Hin]%elem_of_cons.
    + by rewrite decide_True.
    + rewrite decide_False; [by apply IH|].
      intros ->. apply Hk. apply list_elem_of_fmap. by exists (k, v).
Qed.

(** A group holds the purchases of its symbol, in the order of the
    portfolio, and is never empty. *)
Lemma groupBySymbol_entry (purchases : list (Purchase.t R)) symbol ps :
  (symbol, ps) ∈ groupBySymbol purchases →
  ps = filter (λ p, Purchase.etfSymbol p = symbol) purchases ∧ ps ≠ [].
Proof.
  intros Hin.
  assert (Hget : Map_get symbol (groupBySymbol purchases) = Some ps).
  { apply Map_get_elem_of; [|done]. rewrite groupBySymbol_keys.
    by apply first_occurrences_from, NoDup_nil. }
  pose proof (groupBySymbol_get purchases symbol) as H.
  pose proof (groupBySymbol_nonempty purchases symbol) as Hne.
  rewrite Hget in H, Hne. cbn in H. split; [done|]. by intros ->.
Qed.

Lemma elem_of_holdings_of rt etfCache priceData total
    (groups : list (string * list (Purchase.t R))) holding :
  holding ∈ holdings_of rt etfCache priceData total groups →
  ∃ symbol ps quote,
    (symbol, ps) ∈ groups ∧ priceData !! symbol = Some quote
    ∧ holding
      = calculateETFHoldingMetrics rt ps (etfName_of etfCache symbol)
          (ETFPriceData.currentPrice quote) total.
Proof.
  induction groups as [|[symbol ps] groups IH].
  - by intros ?%elem_of_nil.
  - rewrite holdings_of_cons, elem_of_app. intros [Hin|Hin].
    + destruct (priceData !! symbol) as [quote|] eqn:Hq.
      * apply list_elem_of_singleton in Hin. exists symbol, ps, quote.
        split; [left|done].
      * by apply elem_of_nil in Hin.
    + destruct (IH Hin) as (s & l & q & ? & ? & ?).
      exists s, l, q. split; [by right|done].
Qed.

(** X19. Every holding belongs to a symbol that has a quote, carries the price
    of that quote, and lists the metrics of exactly the purchases of its
    symbol, in the order of the portfolio, at least one; no two holdings
    share a symbol, and a purchase is covered by a holding exactly when its
    symbol has a quote. *)
Theorem holdings_contents (rt : Runtime) (portfolio : Portfolio.t R)
    (priceData : gmap string (ETFPriceData.t R)) :
  let purchases := Portfolio.purchases portfolio in
  let holdings :=
    PortfolioMetrics.holdings
      (calculatePortfolioMetrics rt portfolio priceData) in
  (∀ holding, holding ∈ holdings →
     ∃ quote,
       priceData !! ETFHoldingMetrics.etfSymbol holding = Some quote
       ∧ ETFHoldingMetrics.currentPrice holding
         = ETFPriceData.currentPrice quote
       ∧ ETFHoldingMetrics.purchases holding
         = map (λ p, calculatePurchaseMetrics rt p
                       (ETFPriceData.currentPrice quote))
             (filter (λ p, Purchase.etfSymbol p
                           = ETFHoldingMetrics.etfSymbol holding) purchases)
       ∧ ETFHoldingMetrics.purchases holding ≠ [])
  ∧ NoDup (map ETFHoldingMetrics.etfSymbol holdings)
  ∧ ∀ p, p ∈ purchases →
      (is_Some (priceData !! Purchase.etfSymbol p)
       ↔ Purchase.etfSymbol p ∈ map ETFHoldingMetrics.etfSymbol holdings).
Proof.
  cbv zeta. unfold calculatePortfolioMetrics.
  destruct (length (Portfolio.purchases portfolio) =? 0)%nat eqn:Hlen.
  { apply Nat.eqb_eq, length_zero_iff_nil in Hlen. rewrite Hlen.
    cbn [PortfolioMetrics.holdings map].
    split; [by intros ? ?%elem_of_nil|]. split; [apply NoDup_nil_2|].
    by intros ? ?%elem_of_nil. }
  cbn [PortfolioMetrics.holdings].
  set (purchases := Portfolio.purchases portfolio).
  set (total := totalCurrentValue_of priceData (groupBySymbol purchases)).
  set (pushed := holdings_of rt (Portfolio.etfCache portfolio) priceData total
                   (groupBySymbol purchases)).
  assert (Hperm : Array_sort holdings_compare pushed ≡ₚ pushed)
    by (apply (Array_sort_perm ETFHoldingMetrics.currentValue); done).
  assert (Hsymbols :
    map ETFHoldingMetrics.etfSymbol pushed
    = filter (λ s, is_Some (priceData !! s))
        (first_occurrences (map Purchase.etfSymbol purchases))).
  { unfold pushed.
    rewrite holdings_of_symbols by apply groupBySymbol_headed.
    by rewrite groupBySymbol_keys. }
  destruct (first_occurrences_from (map Purchase.etfSymbol purchases) []
              (NoDup_nil_2)) as [Hnd Hocc].
  fold (first_occurrences (map Purchase.etfSymbol purchases)) in Hnd, Hocc.
  split; [|split].
  - intros holding Hin. rewrite Hperm in Hin.
    apply elem_of_holdings_of in Hin
      as (symbol & ps & quote & Hgroup & Hq & ->).
    apply groupBySymbol_entry in Hgroup as [Hps Hne].
    destruct ps as [|first rest] eqn:E; [done|].
    assert (Hfirst : Purchase.etfSymbol first = symbol).
    { assert (Hin : first ∈ filter (λ p, Purchase.etfSymbol p = symbol)
                              purchases) by (rewrite <- Hps; left).
      by apply list_elem_of_filter in Hin as [? _]. }
    cbn [calculateETFHoldingMetrics ETFHoldingMetrics.etfSymbol
         ETFHoldingMetrics.currentPrice ETFHoldingMetrics.purchases].
    rewrite Hfirst. exists quote. split; [done|]. split; [done|].
    split; [by rewrite <- Hps|done].
  - rewrite (fmap_Permutation _ _ _ Hperm). change (fmap ?f ?l) with (map f l).
    rewrite Hsymbols. by apply NoDup_filter.
  - intros p Hp.
    rewrite (fmap_Permutation ETFHoldingMetrics.etfSymbol _ _ Hperm).
    change (fmap ?f ?l) with (map f l). rewrite Hsymbols.
    rewrite list_elem_of_filter, Hocc. split; [|tauto].
    intros Hq. split; [done|]. right.
    apply list_elem_of_fmap. by exists p.
Qed.

End holdings_contents.

Section average_cost.
Local Open Scope R_scope.

Lemma calculateWeightedAverageCost_eq (purchases : list (Purchase.t R)) :
  calculateWeightedAverageCost purchases
  = if decide (sum_of Purchase.shares purchases = 0) then 0
    else sum_of Purchase.totalCost purchases
         / sum_of Purchase.shares purchases.
Proof.
  unfold calculateWeightedAverageCost.
  destruct purchases as [|p ps]; [cbn; by rewrite decide_True|].
  cbn [length Nat.eqb eqb of_Z div R_arith].
  rewrite !reduce_sum_sum_of.
  case_bool_decide; destruct (decide _); done.
Qed.

(** X20. When every purchase has a positive number of shares, the weighted
    average cost lies between any two bounds of the cost per share of the
    purchases, and times the total shares it is the total cost. *)
Theorem calculateWeightedAverageCost_bounds (purchases : list (Purchase.t R))
    (low high : R) :
  purchases ≠ [] →
  Forall (λ p, 0 < Purchase.shares p
               ∧ low * Purchase.shares p <= Purchase.totalCost p
                 <= high * Purchase.shares p) purchases →
  low <= calculateWeightedAverageCost purchases <= high
  ∧ calculateWeightedAverageCost purchases
    * sum_of Purchase.shares purchases
    = sum_of Purchase.totalCost purchases.
Proof.
  intros Hne Hall. rewrite calculateWeightedAverageCost_eq.
  assert (Hsums :
    (purchases ≠ [] → 0 < sum_of Purchase.shares purchases)
    ∧ low * sum_of Purchase.shares purchases
      <= sum_of Purchase.totalCost purchases
      <= high * sum_of Purchase.shares purchases
    ∧ 0 <= sum_of Purchase.shares purchases).
  { clear Hne. induction Hall as [|p ps (Hp & Hl & Hh) _ (_ & IH & Hnn)];
      cbn [sum_of]; [split; [done|lra]|].
    split; [intros _; lra|]. split; lra. }
  destruct Hsums as (Hpos & [Hlo Hhi] & _). specialize (Hpos Hne).
  rewrite decide_False by lra.
  set (shares := sum_of Purchase.shares purchases) in *.
  set (cost := sum_of Purchase.totalCost purchases) in *.
  split; [split|].
  - apply (Rmult_le_reg_r shares); [done|].
    unfold Rdiv. rewrite Rmult_assoc, Rinv_l, Rmult_1_r; lra.
  - apply (Rmult_le_reg_r shares); [done|].
    unfold Rdiv. rewrite Rmult_assoc, Rinv_l, Rmult_1_r; lra.
  - field. lra.
Qed.

(** X21. The average cost per share of a holding is its break-even price: with
    a positive number of shares, the gain of the holding is the difference
    between the current price and the average cost, times the shares; it is
    positive exactly when the price is above the average cost. *)
Theorem averageCostPerShare_break_even (rt : Runtime)
    (purchases : list (Purchase.t R)) (etfName : string)
    (currentPrice totalPortfolioValue : R) :
  let holding :=
    calculateETFHoldingMetrics rt purchases etfName currentPrice
      totalPortfolioValue in
  0 < ETFHoldingMetrics.totalShares holding →
  ETFHoldingMetrics.averageCostPerShare holding
    * ETFHoldingMetrics.totalShares holding
  = ETFHoldingMetrics.totalCostBasis holding
  ∧ ETFHoldingMetrics.totalGainLoss holding
    = (currentPrice - ETFHoldingMetrics.averageCostPerShare holding)
      * ETFHoldingMetrics.totalShares holding
  ∧ (0 < ETFHoldingMetrics.totalGainLoss holding
     ↔ ETFHoldingMetrics.averageCostPerShare holding < currentPrice)
  ∧ (ETFHoldingMetrics.totalGainLoss holding = 0
     ↔ currentPrice = ETFHoldingMetrics.averageCostPerShare holding).
Proof.
  cbv zeta. destruct purchases as [|first rest].
  { cbn. lra. }
  cbn [calculateETFHoldingMetrics ETFHoldingMetrics.totalShares
       ETFHoldingMetrics.averageCostPerShare ETFHoldingMetrics.totalCostBasis
       ETFHoldingMetrics.totalGainLoss].
  rewrite calculateWeightedAverageCost_eq, !reduce_sum_sum_of.
  unfold calculateGainLoss. cbn [sub mul R_arith].
  set (shares := sum_of Purchase.shares (first :: rest)).
  set (cost := sum_of Purchase.totalCost (first :: rest)).
  intros Hpos. rewrite decide_False by lra.
  assert (Havg : cost / shares * shares = cost) by (field; lra).
  split; [done|].
  assert (Hgain : shares * currentPrice - cost
                  = (currentPrice - cost / shares) * shares) by lra.
  split; [done|]. rewrite Hgain. split.
  - split; intros H.
    + apply (Rmult_lt_reg_r shares); [done|]. nra.
    + apply Rmult_lt_0_compat; lra.
  - split; intros H.
    + apply Rmult_integral in H as [H|H]; lra.
    + rewrite H. lra.
Qed.

End average_cost.

(** ** Returns *)

Section returns.
Local Open Scope R_scope.

Lemma calculateAnnualizedReturn_positive (s e d : R) :
  0 < s → 0 < d → 0 < e →
  calculateAnnualizedReturn s e d
  = (Rpower (e / s) (1 / (d / 365)) - 1) * 100.
Proof.
  intros Hs Hd He. unfold calculateAnnualizedReturn.
  cbn [leb of_Z sub mul div Math_pow R_arith].
  rewrite !bool_decide_eq_false_2 by lra. done.
Qed.

Lemma calculateAnnualizedReturn_worthless (s e d : R) :
  0 < s → 0 < d → e <= 0 → calculateAnnualizedReturn s e d = -100.
Proof.
  intros Hs Hd He. unfold calculateAnnualizedReturn.
  cbn [leb of_Z R_arith].
  rewrite (bool_decide_eq_false_2 (s <= 0)), (bool_decide_eq_false_2 (d <= 0))
    by lra.
  by rewrite bool_decide_eq_true_2.
Qed.

Lemma Rpower_1_r (x : R) : 0 < x → Rpower x 1 = x.
Proof. intros Hx. unfold Rpower. rewrite Rmult_1_l. by apply exp_ln. Qed.

Lemma Rpower_gt_1 (x y : R) : 0 < x → 0 < y → (1 < Rpower x y ↔ 1 < x).
Proof.
  intros Hx Hy. unfold Rpower. rewrite <- exp_0 at 1. split.
  - intros H. apply exp_lt_inv in H.
    assert (0 < ln x) by nra.
    apply ln_lt_inv; [lra | done |]. by rewrite ln_1.
  - intros H. apply exp_increasing.
    assert (0 < ln x) by (rewrite <- ln_1; apply ln_increasing; lra).
    nra.
Qed.

Lemma Rpower_eq_1 (x y : R) : 0 < x → 0 < y → (Rpower x y = 1 ↔ x = 1).
Proof.
  intros Hx Hy. unfold Rpower. split.
  - intros H. rewrite <- exp_0 in H. apply exp_inv in H.
    assert (ln x = 0) by nra.
    apply ln_inv; [done | lra |]. by rewrite ln_1.
  - intros ->. by rewrite ln_1, Rmult_0_r, exp_0.
Qed.

(** X22. Over exactly 365 days the annualized return is the plain percentage
    return, for a positive start value and an end value that is not
    negative. *)
Theorem calculateAnnualizedReturn_one_year (startValue endValue : R) :
  0 < startValue → 0 <= endValue →
  calculateAnnualizedReturn startValue endValue 365
  = calculateGainLossPercent startValue endValue.
Proof.
  intros Hs He. unfold calculateGainLossPercent.
  cbn [eqb of_Z sub mul div R_arith].
  rewrite bool_decide_eq_false_2 by lra.
  destruct (Rle_lt_or_eq_dec _ _ He) as [Hpos|<-].
  - rewrite calculateAnnualizedReturn_positive by lra.
    replace (1 / (365 / 365)) with 1 by (field).
    rewrite Rpower_1_r by (apply Rdiv_lt_0_compat; lra).
    field. lra.
  - rewrite calculateAnnualizedReturn_worthless by lra. field. lra.
Qed.

(** X23. For a positive start value and period the annualized return is never
    below -100, is -100 exactly for an end value that is not positive, has
    the sign of the gain, and is 0 exactly when nothing was gained or lost. *)
Theorem calculateAnnualizedReturn_sign (startValue endValue days : R) :
  0 < startValue → 0 < days →
  -100 <= calculateAnnualizedReturn startValue endValue days
  ∧ (0 < calculateAnnualizedReturn startValue endValue days
     ↔ startValue < endValue)
  ∧ (calculateAnnualizedReturn startValue endValue days = 0
     ↔ endValue = startValue)
  ∧ (calculateAnnualizedReturn startValue endValue days = -100
     ↔ endValue <= 0).
Proof.
  intros Hs Hd.
  destruct (Rle_or_lt endValue 0) as [He|He].
  - rewrite calculateAnnualizedReturn_worthless by done.
    repeat split; intros; lra.
  - rewrite calculateAnnualizedReturn_positive by done.
    set (ratio := endValue / startValue).
    set (exponent := 1 / (days / 365)).
    assert (Hratio : 0 < ratio) by (apply Rdiv_lt_0_compat; lra).
    assert (Hexp : 0 < exponent).
    { unfold exponent. apply Rdiv_lt_0_compat; [lra|].
      apply Rdiv_lt_0_compat; lra. }
    assert (Hpow : 0 < Rpower ratio exponent)
      by (unfold Rpower; apply exp_pos).
    assert (Hone : 1 < ratio ↔ startValue < endValue).
    { unfold ratio. split; intros H.
      - apply (Rmult_lt_compat_r startValue) in H; [|done].
        unfold Rdiv in H. rewrite Rmult_assoc, Rinv_l, Rmult_1_r in H; lra.
      - apply (Rmult_lt_reg_r startValue); [done|].
        unfold Rdiv. rewrite Rmult_assoc, Rinv_l, Rmult_1_r; lra. }
    assert (Heq : ratio = 1 ↔ endValue = startValue).
    { unfold ratio. split; intros H.
      - apply (f_equal (λ x, x * startValue)) in H.
        unfold Rdiv in H. rewrite Rmult_assoc, Rinv_l, Rmult_1_r in H; lra.
      - rewrite H. field. lra. }
    pose proof (Rpower_gt_1 ratio exponent Hratio Hexp) as Hgt.
    pose proof (Rpower_eq_1 ratio exponent Hratio Hexp) as Heq1.
    split; [lra|]. split; [|split].
    + rewrite <- Hone, <- Hgt. split; intros; lra.
    + rewrite <- Heq, <- Heq1. split; intros; lra.
    + split; intros; lra.
Qed.


End returns.

(** ** Year to date *)

Section ytd_cases.
Local Open Scope R_scope.

(** The three accumulators of the YTD loop, as sums over the purchases. *)
Lemma ytd_accumulators rt (purchases : list (Purchase.t R)) priceData :
  fold_left (ytd_symbol_step rt (getYearStart rt) priceData)
    (groupBySymbol purchases) (0, 0, 0)
  = (sum_of (spec_ytdGainLoss rt priceData) purchases,
     sum_of (spec_valueAtYearStart rt priceData) purchases,
     sum_of (spec_newInvestmentsThisYear rt priceData) purchases).
Proof.
  rewrite ytd_symbols_fold, !groupBySymbol_total, !Rplus_0_l. done.
Qed.


Lemma sum_of_Forall_ext {A} (P : A → Prop) (f g : A → R) (xs : list A) :
  Forall P xs → (∀ x, P x → f x = g x) → sum_of f xs = sum_of g xs.
Proof.
  intros Hall Hfg. induction Hall as [|x xs Hx _ IH]; [done|].
  cbn [sum_of]. rewrite IH, (Hfg x Hx). done.
Qed.


(** X26. For purchases made before this year whose quotes all report the same
    year-to-date change, above -100, and whose current value is positive,
    the year-to-date percentage of the portfolio is that change, and the
    year-to-date gain is the part [change / (100 + change)] of the value. *)
Theorem ytd_of_old_portfolio (rt : Runtime) (purchases : list (Purchase.t R))
    (priceData : gmap string (ETFPriceData.t R)) (change : R) :
  Forall (λ p, (∃ quote, priceData !! Purchase.etfSymbol p = Some quote
                         ∧ ETFPriceData.ytdChange quote = change)
               ∧ (Date_parse rt (Purchase.purchaseDate p)
                  < getYearStart rt)%Z)
         purchases →
  -100 < change →
  0 < sum_of (quoted_value priceData) purchases →
  YTDPerformance.ytdGainLossPercent
    (calculateYTDPerformance rt purchases priceData) = change
  ∧ YTDPerformance.ytdGainLoss
      (calculateYTDPerformance rt purchases priceData)
    = sum_of (quoted_value priceData) purchases
      * (change / (100 + change)).
Proof.
  intros Hall Hchange Hvalue. unfold calculateYTDPerformance.
  cbn [of_Z R_arith]. rewrite ytd_accumulators.
  cbn [YTDPerformance.ytdGainLoss YTDPerformance.ytdGainLossPercent].
  set (value := sum_of (quoted_value priceData) purchases) in *.
  rewrite (sum_of_Forall_ext _ (spec_ytdGainLoss rt priceData)
             (λ p, quoted_value priceData p * (change / (100 + change)))
             _ Hall),
          (sum_of_Forall_ext _ (spec_valueAtYearStart rt priceData)
             (λ p, quoted_value priceData p * (100 / (100 + change)))
             _ Hall),
          (sum_of_Forall_ext _ (spec_newInvestmentsThisYear rt priceData)
             (λ _, 0) _ Hall).
  2-4: intros p [(quote & Hq & Hc) Hdate];
       unfold spec_ytdGainLoss, spec_valueAtYearStart,
         spec_newInvestmentsThisYear, quoted_value, dated_before_year_start,
         spec_ytdStartPrice;
       rewrite Hq, ?Hc, (proj2 (Z.ltb_lt _ _) Hdate);
       try done; destruct (decide (change = 0)) as [->|Hne]; field; lra.
  rewrite !sum_of_scale, sum_of_zero. fold value.
  cbn [add mul div ltb R_arith]. rewrite Rplus_0_r. split; [|done].
  assert (Hpos : 0 < value * (100 / (100 + change))).
  { apply Rmult_lt_0_compat; [done|]. apply Rdiv_lt_0_compat; lra. }
  rewrite bool_decide_eq_true_2 by done.
  field. split; lra.
Qed.

End ytd_cases.

(** ** The metrics hook *)

Section hook_totals.
Local Open Scope R_scope.

Lemma grouped_sum_Map_set {B} (h : string → B → R) k (b : B)
    (m : list (string * list B)) :
  grouped_sum h (Map_set k (default [] (Map_get k m) ++ [b]) m)
  = grouped_sum h m + h k b.
Proof.
  unfold grouped_sum. induction m as [|[k' v] m IH]; cbn [Map_set Map_get].
  - cbn. lra.
  - destruct (decide (k' = k)) as [->|Hne]; cbn [sum_of fst snd default].
    + rewrite sum_of_app. cbn. lra.
    + rewrite IH. lra.
Qed.

(** The groups of the hook hold every purchase once, under its normalized
    symbol. *)
Lemma purchasesByETF_of_sum (h : string → GroupedPurchase.t R → R)
    (purchases : list (Purchase.t R)) :
  grouped_sum h (UseMetrics.purchasesByETF_of purchases)
  = sum_of
      (λ p, h (normalizeSymbol (Purchase.etfSymbol p))
              {| GroupedPurchase.id := Purchase.id p;
                 GroupedPurchase.etfSymbol :=
                   normalizeSymbol (Purchase.etfSymbol p);
                 GroupedPurchase.purchaseDate := Purchase.purchaseDate p;
                 GroupedPurchase.shares := Purchase.shares p;
                 GroupedPurchase.totalCost := Purchase.totalCost p |})
      purchases.
Proof.
  unfold UseMetrics.purchasesByETF_of.
  assert (H : ∀ m,
    grouped_sum h
      (fold_left
         (λ purchasesByETF purchase,
            Map_set (normalizeSymbol (Purchase.etfSymbol purchase))
              (default [] (Map_get (normalizeSymbol (Purchase.etfSymbol purchase))
                             purchasesByETF)
               ++ [{| GroupedPurchase.id := Purchase.id purchase;
                      GroupedPurchase.etfSymbol :=
                        normalizeSymbol (Purchase.etfSymbol purchase);
                      GroupedPurchase.purchaseDate :=
                        Purchase.purchaseDate purchase;
                      GroupedPurchase.shares := Purchase.shares purchase;
                      GroupedPurchase.totalCost :=
                        Purchase.totalCost purchase |}])
              purchasesByETF) purchases m)
    = grouped_sum h m
      + sum_of
          (λ p, h (normalizeSymbol (Purchase.etfSymbol p))
                  {| GroupedPurchase.id := Purchase.id p;
                     GroupedPurchase.etfSymbol :=
                       normalizeSymbol (Purchase.etfSymbol p);
                     GroupedPurchase.purchaseDate := Purchase.purchaseDate p;
                     GroupedPurchase.shares := Purchase.shares p;
                     GroupedPurchase.totalCost := Purchase.totalCost p |})
          purchases).
  { induction purchases as [|p ps IH]; intros m; cbn [fold_left sum_of].
    - lra.
    - rewrite IH, grouped_sum_Map_set. lra. }
  rewrite H. unfold grouped_sum. cbn. lra.
Qed.

Lemma totals_of_fold (prices : gmap string (ETFPriceData.t R))
    (groups : list (string * list (GroupedPurchase.t R))) (a b : R) :
  fold_left
    (λ '(totalCurrentValue, totalInvested) '(symbol, purchases),
       (totalCurrentValue
        + reduce_sum GroupedPurchase.shares purchases
          * UseMetrics.currentPrice_or_zero (prices !! symbol),
        totalInvested + reduce_sum GroupedPurchase.totalCost purchases))
    groups (a, b)
  = (a + grouped_sum
           (λ symbol p, GroupedPurchase.shares p
                        * UseMetrics.currentPrice_or_zero (prices !! symbol))
           groups,
     b + grouped_sum (λ _, GroupedPurchase.totalCost) groups).
Proof.
  revert a b. unfold grouped_sum.
  induction groups as [|[symbol ps] groups IH]; intros a b;
    cbn [fold_left sum_of fst snd].
  - f_equal; lra.
  - rewrite IH, !reduce_sum_sum_of, sum_of_scale. f_equal; lra.
Qed.

Lemma totals_of_eq (prices : gmap string (ETFPriceData.t R))
    (purchases : list (Purchase.t R)) :
  UseMetrics.totals_of prices (UseMetrics.purchasesByETF_of purchases)
  = (sum_of
       (λ p, Purchase.shares p
             * UseMetrics.currentPrice_or_zero
                 (prices !! normalizeSymbol (Purchase.etfSymbol p)))
       purchases,
     sum_of Purchase.totalCost purchases).
Proof.
  unfold UseMetrics.totals_of. cbn [add mul of_Z R_arith].
  rewrite totals_of_fold, !purchasesByETF_of_sum.
  by rewrite !Rplus_0_l.
Qed.

Lemma currentPrice_or_zero_eq (priceData : option (ETFPriceData.t R)) :
  UseMetrics.currentPrice_or_zero priceData
  = match priceData with
    | Some quote => ETFPriceData.currentPrice quote
    | None => 0
    end.
Proof.
  destruct priceData as [quote|]; [|done].
  cbn [UseMetrics.currentPrice_or_zero truthy of_Z R_arith].
  destruct (Req_dec_T (ETFPriceData.currentPrice quote) 0) as [E|E].
  - rewrite bool_decide_eq_false_2; [lra|]. intros H. by apply H.
  - by rewrite bool_decide_eq_true_2.
Qed.

End hook_totals.

Section hook_metrics.
Local Open Scope R_scope.

Lemma hook_holdings_of_fold rt etfCache prices total
    (groups : list (string * list (GroupedPurchase.t R))) acc :
  fold_left
    (λ holdings '(symbol, purchases),
       holdings ++
       [UseMetrics.calculateETFHoldingMetrics rt symbol
          (etfName_of etfCache symbol) purchases
          (UseMetrics.currentPrice_or_zero (prices !! symbol)) total])
    groups acc
  = acc ++ UseMetrics.holdings_of rt etfCache prices total groups.
Proof.
  unfold UseMetrics.holdings_of. revert acc.
  induction groups as [|entry groups IH] using rev_ind; intros acc.
  - cbn. by rewrite app_nil_r.
  - destruct entry as [symbol ps]. rewrite !fold_left_app. cbn [fold_left].
    by rewrite IH, app_assoc.
Qed.

Lemma hook_holdings_of_cons rt etfCache prices total symbol
    (ps : list (GroupedPurchase.t R)) groups :
  UseMetrics.holdings_of rt etfCache prices total ((symbol, ps) :: groups)
  = UseMetrics.calculateETFHoldingMetrics rt symbol
      (etfName_of etfCache symbol) ps
      (UseMetrics.currentPrice_or_zero (prices !! symbol)) total
    :: UseMetrics.holdings_of rt etfCache prices total groups.
Proof.
  unfold UseMetrics.holdings_of at 1. cbn [fold_left].
  by rewrite hook_holdings_of_fold.
Qed.

Lemma hook_holdings_of_total rt etfCache prices total
    (F : ETFHoldingMetrics.t R → R) (h : string → GroupedPurchase.t R → R)
    (groups : list (string * list (GroupedPurchase.t R))) :
  (∀ symbol ps,
     F (UseMetrics.calculateETFHoldingMetrics rt symbol
          (etfName_of etfCache symbol) ps
          (UseMetrics.currentPrice_or_zero (prices !! symbol)) total)
     = sum_of (h symbol) ps) →
  sum_of F (UseMetrics.holdings_of rt etfCache prices total groups)
  = grouped_sum h groups.
Proof.
  intros HF. unfold grouped_sum.
  induction groups as [|[symbol ps] groups IH]; [done|].
  rewrite hook_holdings_of_cons. cbn [sum_of fst snd]. by rewrite IH, HF.
Qed.

Lemma hook_holdings_of_symbols rt etfCache prices total
    (groups : list (string * list (GroupedPurchase.t R))) :
  map ETFHoldingMetrics.etfSymbol
    (UseMetrics.holdings_of rt etfCache prices total groups)
  = map fst groups.
Proof.
  induction groups as [|[symbol ps] groups IH]; [done|].
  rewrite hook_holdings_of_cons. cbn [map fst]. by rewrite IH.
Qed.

Lemma purchasesByETF_of_keys_from (purchases : list (Purchase.t R)) m :
  map fst
    (fold_left
       (λ purchasesByETF purchase,
          Map_set (normalizeSymbol (Purchase.etfSymbol purchase))
            (default []
               (Map_get (normalizeSymbol (Purchase.etfSymbol purchase))
                  purchasesByETF)
             ++ [{| GroupedPurchase.id := Purchase.id purchase;
                    GroupedPurchase.etfSymbol :=
                      normalizeSymbol (Purchase.etfSymbol purchase);
                    GroupedPurchase.purchaseDate :=
                      Purchase.purchaseDate purchase;
                    GroupedPurchase.shares := Purchase.shares purchase;
                    GroupedPurchase.totalCost :=
                      Purchase.totalCost purchase |}])
            purchasesByETF) purchases m)
  = fold_left (λ seen s, if decide (s ∈ seen) then seen else seen ++ [s])
      (map (λ p, normalizeSymbol (Purchase.etfSymbol p)) purchases)
      (map fst m).
Proof.
  revert m.
  induction purchases as [|p ps IH]; intros m; cbn [fold_left map]; [done|].
  by rewrite IH, Map_set_keys.
Qed.

Lemma purchasesByETF_of_keys (purchases : list (Purchase.t R)) :
  map fst (UseMetrics.purchasesByETF_of purchases)
  = first_occurrences
      (map (λ p, normalizeSymbol (Purchase.etfSymbol p)) purchases).
Proof. apply purchasesByETF_of_keys_from. Qed.

(** X27. The metrics hook answers nothing for no portfolio or no purchases.
    Otherwise, in exact arithmetic, its total invested is the cost of all
    purchases and its current value the value of the purchases at the quote
    of their normalized symbol; it has one holding for every symbol, quoted
    or not, and the cost bases and current values of the holdings add up to
    the two totals.  When the symbols of the purchases are normalized, the
    totals and the total gain are those of [calculatePortfolioMetrics], and
    so is the percentage when the total invested is not negative. *)
Theorem useMetrics_totals (rt : Runtime) (portfolio : Portfolio.t R)
    (prices : gmap string (ETFPriceData.t R)) :
  let purchases := Portfolio.purchases portfolio in
  UseMetrics.useMetrics rt None prices = None
  ∧ (purchases = [] → UseMetrics.useMetrics rt (Some portfolio) prices = None)
  ∧ (purchases ≠ [] →
     ∃ metrics,
       UseMetrics.useMetrics rt (Some portfolio) prices = Some metrics
       ∧ PortfolioMetrics.totalInvested metrics
         = sum_of Purchase.totalCost purchases
       ∧ PortfolioMetrics.currentValue metrics
         = sum_of
             (λ p, match prices !! normalizeSymbol (Purchase.etfSymbol p) with
                   | Some quote =>
                       Purchase.shares p * ETFPriceData.currentPrice quote
                   | None => 0
                   end) purchases
       ∧ map ETFHoldingMetrics.etfSymbol (PortfolioMetrics.holdings metrics)
         ≡ₚ first_occurrences
              (map (λ p, normalizeSymbol (Purchase.etfSymbol p)) purchases)
       ∧ sum_of ETFHoldingMetrics.totalCostBasis
           (PortfolioMetrics.holdings metrics)
         = PortfolioMetrics.totalInvested metrics
       ∧ sum_of ETFHoldingMetrics.currentValue
           (PortfolioMetrics.holdings metrics)
         = PortfolioMetrics.currentValue metrics
       ∧ (Forall (λ p, normalizeSymbol (Purchase.etfSymbol p)
                       = Purchase.etfSymbol p) purchases →
          let engine := calculatePortfolioMetrics rt portfolio prices in
          PortfolioMetrics.totalInvested metrics
            = PortfolioMetrics.totalInvested engine
          ∧ PortfolioMetrics.currentValue metrics
            = PortfolioMetrics.currentValue engine
          ∧ PortfolioMetrics.totalGainLoss metrics
            = PortfolioMetrics.totalGainLoss engine
          ∧ (0 <= PortfolioMetrics.totalInvested engine →
             PortfolioMetrics.totalGainLossPercent metrics
             = PortfolioMetrics.totalGainLossPercent engine))).
Proof.
  cbv zeta. split; [done|]. split.
  { intros E. unfold UseMetrics.useMetrics. by rewrite E. }
  intros Hne. unfold UseMetrics.useMetrics.
  destruct (length (Portfolio.purchases portfolio) =? 0)%nat eqn:Hlen.
  { by apply Nat.eqb_eq, length_zero_iff_nil in Hlen. }
  set (purchases := Portfolio.purchases portfolio) in *.
  rewrite totals_of_eq.
  set (value :=
    sum_of (λ p, Purchase.shares p
                 * UseMetrics.currentPrice_or_zero
                     (prices !! normalizeSymbol (Purchase.etfSymbol p)))
      purchases).
  set (pushed := UseMetrics.holdings_of rt (Portfolio.etfCache portfolio)
                   prices value (UseMetrics.purchasesByETF_of purchases)).
  assert (Hperm : Array_sort holdings_compare pushed ≡ₚ pushed)
    by (apply (Array_sort_perm ETFHoldingMetrics.currentValue); done).
  assert (Hvalue : value
    = sum_of
        (λ p, match prices !! normalizeSymbol (Purchase.etfSymbol p) with
              | Some quote =>
                  Purchase.shares p * ETFPriceData.currentPrice quote
              | None => 0
              end) purchases).
  { apply sum_of_ext. intros p. rewrite currentPrice_or_zero_eq.
    destruct (prices !! _); lra. }
  eexists. split; [reflexivity|].
  cbn [PortfolioMetrics.totalInvested PortfolioMetrics.currentValue
       PortfolioMetrics.holdings PortfolioMetrics.totalGainLoss
       PortfolioMetrics.totalGainLossPercent].
  split; [done|]. split; [done|]. split.
  { rewrite (fmap_Permutation ETFHoldingMetrics.etfSymbol _ _ Hperm).
    change (fmap ?f ?l) with (map f l). unfold pushed.
    by rewrite hook_holdings_of_symbols, purchasesByETF_of_keys. }
  split.
  { rewrite (sum_of_Permutation _ _ _ Hperm). unfold pushed.
    rewrite (hook_holdings_of_total _ _ _ _ _
               (λ _, GroupedPurchase.totalCost)).
    - by rewrite purchasesByETF_of_sum.
    - intros symbol ps.
      cbn [UseMetrics.calculateETFHoldingMetrics
           ETFHoldingMetrics.totalCostBasis].
      by rewrite reduce_sum_sum_of. }
  split.
  { rewrite (sum_of_Permutation _ _ _ Hperm). unfold pushed.
    rewrite (hook_holdings_of_total _ _ _ _ _
               (λ symbol p,
                  GroupedPurchase.shares p
                  * UseMetrics.currentPrice_or_zero (prices !! symbol))).
    - by rewrite purchasesByETF_of_sum.
    - intros symbol ps.
      cbn [UseMetrics.calculateETFHoldingMetrics
           ETFHoldingMetrics.currentValue mul R_arith].
      by rewrite reduce_sum_sum_of, sum_of_scale. }
  intros Hnormalized. unfold calculatePortfolioMetrics. fold purchases.
  rewrite Hlen.
  cbn [PortfolioMetrics.totalInvested PortfolioMetrics.currentValue
       PortfolioMetrics.totalGainLoss PortfolioMetrics.totalGainLossPercent].
  rewrite totalCurrentValue_of_sum, reduce_sum_sum_of.
  assert (Hsame : value = sum_of (quoted_value prices) purchases).
  { rewrite Hvalue.
    apply (sum_of_Forall_ext _ _ _ _ Hnormalized).
    intros p Hp. unfold quoted_value. by rewrite Hp. }
  rewrite <- Hsame.
  split; [done|]. split; [done|]. split; [done|].
  intros Hinvested. unfold calculateGainLossPercent, calculateGainLoss.
  cbn [ltb eqb sub mul div of_Z R_arith].
  repeat case_bool_decide; try lra; done.
Qed.

Lemma fold_left_grouped_sum {B} (step : R → string * list B → R)
    (h : string → B → R) (groups : list (string * list B)) (a : R) :
  (∀ acc symbol ps, step acc (symbol, ps) = acc + sum_of (h symbol) ps) →
  fold_left step groups a = a + grouped_sum h groups.
Proof.
  intros Hstep. revert a. unfold grouped_sum.
  induction groups as [|[symbol ps] groups IH]; intros a;
    cbn [fold_left sum_of fst snd].
  - lra.
  - rewrite IH, Hstep. lra.
Qed.

(** The start price the hook estimates from a quote. *)
Lemma ytdStartValue_of_eq (prices : gmap string (ETFPriceData.t R))
    (groups : list (string * list (GroupedPurchase.t R))) :
  UseMetrics.ytdStartValue_of prices groups
  = grouped_sum
      (λ symbol p,
         match prices !! symbol with
         | None => 0
         | Some priceData =>
             if decide (ETFPriceData.currentPrice priceData <= 0) then 0
             else GroupedPurchase.shares p
                  * (if decide (0 < 1 + ETFPriceData.ytdChange priceData / 100)
                     then ETFPriceData.currentPrice priceData
                          / (1 + ETFPriceData.ytdChange priceData / 100)
                     else ETFPriceData.currentPrice priceData)
         end) groups.
Proof.
  unfold UseMetrics.ytdStartValue_of.
  rewrite (fold_left_grouped_sum _
             (λ symbol p,
                match prices !! symbol with
                | None => 0
                | Some priceData =>
                    if decide (ETFPriceData.currentPrice priceData <= 0) then 0
                    else GroupedPurchase.shares p
                         * (if decide
                                 (0 < 1 + ETFPriceData.ytdChange priceData / 100)
                            then ETFPriceData.currentPrice priceData
                                 / (1 + ETFPriceData.ytdChange priceData / 100)
                            else ETFPriceData.currentPrice priceData)
                end)).
  - cbn [of_Z R_arith]. lra.
  - intros acc symbol ps. destruct (prices !! symbol) as [quote|].
    + cbn [leb ltb truthy add mul div of_Z R_arith].
      unfold Number_isFinite, R_finite. rewrite andb_true_r.
      assert (Hc : (if bool_decide (ETFPriceData.ytdChange quote ≠ 0)
                    then ETFPriceData.ytdChange quote else 0)
                   = ETFPriceData.ytdChange quote).
      { case_bool_decide as H; [done|].
        destruct (Req_dec_T (ETFPriceData.ytdChange quote) 0) as [E|E];
          [by rewrite E | done]. }
      rewrite Hc.
      destruct (decide (ETFPriceData.currentPrice quote <= 0)) as [Hp|Hp].
      * rewrite bool_decide_eq_true_2 by done. rewrite sum_of_zero. lra.
      * rewrite bool_decide_eq_false_2 by done.
        rewrite reduce_sum_sum_of, sum_of_scale.
        destruct (decide (0 < 1 + ETFPriceData.ytdChange quote / 100)).
        -- rewrite bool_decide_eq_true_2 by done. lra.
        -- rewrite bool_decide_eq_false_2 by done. lra.
    + rewrite sum_of_zero. lra.
Qed.

Lemma sum_of_plus {A} (f g : A → R) (xs : list A) :
  sum_of (λ x, f x + g x) xs = sum_of f xs + sum_of g xs.
Proof. induction xs as [|x xs IH]; cbn; [lra|]. rewrite IH. lra. Qed.


End hook_metrics.

Section hook_annualized.
Local Open Scope num_scope.

Lemma calculateAnnualizedReturn_overflows :
  calculateAnnualizedReturn (Fin 100) (Fin 1000) (Fin 1) = PInf.
Proof.
  unfold calculateAnnualizedReturn.
  cbn [leb of_Z number_arith number_leb number_ltb number_eqb div sub mul
       Math_pow].
  rewrite !bool_decide_eq_false_2 by lra. cbn [orb].
  rewrite (number_div_Fin 1000 100) by lra.
  rewrite (number_div_Fin 1 365) by lra.
  rewrite (number_div_Fin 1 (1 / 365)) by lra.
  replace (1 / (1 / 365))%R with 365%R by lra.
  replace (1000 / 100)%R with 10%R by lra.
  unfold number_pow.
  rewrite (decide_False (P := 365%R = 0%R)) by lra.
  rewrite (decide_False (P := 10%R = 0%R)) by lra.
  rewrite (decide_True (P := (0 < 10)%R)) by lra.
  rewrite to_number_PInf by apply Rpower_10_365_overflows.
  cbn. unfold inf_times. rewrite decide_False by lra.
  rewrite bool_decide_eq_true_2 by lra. reflexivity.
Qed.

(** X29. The annualized return of the hook is always finite.  For an end value
    that is not [<= 0] it is the annualized return of the calculation
    library when that is finite and 0 otherwise: for cost 100, value 1000
    and one day it is 0. *)
Theorem useMetrics_calculateAnnualizedReturn_guarded
    (costBasis currentValue days : number) :
  isFinite (UseMetrics.calculateAnnualizedReturn costBasis currentValue days)
  = true
  ∧ UseMetrics.calculateAnnualizedReturn costBasis currentValue days
    = useMetrics_calculateAnnualizedReturn costBasis currentValue days
  ∧ ((currentValue <=? of_Z 0) = false →
     UseMetrics.calculateAnnualizedReturn costBasis currentValue days
     = if isFinite (calculateAnnualizedReturn costBasis currentValue days)
       then calculateAnnualizedReturn costBasis currentValue days
       else of_Z 0)
  ∧ UseMetrics.calculateAnnualizedReturn (Fin 100) (Fin 1000) (Fin 1) = Fin 0.
Proof.
  assert (Hguard : ∀ cb cv d : number,
    (cv <=? of_Z 0) = false →
    UseMetrics.calculateAnnualizedReturn cb cv d
    = if isFinite (calculateAnnualizedReturn cb cv d)
      then calculateAnnualizedReturn cb cv d else of_Z 0).
  { intros cb cv d Hpos.
    unfold UseMetrics.calculateAnnualizedReturn, calculateAnnualizedReturn.
    rewrite Hpos. destruct (_ || _); done. }
  split; [|split; [done|split]].
  - change (UseMetrics.calculateAnnualizedReturn costBasis currentValue days)
      with (useMetrics_calculateAnnualizedReturn costBasis currentValue days).
    apply useMetrics_calculateAnnualizedReturn_finite.
  - apply Hguard.
  - rewrite Hguard.
    + by rewrite calculateAnnualizedReturn_overflows.
    + cbn. rewrite !bool_decide_eq_false_2 by lra. done.
Qed.

End hook_annualized.

(** ** Fetched prices *)

Section fetch_loop.
Local Open Scope Z_scope.
Context {num : Type} `{!Arith num}.

Lemma getCachedPrice_ext rt symbol
    (store store' : LocalStorage.t (gmap string (ETFCacheEntry.t num))) :
  getPriceCache store' !! normalizeSymbol symbol
  = getPriceCache store !! normalizeSymbol symbol →
  getCachedPrice rt symbol store' = getCachedPrice rt symbol store.
Proof. intros H. unfold getCachedPrice. by rewrite H. Qed.

Lemma getPriceCache_updatePriceCache_ne rt symbol (data : ETFPriceData.t num)
    (store : LocalStorage.t (gmap string (ETFCacheEntry.t num))) key :
  key ≠ normalizeSymbol symbol →
  getPriceCache (updatePriceCache rt symbol data store) !! key
  = getPriceCache store !! key.
Proof.
  intros Hne. unfold updatePriceCache. rewrite getPriceCache_savePriceCache.
  destruct (LocalStorage.available store) eqn:E.
  - by rewrite lookup_insert_ne.
  - by rewrite (getPriceCache_unavailable _ E).
Qed.

Lemma updatePriceCache_available rt symbol (data : ETFPriceData.t num)
    (store : LocalStorage.t (gmap string (ETFCacheEntry.t num))) :
  LocalStorage.available (updatePriceCache rt symbol data store)
  = LocalStorage.available store.
Proof.
  unfold updatePriceCache, savePriceCache, safeSetItem.
  by destruct (LocalStorage.available store) eqn:E.
Qed.

Lemma getCachedPrice_fresh rt symbol (data : ETFPriceData.t num)
    (store : LocalStorage.t (gmap string (ETFCacheEntry.t num))) :
  LocalStorage.available store = true →
  getCachedPrice rt symbol (updatePriceCache rt symbol data store)
  = Some (ETFPriceData.currentPrice data, false).
Proof.
  intros Hav.
  destruct (getPriceCache_updatePriceCache rt symbol data store Hav)
    as (entry & Hentry & Hprice & Hupdated).
  rewrite (getCachedPrice_lookup _ _ _ _ Hentry), Hprice, Hupdated.
  f_equal. f_equal. apply bool_decide_eq_false_2.
  pose proof (getCurrentCacheTTL_cases rt) as Httl.
  unfold CACHE_TTL_MARKET_HOURS, CACHE_TTL_AFTER_HOURS, CACHE_TTL_CLOSED in *.
  lia.
Qed.

Lemma length_filter_fmap {A B} (f : A → B) (P : B → Prop)
    `{!∀ x, Decision (P x)} (l : list A) :
  length (filter P (f <$> l)) = length (filter (λ x, P (f x)) l).
Proof.
  induction l as [|x l IH]; [done|]. rewrite fmap_cons, !filter_cons.
  destruct (decide (P (f x))); cbn [length]; by rewrite IH.
Qed.

(** What holds after the loop has gone through the answers [answers]. *)
Lemma fetchPrices_loop rt
    (store : LocalStorage.t (gmap string (ETFCacheEntry.t num)))
    (answers : list (string * option (ETFPriceData.t num))) :
  NoDup (normalizeSymbol <$> answers.*1) →
  ∃ newPrices store',
    fold_left (fetchPrices_step rt) answers ([], 0, store)
    = (newPrices,
       Z.of_nat (length (filter (λ answer, answer.2 = None) answers)),
       store')
    ∧ LocalStorage.available store' = LocalStorage.available store
    ∧ (∀ key, key ∉ normalizeSymbol <$> answers.*1 →
         getPriceCache store' !! key = getPriceCache store !! key)
    ∧ (∀ symbol, symbol ∉ answers.*1 → Map_get symbol newPrices = None)
    ∧ (∀ symbol data, (symbol, Some data) ∈ answers →
         Map_get symbol newPrices = Some data
         ∧ (LocalStorage.available store = true →
            getCachedPrice rt symbol store'
            = Some (ETFPriceData.currentPrice data, false)))
    ∧ (∀ symbol, (symbol, None) ∈ answers →
         Map_get symbol newPrices
         = (λ cached, cached_quote symbol cached.1)
             <$> getCachedPrice rt symbol store
         ∧ getCachedPrice rt symbol store' = getCachedPrice rt symbol store).
Proof.
  induction answers as [|[symbol result] answers IH] using rev_ind.
  { intros _. exists [], store. cbn. split; [done|]. split; [done|].
    split; [done|]. split; [done|].
    split; [by intros ? ? ?%elem_of_nil | by intros ? ?%elem_of_nil]. }
  rewrite !fmap_app, NoDup_app. cbn [fmap list_fmap fst].
  intros (Hnd & Hfresh & _).
  destruct (IH Hnd) as (np & st & Hfold & Hav & Hcache & Habsent & Hok & Hfailed).
  clear IH.
  assert (Hnew : normalizeSymbol symbol ∉ normalizeSymbol <$> answers.*1).
  { intros Hin. apply (Hfresh _ Hin). left. }
  assert (Hsymbol : symbol ∉ answers.*1).
  { intros Hin. apply Hnew. by apply list_elem_of_fmap_2. }
  assert (Hold : ∀ s r, (s, r) ∈ answers →
            s ≠ symbol ∧ normalizeSymbol s ≠ normalizeSymbol symbol).
  { intros s r Hin.
    assert (Hs : s ∈ answers.*1)
      by (apply list_elem_of_fmap; by exists (s, r)).
    split; [by intros ->|]. intros Heq. apply Hnew. rewrite <- Heq.
    by apply list_elem_of_fmap_2. }
  assert (Hhere : getCachedPrice rt symbol st = getCachedPrice rt symbol store)
    by (apply getCachedPrice_ext, Hcache, Hnew).
  rewrite fold_left_app, Hfold. cbn [fold_left fetchPrices_step].
  rewrite filter_app, length_app, Nat2Z.inj_add.
  destruct result as [data|].
  - (* the fetch succeeded *)
    exists (Map_set symbol data np), (updatePriceCache rt symbol data st).
    rewrite filter_cons_False, filter_nil by done. cbn [length].
    split; [f_equal; f_equal; lia|].
    split; [by rewrite updatePriceCache_available|].
    split.
    { intros key Hkey. rewrite getPriceCache_updatePriceCache_ne.
      - apply Hcache. intros Hin. apply Hkey.
        rewrite elem_of_app. by left.
      - intros ->. apply Hkey. rewrite elem_of_app. right. left. }
    split.
    { intros s Hs. rewrite Map_get_set_ne.
      - apply Habsent. intros Hin. apply Hs. rewrite elem_of_app. by left.
      - intros ->. apply Hs. rewrite elem_of_app. right. left. }
    split.
    + intros s d [Hin|Hin]%elem_of_app.
      * destruct (Hold _ _ Hin) as [Hne Hnorm].
        destruct (Hok _ _ Hin) as [Hget Hfreshly].
        rewrite Map_get_set_ne by done. split; [done|].
        intros Havail. rewrite <- (Hfreshly Havail).
        apply getCachedPrice_ext, getPriceCache_updatePriceCache_ne. done.
      * apply list_elem_of_singleton in Hin. injection Hin as -> ->.
        rewrite Map_get_set_eq. split; [done|].
        intros Havail. apply getCachedPrice_fresh. by rewrite Hav.
    + intros s [Hin|Hin]%elem_of_app.
      * destruct (Hold _ _ Hin) as [Hne Hnorm].
        destruct (Hfailed _ Hin) as [Hget Hsame].
        rewrite Map_get_set_ne by done. split; [done|].
        rewrite <- Hsame.
        apply getCachedPrice_ext, getPriceCache_updatePriceCache_ne. done.
      * by apply list_elem_of_singleton in Hin.
  - (* the fetch failed *)
    rewrite filter_cons_True, filter_nil by done. cbn [length].
    rewrite Hhere.
    destruct (getCachedPrice rt symbol store) as [[price stale]|] eqn:Hcached.
    + exists (Map_set symbol (cached_quote symbol price) np), st.
      split; [f_equal; f_equal; lia|]. split; [done|].
      split.
      { intros key Hkey. apply Hcache. intros Hin. apply Hkey.
        rewrite elem_of_app. by left. }
      split.
      { intros s Hs. rewrite Map_get_set_ne.
        - apply Habsent. intros Hin. apply Hs. rewrite elem_of_app. by left.
        - intros ->. apply Hs. rewrite elem_of_app. right. left. }
      split.
      * intros s d [Hin|Hin]%elem_of_app.
        -- destruct (Hold _ _ Hin) as [Hne Hnorm].
           rewrite Map_get_set_ne by done. by apply Hok.
        -- by apply list_elem_of_singleton in Hin.
      * intros s [Hin|Hin]%elem_of_app.
        -- destruct (Hold _ _ Hin) as [Hne Hnorm].
           rewrite Map_get_set_ne by done. by apply Hfailed.
        -- apply list_elem_of_singleton in Hin. injection Hin as ->.
           rewrite Map_get_set_eq, Hcached. done.
    + exists np, st.
      split; [f_equal; f_equal; lia|]. split; [done|].
      split.
      { intros key Hkey. apply Hcache. intros Hin. apply Hkey.
        rewrite elem_of_app. by left. }
      split.
      { intros s Hs. apply Habsent. intros Hin. apply Hs.
        rewrite elem_of_app. by left. }
      split.
      * intros s d [Hin|Hin]%elem_of_app; [by apply Hok|].
        by apply list_elem_of_singleton in Hin.
      * intros s [Hin|Hin]%elem_of_app; [by apply Hfailed|].
        apply list_elem_of_singleton in Hin. injection Hin as ->.
        rewrite Hcached. split; [|done]. by apply Habsent.
Qed.

(** X30. The loop of [fetchPrices] over the answers of the API, one answer per
    symbol, the symbols having distinct normalized forms: the count of
    failures is the number of missing answers, and no error is reported
    exactly when none is missing; a symbol that was answered gets the quote
    fetched, which is then cached and fresh; a symbol whose fetch failed gets
    the quote made of its cached price, stale or not, if it has one, and its
    cache entry is left as it was; no other symbol gets a price. *)
Theorem fetchPrices_results_spec (rt : Runtime) (symbolsToProcess : list string)
    (results : list (option (ETFPriceData.t num)))
    (store : LocalStorage.t (gmap string (ETFCacheEntry.t num))) :
  length results = length symbolsToProcess →
  NoDup (normalizeSymbol <$> symbolsToProcess) →
  ∃ newPrices failedCount store',
    fetchPrices_results rt symbolsToProcess results store
    = (newPrices, failedCount, store')
    ∧ failedCount = Z.of_nat (length (filter (λ r, r = None) results))
    ∧ (fetchPrices_error failedCount symbolsToProcess = None
       ↔ Forall is_Some results)
    ∧ (∀ i symbol data,
         symbolsToProcess !! i = Some symbol →
         results !! i = Some (Some data) →
         Map_get symbol newPrices = Some data
         ∧ (LocalStorage.available store = true →
            getCachedPrice rt symbol store'
            = Some (ETFPriceData.currentPrice data, false)))
    ∧ (∀ i symbol,
         symbolsToProcess !! i = Some symbol →
         results !! i = Some None →
         Map_get symbol newPrices
         = (λ cached, cached_quote symbol cached.1)
             <$> getCachedPrice rt symbol store
         ∧ getCachedPrice rt symbol store' = getCachedPrice rt symbol store)
    ∧ (∀ symbol, symbol ∉ symbolsToProcess → Map_get symbol newPrices = None).
Proof.
  intros Hlen Hnd. unfold fetchPrices_results.
  set (answers := zip symbolsToProcess results).
  assert (Hfst : answers.*1 = symbolsToProcess)
    by (apply fst_zip; lia).
  assert (Hsnd : answers.*2 = results)
    by (apply snd_zip; lia).
  assert (Hin : ∀ i symbol result,
            symbolsToProcess !! i = Some symbol →
            results !! i = Some result → (symbol, result) ∈ answers).
  { intros i symbol result Hs Hr. apply (list_elem_of_lookup_2 _ i).
    unfold answers. rewrite lookup_zip_with, Hs, Hr. done. }
  destruct (fetchPrices_loop rt store answers)
    as (np & st & Hfold & _ & _ & Habsent & Hok & Hfailed).
  { by rewrite Hfst. }
  assert (Hcount : length (filter (λ answer, answer.2 = None) answers)
                   = length (filter (λ r, r = None) results)).
  { by rewrite <- Hsnd, length_filter_fmap. }
  rewrite Hcount in Hfold.
  eexists np, _, st. split; [exact Hfold|]. split; [done|].
  split; [|split; [|split]].
  - unfold fetchPrices_error.
    set (failed := filter (λ r, r = None) results).
    assert (Hnone : failed = [] ↔ Forall is_Some results).
    { unfold failed. clear. induction results as [|r rs IH]; [done|].
      rewrite filter_cons, Forall_cons.
      destruct (decide (r = None)) as [->|Hr].
      - split; [done|]. intros [[? ?] _]. done.
      - rewrite IH. split; [|tauto]. intros H. split; [|done].
        by destruct r. }
    rewrite <- Hnone. destruct failed as [|r rs]; cbn [length].
    + done.
    + rewrite (proj2 (Z.ltb_lt 0 _)) by lia.
      split; [|done]. by destruct (_ && _).
  - intros i symbol data Hs Hr. by apply Hok, (Hin i).
  - intros i symbol Hs Hr. by apply Hfailed, (Hin i).
  - intros symbol Hs. apply Habsent. by rewrite Hfst.
Qed.

End fetch_loop.

Section fetch_loop_examples.

Lemma fetchPrices_results_spec_witness :
  ∃ newPrices store',
    fetchPrices_results wednesday_1558 ["QQQ"; "VOO"] [None; Some voo_quote]
      empty_cache_store = (newPrices, 1%Z, store')
    ∧ Map_get "VOO" newPrices = Some voo_quote
    ∧ Map_get "QQQ" newPrices = None
    ∧ getCachedPrice wednesday_1558 "VOO" store' = Some (105%R, false).
Proof.
  destruct (fetchPrices_results_spec wednesday_1558 ["QQQ"; "VOO"]
              [None; Some voo_quote] empty_cache_store)
    as (newPrices & failedCount & store' & Hloop & -> & _ & Hok & Hfailed & _).
  - reflexivity.
  - apply NoDup_cons. split.
    + intros [Heq|Hin]%elem_of_cons; [discriminate Heq|].
      by apply elem_of_nil in Hin.
    + apply NoDup_singleton.
  - exists newPrices, store'. split; [exact Hloop|].
    destruct (Hok 1%nat "VOO" voo_quote eq_refl eq_refl) as [Hvoo Hcached].
    destruct (Hfailed 0%nat "QQQ" eq_refl eq_refl) as [Hqqq _].
    split; [exact Hvoo|]. split; [exact Hqqq|]. exact (Hcached eq_refl).
Defined.

End fetch_loop_examples.

(** ** Examples *)

Section cache_maintenance_examples.
Local Open Scope Z_scope.

Lemma updatePriceCache_other_symbols_witness :
  getCachedPrice wednesday_1558 "QQQ"
    (updatePriceCache wednesday_1558 "VOO" voo_quote empty_cache_store)
  = getCachedPrice wednesday_1558 "QQQ" empty_cache_store.
Proof.
  apply (updatePriceCache_other_symbols wednesday_1558 wednesday_1558
           "VOO" "QQQ" voo_quote empty_cache_store).
  vm_compute. discriminate.
Defined.

Lemma staleness_bounds_witness :
  isCacheStale (later (4 * msPerMinute) wednesday_1558) "voo"
    (updatePriceCache wednesday_1558 "VOO" voo_quote empty_cache_store)
  = false
  ∧ isCacheStale (later (61 * msPerMinute) wednesday_1558) "voo"
      (updatePriceCache wednesday_1558 "VOO" voo_quote empty_cache_store)
    = true.
Proof.
  destruct (getPriceCache_updatePriceCache wednesday_1558 "VOO" voo_quote
              empty_cache_store eq_refl) as (entry & Hentry & _ & Hupdated).
  split.
  - refine (proj1 (staleness_bounds (later (4 * msPerMinute) wednesday_1558)
                     "voo" _ entry Hentry) _).
    rewrite Hupdated. vm_compute. discriminate.
  - refine (proj2 (staleness_bounds (later (61 * msPerMinute) wednesday_1558)
                     "voo" _ entry Hentry) _).
    rewrite Hupdated. vm_compute. reflexivity.
Defined.

Lemma cache_keys_normalized_witness :
  keys_normalized
    (getPriceCache
       (updatePriceCache wednesday_1558 " voo" voo_quote empty_cache_store)).
Proof.
  refine (proj1 (cache_keys_normalized wednesday_1558 empty_cache_store _)
            " voo" voo_quote).
  exact keys_normalized_empty.
Defined.

End cache_maintenance_examples.

Section service_examples.
Local Open Scope Z_scope.

Lemma deletePurchase_spec_witness :
  deletePurchase wednesday_1558 (LocalStorage.mk true None) edited_portfolio
    "p2" = Throw (Error "Purchase with ID p2 not found")
  ∧ ∃ updated store',
      deletePurchase wednesday_1558 (LocalStorage.mk true None)
        edited_portfolio "p1" = Ok (updated, store')
      ∧ Portfolio.purchases updated = [].
Proof.
  split.
  - refine (proj1 (deletePurchase_spec wednesday_1558
                     (LocalStorage.mk true None) edited_portfolio "p2") _).
    apply Forall_cons. split; [discriminate|apply Forall_nil_2].
  - destruct (proj2 (deletePurchase_spec wednesday_1558
                       (LocalStorage.mk true None) edited_portfolio "p1"))
      as (updated & store' & Hdelete & Hpurchases & _).
    + left. reflexivity.
    + reflexivity.
    + exists updated, store'. split; [exact Hdelete|].
      rewrite Hpurchases. reflexivity.
Defined.

Lemma deletePurchase_addPurchase_witness :
  ∃ added store1 restored store2,
    addPurchase wednesday_1558 (LocalStorage.mk true None) edited_portfolio
      qqq_form = Ok (added, store1)
    ∧ length (Portfolio.purchases added) = 2%nat
    ∧ deletePurchase (later msPerMinute wednesday_1558) store1 added
        "generated-id" = Ok (restored, store2)
    ∧ Portfolio.purchases restored = [edited_purchase].
Proof.
  apply (deletePurchase_addPurchase wednesday_1558
           (later msPerMinute wednesday_1558) (LocalStorage.mk true None)
           edited_portfolio qqq_form).
  - apply Forall_cons. split; [discriminate|apply Forall_nil_2].
  - reflexivity.
Defined.

Lemma updatePurchase_preserves_witness :
  ∃ updated store',
    updatePurchase wednesday_1558 (LocalStorage.mk true None) edited_portfolio
      "p1" cleared_fees_form = Ok (updated, store')
    ∧ Purchase.id <$> Portfolio.purchases updated = ["p1"]
    ∧ Purchase.createdAt <$> Portfolio.purchases updated = [1705312800000].
Proof.
  eexists _, _. split; [reflexivity|].
  destruct (proj2 (updatePurchase_preserves wednesday_1558
                     (LocalStorage.mk true None) edited_portfolio "p1"
                     cleared_fees_form) _ _ eq_refl)
    as (_ & Hids & Hcreated & _).
  split; [exact Hids | exact Hcreated].
Defined.

Lemma initializePortfolio_spec_witness :
  ∃ portfolio store',
    initializePortfolio wednesday_1558 (LocalStorage.mk true None)
      "Retirement" = Ok (portfolio, store')
    ∧ getPortfolio store' = Some (touch wednesday_1558 portfolio)
    ∧ Portfolio.purchases portfolio = [].
Proof.
  destruct (proj2 (initializePortfolio_spec wednesday_1558
                     (LocalStorage.mk true None) "Retirement"))
    as (portfolio & store' & Hinit & Hget & Hpurchases & _).
  - reflexivity.
  - discriminate.
  - exists portfolio, store'. split; [exact Hinit|]. split; assumption.
Defined.

Lemma addPurchase_getPurchasesByETF_witness :
  ∃ added store' purchase,
    addPurchase wednesday_1558 (LocalStorage.mk true None) edited_portfolio
      qqq_form = Ok (added, store')
    ∧ getPurchasesByETF added "QQQ" = [purchase]
    ∧ getPurchasesByETF added "VOO" = [edited_purchase].
Proof.
  eexists _, _.
  destruct (addPurchase_getPurchasesByETF wednesday_1558
              (LocalStorage.mk true None) _ edited_portfolio _ qqq_form
              eq_refl)
    as (purchase & _ & _ & Hfiled & Hothers).
  exists purchase. split; [reflexivity|]. split.
  - exact Hfiled.
  - rewrite (Hothers "VOO"); [reflexivity|]. vm_compute. discriminate.
Defined.

(** Ten and zero are read as they are; [1e400] and [1e-400] are not. *)
Lemma readable_examples :
  binary64_readable 10 = true
  ∧ binary64_readable 0 = true
  ∧ binary64_readable (inject_Z (10 ^ 400)) = false
  ∧ binary64_readable (1 # 10 ^ 400) = false.
Proof. vm_compute. done. Qed.

Lemma export_import_round_trip_witness :
  ∃ portfolio store1 store2,
    importPortfolio wednesday_1558 (LocalStorage.mk true None)
      (Some document_without_timestamps) = Ok (portfolio, store1)
    ∧ importPortfolio (later msPerHour wednesday_1558) store1
        (Some (exportPortfolio (later msPerMinute wednesday_1558) portfolio))
      = Ok (touch (later msPerHour wednesday_1558) portfolio, store2).
Proof.
  eexists _, _.
  destruct (export_import_round_trip wednesday_1558
              (later msPerMinute wednesday_1558)
              (later msPerHour wednesday_1558)
              (LocalStorage.mk true None) _
              document_without_timestamps _ eq_refl ltac:(discriminate)
              eq_refl)
    as (store2 & stored & Himport & _).
  exists store2. split; [reflexivity | exact Himport].
Defined.

End service_examples.

Section engine_more_examples.
Local Open Scope R_scope.

Lemma holdings_partition_witness :
  sum_of ETFHoldingMetrics.weightInPortfolio
    (PortfolioMetrics.holdings
       (calculatePortfolioMetrics wednesday_1558 example_portfolio
          example_prices)) = 100.
Proof.
  apply (holdings_partition wednesday_1558 example_portfolio example_prices).
  change (PortfolioMetrics.currentValue
            (calculatePortfolioMetrics wednesday_1558 example_portfolio
               example_prices))
    with (totalCurrentValue_of example_prices
            (groupBySymbol [voo_last_year; qqq_unquoted; voo_this_year])).
  rewrite totalCurrentValue_of_sum. cbn [sum_of]. unfold quoted_value.
  destruct example_quotes as [Hvoo Hqqq].
  cbn [Purchase.etfSymbol voo_last_year qqq_unquoted voo_this_year].
  rewrite Hvoo, Hqqq.
  cbn [Purchase.shares ETFPriceData.currentPrice voo_quote voo_last_year
       voo_this_year].
  lra.
Defined.

Lemma calculateAnnualizedReturn_one_year_witness :
  calculateAnnualizedReturn 1000 1200 365
  = calculateGainLossPercent 1000 1200.
Proof. apply calculateAnnualizedReturn_one_year; lra. Defined.

Lemma calculateAnnualizedReturn_sign_witness :
  0 < calculateAnnualizedReturn 1000 1200 100
  ∧ -100 <= calculateAnnualizedReturn 1000 900 100 < 0.
Proof.
  destruct (calculateAnnualizedReturn_sign 1000 1200 100) as (_ & Hgain & _);
    [lra | lra |].
  destruct (calculateAnnualizedReturn_sign 1000 900 100)
    as (Hlow & Hloss & Hzero & _); [lra | lra |].
  split; [apply Hgain; lra|]. split; [exact Hlow|].
  destruct (Rtotal_order (calculateAnnualizedReturn 1000 900 100) 0)
    as [Hlt|[Heq|Hgt]]; [exact Hlt | |].
  - apply Hzero in Heq. lra.
  - apply Hloss in Hgt. lra.
Defined.



Lemma ytd_of_old_portfolio_witness :
  YTDPerformance.ytdGainLossPercent
    (calculateYTDPerformance wednesday_1558 [voo_last_year] example_prices)
  = 5.
Proof.
  apply (ytd_of_old_portfolio wednesday_1558 [voo_last_year] example_prices 5).
  - apply Forall_cons. split; [split|apply Forall_nil_2].
    + exists voo_quote. split; reflexivity.
    + vm_compute. reflexivity.
  - lra.
  - cbn [sum_of]. unfold quoted_value.
    cbn [Purchase.etfSymbol voo_last_year].
    rewrite (proj1 example_quotes).
    cbn [Purchase.shares ETFPriceData.currentPrice voo_quote voo_last_year].
    lra.
Defined.

Lemma calculateWeightedAverageCost_bounds_witness :
  95 <= calculateWeightedAverageCost [voo_last_year; voo_this_year] <= 100.
Proof.
  apply (calculateWeightedAverageCost_bounds [voo_last_year; voo_this_year]
           95 100).
  - discriminate.
  - repeat (apply Forall_cons; split; [cbn; lra|]). apply Forall_nil_2.
Defined.

Lemma averageCostPerShare_break_even_witness :
  ETFHoldingMetrics.totalGainLoss
    (calculateETFHoldingMetrics wednesday_1558 [voo_last_year; voo_this_year]
       "Vanguard S&P 500 ETF" 105 1575)
  = (105 - ETFHoldingMetrics.averageCostPerShare
             (calculateETFHoldingMetrics wednesday_1558
                [voo_last_year; voo_this_year] "Vanguard S&P 500 ETF"
                105 1575))
    * ETFHoldingMetrics.totalShares
        (calculateETFHoldingMetrics wednesday_1558
           [voo_last_year; voo_this_year] "Vanguard S&P 500 ETF" 105 1575).
Proof.
  apply (averageCostPerShare_break_even wednesday_1558
           [voo_last_year; voo_this_year] "Vanguard S&P 500 ETF" 105 1575).
  cbn [calculateETFHoldingMetrics ETFHoldingMetrics.totalShares].
  rewrite reduce_sum_sum_of. cbn. lra.
Defined.

End engine_more_examples.

Section hook_examples.
Local Open Scope R_scope.

Lemma useMetrics_totals_witness :
  ∃ metrics,
    UseMetrics.useMetrics wednesday_1558 (Some example_portfolio)
      example_prices = Some metrics
    ∧ PortfolioMetrics.totalInvested metrics = 950 + (300 + (500 + 0))
    ∧ PortfolioMetrics.currentValue metrics
      = PortfolioMetrics.currentValue
          (calculatePortfolioMetrics wednesday_1558 example_portfolio
             example_prices)
    ∧ length (PortfolioMetrics.holdings metrics) = 2%nat
    ∧ length (PortfolioMetrics.holdings
                (calculatePortfolioMetrics wednesday_1558 example_portfolio
                   example_prices)) = 1%nat.
Proof.
  destruct (useMetrics_totals wednesday_1558 example_portfolio example_prices)
    as (_ & _ & H).
  destruct H as (metrics & Hhook & Hinvested & _ & Hsymbols & _ & _ & Hengine);
    [discriminate|].
  exists metrics. split; [exact Hhook|]. split; [exact Hinvested|].
  split; [|split].
  - apply Hengine.
    repeat (apply Forall_cons; split; [reflexivity|]). apply Forall_nil_2.
  - apply Permutation_length in Hsymbols.
    rewrite length_map in Hsymbols. exact Hsymbols.
  - reflexivity.
Defined.


End hook_examples.
